(** * compile_car.py: asset-catalog compilation for Chromium Mac

    A shallow embedding of [tools/mac/icons/compile_car.py] and the
    properties of its version gate, deployment-target lookup, path
    validation, diagnostic classification and output relocation.

    Python values are embedded as an inductive type of property-list
    values; exceptions as an error result; calls that leave the process
    (temporary directories, [shutil], [subprocess], [plistlib], [open],
    [print]) as the calls of a small free monad, interpreted by an
    arbitrary handler that also records the trace of what was called and
    what came back.  Strings are byte strings: non-ASCII text is outside
    the model. *)

From Stdlib Require Import List String Ascii ZArith Bool Lia.
From Stdlib Require Import Decimal DecimalString DecimalZ DecimalFacts.
From Stdlib Require Import SpecFloat.
From Stdlib.Strings Require Import Byte.
Import ListNotations.
Open Scope string_scope.
Open Scope Z_scope.

Set Implicit Arguments.
Set Warnings "-register-all".

(** ** Python values and exceptions *)

Module Py.

(** What [plistlib.loads] can produce: booleans, integers, reals, strings,
    data, dates, arrays and dictionaries with string keys.  A dictionary
    keeps its insertion order, as a Python [dict] does. *)
Inductive pyval : Type :=
| VBool (b : bool)
| VInt (z : Z)
| VFloat (f : spec_float)
| VStr (s : string)
| VBytes (b : list byte)
| VDate (iso : string)
| VList (l : list pyval)
| VDict (d : list (string * pyval)).

(** A formatted string keeps its interpolated values symbolic: [Lit] is
    literal text, [Fmt v] is [{v}] (that is [str(v)]) and [Repr v] is
    [{v!r}]. *)
Inductive frag : Type :=
| Lit (s : string)
| Fmt (v : pyval)
| Repr (v : pyval).

Definition fstring := list frag.

Inductive exn : Type :=
| AssetCatalogException (msg : fstring)
| ValueError (msg : fstring)
| KeyError (key : string)
| TypeError (msg : string)
| AttributeError (msg : string)
| External (name : string).   (* raised inside a library or the OS *)

Inductive result (A : Type) : Type :=
| Ok (a : A)
| Err (e : exn).
Arguments Ok {A} a.
Arguments Err {A} e.

Definition rbind {A B} (r : result A) (f : A -> result B) : result B :=
  match r with
  | Ok a => f a
  | Err e => Err e
  end.

Definition is_err {A} (r : result A) : bool :=
  match r with Ok _ => false | Err _ => true end.

(** *** Dictionaries *)

Fixpoint dict_get {V} (d : list (string * V)) (key : string) : option V :=
  match d with
  | [] => None
  | (k, v) :: rest => if String.eqb k key then Some v else dict_get rest key
  end.

(** [d[key] = v]: an existing key keeps its position, a new one goes last. *)
Fixpoint dict_set {V} (d : list (string * V)) (key : string) (v : V)
  : list (string * V) :=
  match d with
  | [] => [(key, v)]
  | (k, x) :: rest =>
      if String.eqb k key then (k, v) :: rest else (k, x) :: dict_set rest key v
  end.

(** *** Truth value, length, iteration, subscripting *)

Definition float_is_zero (f : spec_float) : bool :=
  match f with S754_zero _ => true | _ => false end.

Definition truthy (v : pyval) : bool :=
  match v with
  | VBool b => b
  | VInt z => negb (z =? 0)
  | VFloat f => negb (float_is_zero f)
  | VStr s => negb (String.eqb s EmptyString)
  | VBytes b => match b with [] => false | _ => true end
  | VDate _ => true
  | VList l => match l with [] => false | _ => true end
  | VDict d => match d with [] => false | _ => true end
  end.

(** [not value] for the result of [dict.get], where [None] is false. *)
Definition truthy_opt (v : option pyval) : bool :=
  match v with None => false | Some x => truthy x end.

Definition type_name (v : pyval) : string :=
  match v with
  | VBool _ => "bool" | VInt _ => "int" | VFloat _ => "float"
  | VStr _ => "str" | VBytes _ => "bytes" | VDate _ => "datetime.datetime"
  | VList _ => "list" | VDict _ => "dict"
  end.

Fixpoint chars (s : string) : list pyval :=
  match s with
  | EmptyString => []
  | String c r => VStr (String c EmptyString) :: chars r
  end.

Definition py_iter (v : pyval) : result (list pyval) :=
  match v with
  | VList l => Ok l
  | VDict d => Ok (map (fun kv => VStr (fst kv)) d)
  | VStr s => Ok (chars s)
  | VBytes b => Ok (map (fun x => VInt (Z.of_N (Byte.to_N x))) b)
  | _ => Err (TypeError ("'" ++ type_name v ++ "' object is not iterable"))
  end.

Definition py_len (v : pyval) : result nat :=
  match v with
  | VList l => Ok (List.length l)
  | VDict d => Ok (List.length d)
  | VStr s => Ok (String.length s)
  | VBytes b => Ok (List.length b)
  | _ => Err (TypeError ("object of type '" ++ type_name v ++ "' has no len()"))
  end.

(** [v[key]] for a string key. *)
Definition py_getitem (v : pyval) (key : string) : result pyval :=
  match v with
  | VDict d =>
      match dict_get d key with
      | Some x => Ok x
      | None => Err (KeyError key)
      end
  | VList _ | VStr _ | VBytes _ =>
      Err (TypeError (type_name v ++ " indices must be integers"))
  | _ => Err (TypeError ("'" ++ type_name v ++ "' object is not subscriptable"))
  end.

(** [v.get(key)]: only a dictionary has the method. *)
Definition py_get (v : pyval) (key : string) : result (option pyval) :=
  match v with
  | VDict d => Ok (dict_get d key)
  | _ => Err (AttributeError
                ("'" ++ type_name v ++ "' object has no attribute 'get'"))
  end.

(** [v != s] for a string literal [s]: values of other types differ. *)
Definition ne_str (v : pyval) (s : string) : bool :=
  match v with
  | VStr t => negb (String.eqb t s)
  | _ => true
  end.

(** *** Strings *)

(** [s.split(sep)] for a one-character separator. *)
Fixpoint split (sep : ascii) (s : string) : list string :=
  match s with
  | EmptyString => [EmptyString]
  | String c r =>
      if Ascii.eqb c sep then EmptyString :: split sep r
      else match split sep r with
           | h :: t => String c h :: t
           | [] => [String c EmptyString]
           end
  end.

(** [sep.join(l)]. *)
Fixpoint join (sep : string) (l : list string) : string :=
  match l with
  | [] => EmptyString
  | [x] => x
  | x :: rest => x ++ sep ++ join sep rest
  end.

Definition is_digit (c : ascii) : bool :=
  let n := nat_of_ascii c in (48 <=? n)%nat && (n <=? 57)%nat.

(** ASCII white space as [str.isspace] and the [\s] of [re] see it: tab to
    carriage return, the four separators 28 to 31, and the space. *)
Definition is_space (c : ascii) : bool :=
  let n := nat_of_ascii c in
  ((9 <=? n)%nat && (n <=? 13)%nat) || ((28 <=? n)%nat && (n <=? 32)%nat).

(** White space as [int] skips it around an ASCII literal: the separators
    28 to 31 are not part of it. *)
Definition is_int_space (c : ascii) : bool :=
  let n := nat_of_ascii c in
  ((9 <=? n)%nat && (n <=? 13)%nat) || (n =? 32)%nat.

Fixpoint lstrip (s : string) : string :=
  match s with
  | String c r => if is_int_space c then lstrip r else s
  | EmptyString => EmptyString
  end.

Fixpoint rstrip (s : string) : string :=
  match s with
  | EmptyString => EmptyString
  | String c r =>
      match rstrip r with
      | EmptyString =>
          if is_int_space c then EmptyString else String c EmptyString
      | r' => String c r'
      end
  end.

(** The literal of [int(s)] without the white space around it. *)
Definition strip (s : string) : string := rstrip (lstrip s).

(** The digits of an integer literal, with the single underscores that may
    separate them removed; [None] for anything else. *)
Fixpoint literal_digits (prev_digit : bool) (s : string) : option string :=
  match s with
  | EmptyString => if prev_digit then Some EmptyString else None
  | String c r =>
      if is_digit c then option_map (String c) (literal_digits true r)
      else if Ascii.eqb c "_" then
        if prev_digit then literal_digits false r else None
      else None
  end.

(** [int(s)], base 10. *)
Definition py_int (s : string) : result Z :=
  let t := strip s in
  let '(negative, body) :=
    match t with
    | String "-" r => (true, r)
    | String "+" r => (false, r)
    | _ => (false, t)
    end in
  match literal_digits false body with
  | Some ds =>
      match NilEmpty.uint_of_string ds with
      | Some d => Ok (if negative then - Z.of_uint d else Z.of_uint d)
      | None => Err (ValueError [Lit "invalid literal for int() with base 10: ";
                                 Repr (VStr s)])
      end
  | None => Err (ValueError [Lit "invalid literal for int() with base 10: ";
                             Repr (VStr s)])
  end.

(** [str(z)] for an integer. *)
Definition py_str_int (z : Z) : string := NilZero.string_of_int (Z.to_int z).

(** [tuple(f(x) for x in l)] where [f] may raise: the first error wins. *)
Fixpoint map_result {A B} (f : A -> result B) (l : list A) : result (list B) :=
  match l with
  | [] => Ok []
  | x :: rest =>
      rbind (f x) (fun y => rbind (map_result f rest) (fun ys => Ok (y :: ys)))
  end.

(** [a < b] on tuples of integers: the first differing position decides,
    and a proper prefix is smaller. *)
Fixpoint tuple_lt (a b : list Z) : bool :=
  match a, b with
  | _, [] => false
  | [], _ :: _ => true
  | x :: a', y :: b' =>
      if x =? y then tuple_lt a' b' else x <? y
  end.

End Py.
Import Py.

(** ** pathlib.PurePosixPath *)

Module PurePath.

(** A path is its root ([""], ["/"] or ["//"]) and its components. *)
Record Path : Type := mkPath { root : string; tail : list string }.

(** [posixpath.splitroot]: exactly two leading slashes are a root of their
    own, one or three and more are ["/"]. *)
Definition splitroot (p : string) : string * string :=
  match p with
  | String "/" (String "/" (String "/" r)) => ("/", String "/" (String "/" r))
  | String "/" (String "/" r) => ("//", r)
  | String "/" r => ("/", r)
  | _ => (EmptyString, p)
  end.

Definition keep_part (x : string) : bool :=
  negb (String.eqb x EmptyString) && negb (String.eqb x ".").

(** [pathlib.Path(s)]: empty and ["."] components are dropped. *)
Definition of_string (s : string) : Path :=
  let '(rt, rel) := splitroot s in
  mkPath rt (filter keep_part (split "/" rel)).

(** [str(p)]. *)
Definition to_string (p : Path) : string :=
  match root p, tail p with
  | EmptyString, [] => "."
  | rt, t => rt ++ join "/" t
  end.

(** [p.name]: the final component, empty when there is none. *)
Definition name (p : Path) : string := last (tail p) EmptyString.

(** [(n[:i], n[i:])] for [i = n.rfind('.')], when there is a dot. *)
Fixpoint rfind_dot (n : string) : option (string * string) :=
  match n with
  | EmptyString => None
  | String c r =>
      match rfind_dot r with
      | Some (a, b) => Some (String c a, b)
      | None => if Ascii.eqb c "." then Some (EmptyString, n) else None
      end
  end.

(** [p.suffix] and [p.stem] (Python 3.8 to 3.13): the last dot of the name
    starts the suffix unless it is the first or the last character. *)
Definition suffix (p : Path) : string :=
  match rfind_dot (name p) with
  | Some (a, b) =>
      if (0 <? String.length a)%nat && (1 <? String.length b)%nat
      then b else EmptyString
  | None => EmptyString
  end.

Definition stem (p : Path) : string :=
  match rfind_dot (name p) with
  | Some (a, b) =>
      if (0 <? String.length a)%nat && (1 <? String.length b)%nat
      then a else name p
  | None => name p
  end.

(** [p.joinpath(seg)]: an absolute segment replaces the path. *)
Definition joinpath1 (p : Path) (seg : string) : Path :=
  match seg with
  | String "/" _ => of_string seg
  | _ => mkPath (root p) (tail p ++ tail (of_string seg))
  end.

(** [p.joinpath] with several segments. *)
Definition joinpath (p : Path) (segs : list string) : Path :=
  fold_left joinpath1 segs p.

(** [p.parent]. *)
Definition parent (p : Path) : Path := mkPath (root p) (removelast (tail p)).

(** [os.pardir]. *)
Definition pardir : string := "..".

End PurePath.
Import PurePath.

(** ** Calls that leave the process, and programs over them *)

Definition bytes := list byte.

(** Each call names the reply it waits for; a reply of type [result] may be
    an exception raised inside the call. *)
Inductive call : Type -> Type :=
| TemporaryDirectory : call (result string)
    (* entering [with tempfile.TemporaryDirectory()]: the directory's name *)
| Cleanup (dir : string) : call (result unit)
    (* leaving the [with] block: the directory is removed *)
| Copytree (src dst : Path) : call (result unit)
| Copyfile (src dst : Path) : call (result unit)
| Popen (command : list string) : call (result (bytes * bytes * Z))
    (* [subprocess.Popen] and [communicate]: stdout, stderr, return code *)
| Check_output (command : list string) : call (result bytes)
| Plist_loads (data : bytes) : call (result pyval)
| Read_text (file : Path) : call (result string)
    (* [open(file, 'r')] and [read()] *)
| Print (line : string) : call unit.

Inductive prog (A : Type) : Type :=
| Ret (a : A)
| Raise (e : exn)
| Do (R : Type) (c : call R) (k : R -> prog A).
Arguments Ret {A} a.
Arguments Raise {A} e.
Arguments Do {A R} c k.

Fixpoint bind {A B} (p : prog A) (f : A -> prog B) : prog B :=
  match p with
  | Ret a => f a
  | Raise e => Raise e
  | Do c k => Do c (fun r => bind (k r) f)
  end.

Notation "x <- p ;; q" := (bind p (fun x => q))
  (at level 61, p at next level, right associativity).
Notation "' pat <- p ;; q" := (bind p (fun x => match x with pat => q end))
  (at level 61, pat pattern, p at next level, right associativity).
Notation "p ;; q" := (bind p (fun _ => q))
  (at level 61, right associativity).

(** A pure computation that may raise. *)
Definition lift {A} (r : result A) : prog A :=
  match r with
  | Ok a => Ret a
  | Err e => Raise e
  end.

(** A call whose exception, if any, is raised in the program. *)
Definition attempt {A} (c : call (result A)) : prog A := Do c lift.

Definition print (line : string) : prog unit := Do (Print line) Ret.

(** [try: p finally: f].  An exception of [f] replaces the outcome of [p]. *)
Fixpoint finally {A} (p : prog A) (f : prog unit) : prog A :=
  match p with
  | Ret a => f ;; Ret a
  | Raise e => f ;; Raise e
  | Do c k => Do c (fun r => finally (k r) f)
  end.

(** [with tempfile.TemporaryDirectory() as tmp_dir: body]. *)
Definition with_TemporaryDirectory {A} (body : string -> prog A) : prog A :=
  tmp_dir <- attempt TemporaryDirectory ;;
  finally (body tmp_dir) (attempt (Cleanup tmp_dir)).

(** [for x in l: body x]. *)
Fixpoint for_each {A} (l : list A) (body : A -> prog unit) : prog unit :=
  match l with
  | [] => Ret tt
  | x :: rest => body x ;; for_each rest body
  end.

(** *** Running a program *)

Inductive event : Type :=
| EvTemporaryDirectory (r : result string)
| EvCleanup (dir : string) (r : result unit)
| EvCopytree (src dst : Path) (r : result unit)
| EvCopyfile (src dst : Path) (r : result unit)
| EvPopen (command : list string) (r : result (bytes * bytes * Z))
| EvCheck_output (command : list string) (r : result bytes)
| EvPlist_loads (data : bytes) (r : result pyval)
| EvRead_text (file : Path) (r : result string)
| EvPrint (line : string).

Definition log {R} (c : call R) : R -> event :=
  match c in call T return T -> event with
  | TemporaryDirectory => EvTemporaryDirectory
  | Cleanup dir => EvCleanup dir
  | Copytree src dst => EvCopytree src dst
  | Copyfile src dst => EvCopyfile src dst
  | Popen command => EvPopen command
  | Check_output command => EvCheck_output command
  | Plist_loads data => EvPlist_loads data
  | Read_text file => EvRead_text file
  | Print line => fun _ => EvPrint line
  end.

Section Run.
Variable World : Type.
Variable handle : forall R, call R -> World -> R * World.

(** The outcome, the final world and the calls made with their replies. *)
Fixpoint run {A} (p : prog A) (w : World) : result A * World * list event :=
  match p with
  | Ret a => (Ok a, w, [])
  | Raise e => (Err e, w, [])
  | Do c k =>
      let '(r, w1) := handle c w in
      let '(res, w2, tr) := run (k r) w1 in
      (res, w2, log c r :: tr)
  end.

Definition outcome {A} (p : prog A) (w : World) : result A :=
  fst (fst (run p w)).

Definition trace {A} (p : prog A) (w : World) : list event :=
  snd (run p w).
End Run.

(** The destination copies of a trace: source, destination and reply. *)
Definition copies (tr : list event) : list (Path * Path * result unit) :=
  flat_map (fun e => match e with
                     | EvCopyfile src dst r => [(src, dst, r)]
                     | _ => []
                     end) tr.

(** ** The fragment of [re] that the script uses

    A backtracking matcher for the operators of the one pattern in the
    script, with [re.MULTILINE] anchors: greedy repetition tries the longest
    run first, and [finditer] resumes where the previous match ended. *)

Module Re.

Inductive regex : Type :=
| RBol                          (* ^  : at the start or after a newline *)
| REol                          (* $  : at the end or before a newline *)
| RChar (c : ascii)
| RAny                          (* .  : anything but a newline *)
| RSpace                        (* \s *)
| RSeq (r1 r2 : regex)
| RStar (r : regex)             (* r* , greedy *)
| ROpt (r : regex)              (* r? , greedy *)
| RGroup (n : nat) (r : regex). (* capturing group number n *)

Fixpoint RLit (s : string) (then_ : regex) : regex :=
  match s with
  | EmptyString => then_
  | String c r => RSeq (RChar c) (RLit r then_)
  end.

Definition newline : ascii := ascii_of_nat 10.
Definition dquote : ascii := ascii_of_nat 34.

(** Where the matcher stands: the offset, the character before it, the text
    still ahead and the spans of the groups closed so far. *)
Record state : Type := mkState {
  pos : nat;
  prev : option ascii;
  rest : string;
  caps : list (nat * (nat * nat))
}.

Definition advance (st : state) : option (ascii * state) :=
  match rest st with
  | EmptyString => None
  | String c r => Some (c, mkState (S (pos st)) (Some c) r (caps st))
  end.

Definition at_bol (st : state) : bool :=
  match prev st with
  | None => true
  | Some c => Ascii.eqb c newline
  end.

Definition at_eol (st : state) : bool :=
  match rest st with
  | EmptyString => true
  | String c _ => Ascii.eqb c newline
  end.

Definition one (ok : ascii -> bool) (k : state -> option state) (st : state)
  : option state :=
  match advance st with
  | Some (c, st') => if ok c then k st' else None
  | None => None
  end.

(** Greedy repetition of a matcher [body]: one more round first, as long
    as the round consumes something, then the continuation. *)
Fixpoint star (body : (state -> option state) -> state -> option state)
  (k : state -> option state) (fuel : nat) (st : state) : option state :=
  match fuel with
  | O => k st
  | S fuel' =>
      match body (fun st' => if (pos st <? pos st')%nat
                             then star body k fuel' st' else None) st with
      | Some x => Some x
      | None => k st
      end
  end.

(** [matches r k st]: the first way, in backtracking order, to match [r] at
    [st] and then satisfy the continuation [k]. *)
Fixpoint matches (r : regex) (k : state -> option state) (st : state)
  : option state :=
  match r with
  | RBol => if at_bol st then k st else None
  | REol => if at_eol st then k st else None
  | RChar c => one (Ascii.eqb c) k st
  | RAny => one (fun x => negb (Ascii.eqb x newline)) k st
  | RSpace => one is_space k st
  | RSeq r1 r2 => matches r1 (matches r2 k) st
  | RStar r' => star (matches r') k (S (String.length (rest st))) st
  | ROpt r' =>
      match matches r' k st with
      | Some x => Some x
      | None => k st
      end
  | RGroup n r' =>
      matches r' (fun st' =>
                    k (mkState (pos st') (prev st') (rest st')
                               ((n, (pos st, pos st')) :: caps st'))) st
  end.

(** A match object: the text searched and the spans of its groups. *)
Record rmatch : Type := mkMatch {
  m_text : string;
  m_span : nat * nat;
  m_groups : list (nat * (nat * nat))
}.

Definition lookup_group (n : nat) (gs : list (nat * (nat * nat)))
  : option (nat * nat) :=
  option_map snd (find (fun g => Nat.eqb (fst g) n) gs).

(** [m.group(n)]: [None] when the group took no part in the match. *)
Definition group (n : nat) (m : rmatch) : option string :=
  match lookup_group n (m_groups m) with
  | Some (b, e) => Some (substring b (e - b) (m_text m))
  | None => None
  end.

(** The scan of [finditer]: after an empty match the next one must not be
    empty at the same place. *)
Fixpoint scan (r : regex) (text : string) (fuel : nat) (must_advance : bool)
  (st : state) : list rmatch :=
  match fuel with
  | O => []
  | S fuel' =>
      let start := mkState (pos st) (prev st) (rest st) [] in
      let accept st' :=
        if must_advance && (pos st' =? pos st)%nat then None else Some st' in
      match matches r accept start with
      | Some st' =>
          mkMatch text (pos st, pos st') (caps st')
          :: scan r text fuel' (pos st' =? pos st)%nat st'
      | None =>
          match advance st with
          | Some (_, st1) => scan r text fuel' false st1
          | None => []
          end
      end
  end.

Definition finditer (r : regex) (text : string) : list rmatch :=
  scan r text (2 * S (String.length text)) false
       (mkState 0 None text []).

End Re.

(** ** The script *)

(** [_split_version]: [tuple(int(x) for x in version.split('.'))]. *)
Definition _split_version (version : string) : result (list Z) :=
  map_result py_int (split "." version).

(** [_unsplit_version]: ['.'.join(str(x) for x in version)]. *)
Definition _unsplit_version (version : list Z) : string :=
  join "." (map py_str_int version).

(** The module-level constant [_split_version('26.0')], evaluated when the
    module is loaded. *)
Definition _REQUIRED_ACTOOL_VERSION : list Z :=
  match _split_version "26.0" with
  | Ok v => v
  | Err _ => []
  end.

(** [_split_version] applied to a value read from a property list: only a
    string has [split]. *)
Definition split_version_of (v : pyval) : result (list Z) :=
  match v with
  | VStr s => _split_version s
  | _ => Err (AttributeError
                ("'" ++ type_name v ++ "' object has no attribute 'split'"))
  end.

Definition _verify_actool_version : prog unit :=
  let command := ["xcrun"; "actool"; "--output-format=xml1"; "--version"] in
  process <- attempt (Check_output command) ;;
  output_dict <- attempt (Plist_loads process) ;;
  entry <- lift (py_getitem output_dict "com.apple.actool.version") ;;
  short <- lift (py_getitem entry "short-bundle-version") ;;
  version <- lift (split_version_of short) ;;
  if tuple_lt version _REQUIRED_ACTOOL_VERSION then
    Raise (AssetCatalogException
             [Lit ("actool is too old; it is version "
                   ++ _unsplit_version version ++ " but at least version "
                   ++ _unsplit_version _REQUIRED_ACTOOL_VERSION
                   ++ " is required")])
  else Ret tt.

(** The pattern of [_min_deployment_target], read left to right: start of
    line, white space, the key [mac_deployment_target], white space, an
    equals sign, white space, a double quote, group 1 (any run of
    characters, greedy), a double quote, optionally white space and a
    hash comment, end of line. *)
Definition deployment_target_pattern : Re.regex :=
  Re.RSeq Re.RBol
  (Re.RSeq (Re.RStar Re.RSpace)
  (Re.RLit "mac_deployment_target"
  (Re.RSeq (Re.RStar Re.RSpace)
  (Re.RSeq (Re.RChar "=")
  (Re.RSeq (Re.RStar Re.RSpace)
  (Re.RSeq (Re.RChar Re.dquote)
  (Re.RSeq (Re.RGroup 1 (Re.RStar Re.RAny))
  (Re.RSeq (Re.RChar Re.dquote)
  (Re.RSeq (Re.ROpt (Re.RSeq (Re.RStar Re.RSpace)
                     (Re.RSeq (Re.RChar "#") (Re.RStar Re.RAny))))
           Re.REol))))))))).

(** [_min_deployment_target], with [__file__] as a parameter.  The target
    [match, = ...] takes exactly one match; the result is [match.group(1)],
    [None] if the group took no part. *)
Definition _min_deployment_target (file : string) : prog (option string) :=
  let src_root := joinpath (parent (of_string file)) [pardir; pardir; pardir] in
  let mac_sdk_path :=
    joinpath src_root ["build"; "config"; "mac"; "mac_sdk.gni"] in
  text <- attempt (Read_text mac_sdk_path) ;;
  match Re.finditer deployment_target_pattern text with
  | [] => Raise (ValueError
                   [Lit "not enough values to unpack (expected 1, got 0)"])
  | [m] => Ret (Re.group 1 m)
  | _ :: _ :: _ => Raise (ValueError
                            [Lit "too many values to unpack (expected 1)"])
  end.

(** *** [_process_path] *)

(** Failure reasons, in the order they were recorded. *)
Definition failures_t := list (string * pyval).

(** The comprehension [[x for x in l if keep(x)]] where [keep] may raise. *)
Fixpoint filter_result {A} (keep : A -> result bool) (l : list A)
  : result (list A) :=
  match l with
  | [] => Ok []
  | x :: rest =>
      rbind (keep x) (fun b =>
      rbind (filter_result keep rest) (fun ys =>
      Ok (if b then x :: ys else ys)))
  end.

(** The nested function [collect_failures]. *)
Definition collect_failures (output_dict : pyval) (output_dict_key : string)
  (failures : failures_t) (failures_key : string)
  (filter : option (pyval -> result pyval)) : result failures_t :=
  rbind (py_get output_dict output_dict_key) (fun value =>
  rbind (match value, filter with
         | Some v, Some f => rbind (f v) (fun v' => Ok (Some v'))
         | _, _ => Ok value
         end) (fun value =>
  match value with
  | Some v => if negb (truthy v) then Ok failures
              else Ok (dict_set failures failures_key v)
  | None => Ok failures
  end)).

(** The filter given for the document warnings: the entries whose ['type']
    is not ['Ambiguous Content']. *)
Definition unexpected_warnings (warnings : pyval) : result pyval :=
  rbind (py_iter warnings) (fun l =>
  rbind (filter_result
           (fun warning =>
              rbind (py_getitem warning "type") (fun t =>
              Ok (ne_str t "Ambiguous Content"))) l) (fun kept =>
  Ok (VList kept))).

(** The reasons gathered from the return code and the six collections. *)
Definition gather_failures (output_dict : pyval) (returncode : Z)
  : result failures_t :=
  let failures : failures_t := [] in
  let failures :=
    if negb (returncode =? 0)
    then dict_set failures "return code" (VStr (py_str_int returncode))
    else failures in
  rbind (collect_failures output_dict "com.apple.actool.errors" failures
           "errors" None) (fun failures =>
  rbind (collect_failures output_dict "com.apple.actool.document.errors"
           failures "document errors" None) (fun failures =>
  rbind (collect_failures output_dict "com.apple.actool.warnings" failures
           "warnings" None) (fun failures =>
  rbind (collect_failures output_dict "com.apple.actool.document.warnings"
           failures "document warnings" (Some unexpected_warnings))
        (fun failures =>
  rbind (collect_failures output_dict "com.apple.actool.notices" failures
           "notices" None) (fun failures =>
  collect_failures output_dict "com.apple.actool.document.notices" failures
    "document notices" None))))).

(** Classification: with any reason gathered, the captured standard error
    is added and the whole dictionary is raised. *)
Definition classify (output_dict : pyval) (stderr : bytes) (returncode : Z)
  : result unit :=
  rbind (gather_failures output_dict returncode) (fun failures =>
  match failures with
  | [] => Ok tt
  | _ :: _ =>
      let failures := dict_set failures "stderr" (VBytes stderr) in
      Err (AssetCatalogException [Lit "actool failed; "; Fmt (VDict failures)])
  end).

(** [pathlib.Path(v)] for a value of the output-file list. *)
Definition path_of_value (v : pyval) : result Path :=
  match v with
  | VStr s => Ok (of_string s)
  | _ => Err (TypeError
                ("expected str, bytes or os.PathLike object, not "
                 ++ type_name v))
  end.

(** The body of the loop over the output files. *)
Definition place_output (source_dir : Path) (name_tag : string)
  (verbose : bool) (output_file : pyval) : prog unit :=
  output_file <- lift (path_of_value output_file) ;;
  if String.eqb (name output_file) "partial.plist" then
    Ret tt
  else if String.eqb (name output_file) "AppIcon.icns" then
    let destination_path :=
      joinpath source_dir ["app" ++ name_tag ++ ".icns"] in
    (if verbose
     then print ("  Copying output to: " ++ to_string destination_path)
     else Ret tt) ;;
    attempt (Copyfile output_file destination_path)
  else if String.eqb (name output_file) "Assets.car" then
    let destination_path :=
      joinpath source_dir ["Assets" ++ name_tag ++ ".car"] in
    (if verbose
     then print ("  Copying output to: " ++ to_string destination_path)
     else Ret tt) ;;
    attempt (Copyfile output_file destination_path)
  else
    Raise (AssetCatalogException
             [Lit ("Unexpected output file: " ++ to_string output_file)]).

(** Relocation: what follows a classification without reasons. *)
Definition relocate (output_dict : pyval) (source_dir : Path)
  (name_tag : string) (verbose : bool) : prog unit :=
  compilation_results <-
    lift (py_get output_dict "com.apple.actool.compilation-results") ;;
  match compilation_results with
  | None =>
      Raise (AssetCatalogException [Lit "actool had no compilation results"])
  | Some compilation_results =>
      output_files <- lift (py_get compilation_results "output-files") ;;
      match output_files with
      | None => Raise (AssetCatalogException [Lit "actool had no output files"])
      | Some output_files =>
          n <- lift (py_len output_files) ;;
          if negb (n =? 3)%nat then
            Raise (AssetCatalogException
                     [Lit ("expected actool to output 3 files, but it "
                           ++ "instead output "
                           ++ py_str_int (Z.of_nat n) ++ " files, namely ");
                      Fmt output_files])
          else
            items <- lift (py_iter output_files) ;;
            for_each items (place_output source_dir name_tag verbose)
      end
  end.

(** The channel tag of a catalog's stem: [Err] for more than one ['_']. *)
Definition name_tag_of (stem : string) : result string :=
  let name_parts := split "_" stem in
  if (2 <? List.length name_parts)%nat then
    Err (ValueError [Lit "Asset catalog filename must have at most one _"])
  else
    Ok (if (List.length name_parts =? 2)%nat
        then "_" ++ nth 1 name_parts EmptyString
        else EmptyString).

(** The command line given to [xcrun actool]. *)
Definition actool_command (path : Path) (min_deployment_target : string)
  (tmp_dir tmp_plist appicon_tmp_path : Path) : list string :=
  [ "xcrun"; "actool";
    "--output-format=xml1"; "--notices"; "--warnings"; "--errors";
    "--platform=macosx"; "--target-device=mac";
    "--lightweight-asset-runtime-mode=enabled";
    "--enable-icon-stack-fallback-generation=disabled";
    "--app-icon=AppIcon";
    "--minimum-deployment-target=" ++ min_deployment_target;
    "--output-partial-info-plist=" ++ to_string tmp_plist;
    "--compile=" ++ to_string tmp_dir;
    to_string path;
    to_string appicon_tmp_path ].

(** The body of the [with] block of [_process_path], for the directory
    it was given. *)
Definition in_tmp_dir (path : Path) (min_deployment_target : string)
  (verbose : bool) (tmp_dir : string) : prog unit :=
  let tmp_dir := of_string tmp_dir in
  let tmp_plist := joinpath tmp_dir ["partial.plist"] in
  if negb (String.eqb (suffix path) ".xcassets") then
    Raise (ValueError
             [Lit "Asset catalog filename must have .xcassets suffix"])
  else
    name_tag <- lift (name_tag_of (stem path)) ;;
    let source_dir := joinpath path [pardir] in
    let appicon_original_path :=
      joinpath source_dir ["AppIcon" ++ name_tag ++ ".icon"] in
    let appicon_tmp_path := joinpath tmp_dir ["AppIcon.icon"] in
    attempt (Copytree appicon_original_path appicon_tmp_path) ;;
    let command :=
      actool_command path min_deployment_target tmp_dir tmp_plist
                     appicon_tmp_path in
    (if verbose then print ("  Invoking: " ++ join " " command)
     else Ret tt) ;;
    '(output, stderr, returncode) <- attempt (Popen command) ;;
    output_dict <- attempt (Plist_loads output) ;;
    lift (classify output_dict stderr returncode) ;;
    relocate output_dict source_dir name_tag verbose.

Definition _process_path (path : Path) (min_deployment_target : string)
  (verbose : bool) : prog unit :=
  with_TemporaryDirectory (in_tmp_dir path min_deployment_target verbose).

(** ** Notions used to state the properties *)

(** The collections of the compiler's reply and the reason each is
    recorded under. *)
Definition errors_key := "com.apple.actool.errors".
Definition document_errors_key := "com.apple.actool.document.errors".
Definition warnings_key := "com.apple.actool.warnings".
Definition document_warnings_key := "com.apple.actool.document.warnings".
Definition notices_key := "com.apple.actool.notices".
Definition document_notices_key := "com.apple.actool.document.notices".

Definition collections : list (string * string) :=
  [ (errors_key, "errors");
    (document_errors_key, "document errors");
    (warnings_key, "warnings");
    (document_warnings_key, "document warnings");
    (notices_key, "notices");
    (document_notices_key, "document notices") ].

(** The ['type'] of a document warning, when it has one. *)
Definition warning_type (w : pyval) : option pyval :=
  match w with
  | VDict e => dict_get e "type"
  | _ => None
  end.

Definition is_unexpected (w : pyval) : bool :=
  match warning_type w with
  | Some (VStr t) => negb (String.eqb t "Ambiguous Content")
  | _ => true
  end.

(** The shape of an InvocationResult: each collection, when present, is an
    array, and each document warning is a dictionary with a ['type']. *)
Definition is_array (v : option pyval) : bool :=
  match v with
  | None | Some (VList _) => true
  | _ => false
  end.

Definition typed_warnings (v : option pyval) : bool :=
  match v with
  | Some (VList l) =>
      forallb (fun w => match warning_type w with
                        | Some _ => true
                        | None => false
                        end) l
  | _ => true
  end.

Definition well_formed (d : list (string * pyval)) : bool :=
  forallb (fun kr => is_array (dict_get d (fst kr))) collections
  && typed_warnings (dict_get d document_warnings_key).

(** A collection that is present and not empty. *)
Definition nonempty_at (d : list (string * pyval)) (key : string) : bool :=
  match dict_get d key with
  | Some (VList (_ :: _)) => true
  | _ => false
  end.

(** The reasons, written as the list the specification describes. *)
Definition plain_reason (d : list (string * pyval)) (key reason : string)
  : failures_t :=
  match dict_get d key with
  | Some (VList (x :: l)) => [(reason, VList (x :: l))]
  | _ => []
  end.

Definition warning_reason (d : list (string * pyval)) : failures_t :=
  match dict_get d document_warnings_key with
  | Some (VList l) =>
      match filter is_unexpected l with
      | [] => []
      | kept => [("document warnings", VList kept)]
      end
  | _ => []
  end.

Definition reasons (d : list (string * pyval)) (returncode : Z) : failures_t :=
  ((if returncode =? 0 then []
    else [("return code", VStr (py_str_int returncode))])
   ++ plain_reason d errors_key "errors"
   ++ plain_reason d document_errors_key "document errors"
   ++ plain_reason d warnings_key "warnings"
   ++ warning_reason d
   ++ plain_reason d notices_key "notices"
   ++ plain_reason d document_notices_key "document notices")%list.

(** Lexicographic order on versions, as a relation. *)
Inductive version_lt : list Z -> list Z -> Prop :=
| version_lt_prefix y b : version_lt [] (y :: b)
| version_lt_head x y a b : x < y -> version_lt (x :: a) (y :: b)
| version_lt_tail x a b : version_lt a b -> version_lt (x :: a) (x :: b).



Fixpoint has_char (c : ascii) (s : string) : bool :=
  match s with
  | EmptyString => false
  | String x r => Ascii.eqb x c || has_char c r
  end.

(** What a trace shows of the compiler's reply. *)
Definition popen_reply (tr : list event) : option (bytes * bytes * Z) :=
  hd_error (flat_map (fun e => match e with
                               | EvPopen _ (Ok r) => [r]
                               | _ => []
                               end) tr).

Definition loads_reply (tr : list event) : option pyval :=
  hd_error (flat_map (fun e => match e with
                               | EvPlist_loads _ (Ok v) => [v]
                               | _ => []
                               end) tr).

(** The InvocationResult of a run: the parsed reply, the captured standard
    error and the return code. *)
Definition invocation_result (tr : list event) : option (pyval * bytes * Z) :=
  match popen_reply tr, loads_reply tr with
  | Some (_, stderr, returncode), Some output_dict =>
      Some (output_dict, stderr, returncode)
  | _, _ => None
  end.

Definition read_reply (tr : list event) : option string :=
  hd_error (flat_map (fun e => match e with
                               | EvRead_text _ (Ok s) => [s]
                               | _ => []
                               end) tr).

(** Whether removing the temporary directory raised. *)
Definition cleanup_ok (tr : list event) : bool :=
  forallb (fun e => match e with
                    | EvCleanup _ (Err _) => false
                    | _ => true
                    end) tr.

Definition copies_ok (tr : list event) : bool :=
  forallb (fun c => negb (is_err (snd c))) (copies tr).

(** The calls of a trace that stage inputs, run the compiler or write a
    destination. *)
Definition touches_files (e : event) : bool :=
  match e with
  | EvCopytree _ _ _ | EvCopyfile _ _ _ | EvPopen _ _ => true
  | _ => false
  end.

(** Where an output file goes, by its name. *)
Definition routed (source_dir : Path) (name_tag : string) (file : string)
  : list (Path * Path) :=
  if String.eqb (name (of_string file)) "AppIcon.icns" then
    [(of_string file, joinpath source_dir ["app" ++ name_tag ++ ".icns"])]
  else if String.eqb (name (of_string file)) "Assets.car" then
    [(of_string file, joinpath source_dir ["Assets" ++ name_tag ++ ".car"])]
  else [].

Definition recognised (file : string) : bool :=
  let n := name (of_string file) in
  String.eqb n "partial.plist" || String.eqb n "AppIcon.icns"
  || String.eqb n "Assets.car".

(** A reply of the compiler with the given output files and nothing else. *)
Definition clean_reply (files : list string) : pyval :=
  VDict [("com.apple.actool.compilation-results",
          VDict [("output-files", VList (map VStr files))])].

(** *** A sample environment

    Every call succeeds: the temporary directory is [/tmp/car], the
    compiler answers with a fixed return code and standard error, and
    [plistlib.loads] and [open] with a fixed value and text. *)
Record sample : Type := mkSample {
  sample_plist : pyval;
  sample_returncode : Z;
  sample_stderr : bytes;
  sample_text : string
}.

Definition sample_handle (s : sample) (R : Type) (c : call R) (w : unit)
  : R * unit :=
  match c in call T return T * unit with
  | TemporaryDirectory => (Ok "/tmp/car", tt)
  | Cleanup _ => (Ok tt, tt)
  | Copytree _ _ => (Ok tt, tt)
  | Copyfile _ _ => (Ok tt, tt)
  | Popen _ => (Ok ([], sample_stderr s, sample_returncode s), tt)
  | Check_output _ => (Ok [], tt)
  | Plist_loads _ => (Ok (sample_plist s), tt)
  | Read_text _ => (Ok (sample_text s), tt)
  | Print _ => (tt, tt)
  end.

Definition version_reply (v : string) : pyval :=
  VDict [("com.apple.actool.version",
          VDict [("short-bundle-version", VStr v)])].

Definition assignment_line (v : string) : string :=
  "mac_deployment_target = " ++ String Re.dquote v
  ++ String Re.dquote (String Re.newline EmptyString).

(** Some document warning is of another type than ['Ambiguous Content']. *)
Definition has_unexpected_warning (d : list (string * pyval)) : Prop :=
  exists l w,
    dict_get d document_warnings_key = Some (VList l) /\ In w l /\
    warning_type w <> Some (VStr "Ambiguous Content").

(** A trace of destination copies and printed lines only. *)
Definition only_copies (tr : list event) : Prop :=
  forall e, In e tr ->
            match e with
            | EvCopyfile _ _ _ | EvPrint _ => True
            | _ => False
            end.

(** A copy of a recognised output to the destination its name and the
    channel tag give. *)
Definition to_destination (source_dir : Path) (name_tag : string)
  (c : Path * Path * result unit) : Prop :=
  (name (fst (fst c)) = "AppIcon.icns"
   /\ snd (fst c) = joinpath source_dir ["app" ++ name_tag ++ ".icns"])
  \/ (name (fst (fst c)) = "Assets.car"
      /\ snd (fst c) = joinpath source_dir ["Assets" ++ name_tag ++ ".car"]).

(** A catalog path that breaks the naming rule, and the message of the
    [ValueError] raised for it. *)
Definition malformed (path : Path) : bool :=
  negb (String.eqb (suffix path) ".xcassets")
  || (2 <? List.length (split "_" (stem path)))%nat.

Definition format_message (path : Path) : string :=
  if String.eqb (suffix path) ".xcassets"
  then "Asset catalog filename must have at most one _"
  else "Asset catalog filename must have .xcassets suffix".

(** Group [n] is among the groups closed so far. *)
Definition has_group (n : nat) (gs : list (nat * (nat * nat))) : Prop :=
  Re.lookup_group n gs <> None.

(** ** [main]

    [argparse] is taken as it answers: the paths and the verbose flag it
    parses from the arguments, or the exception it leaves with.  The
    script's own location, [__file__], is a parameter as well. *)

(** [f'{v}'] for the value of [_min_deployment_target()]: the string, or
    [None] written out. *)
Definition format_target (v : option string) : string :=
  match v with
  | Some s => s
  | None => "None"
  end.

Section Main.
Variable parse_args : list string -> result (list string * bool).
Variable this_file : string.

(** The loop of [main] over the parsed paths. *)
Definition process_paths (paths : list string)
  (min_deployment_target : string) (verbose : bool) : prog unit :=
  for_each paths (fun path =>
    (if verbose then print ("Processing: " ++ path) else Ret tt) ;;
    _process_path (of_string path) min_deployment_target verbose).

Definition main (args : list string) : prog unit :=
  _verify_actool_version ;;
  parsed <- lift (parse_args args) ;;
  let '(paths, verbose) := parsed in
  min_deployment_target <- _min_deployment_target this_file ;;
  let min_deployment_target := format_target min_deployment_target in
  (if verbose
   then print ("Determined the minimum deployment target to be "
               ++ min_deployment_target ++ ".")
   else Ret tt) ;;
  process_paths paths min_deployment_target verbose.
End Main.

(** The temporary directories a trace creates and the compiler runs it
    makes. *)
Definition created (tr : list event) : list (result string) :=
  flat_map (fun e => match e with
                     | EvTemporaryDirectory r => [r]
                     | _ => []
                     end) tr.

Definition invocations (tr : list event)
  : list (list string * result (bytes * bytes * Z)) :=
  flat_map (fun e => match e with
                     | EvPopen command r => [(command, r)]
                     | _ => []
                     end) tr.

Definition is_cleanup (e : event) : bool :=
  match e with
  | EvCleanup _ _ => true
  | _ => false
  end.

Definition is_tmp (e : event) : bool :=
  match e with
  | EvTemporaryDirectory _ | EvCleanup _ _ => true
  | _ => false
  end.

(** What the version gate decides from the parsed reply of the query. *)
Definition gate_verdict (output_dict : pyval) : result unit :=
  rbind (py_getitem output_dict "com.apple.actool.version") (fun entry =>
  rbind (py_getitem entry "short-bundle-version") (fun short =>
  rbind (split_version_of short) (fun version =>
  if tuple_lt version _REQUIRED_ACTOOL_VERSION then
    Err (AssetCatalogException
           [Lit ("actool is too old; it is version "
                 ++ _unsplit_version version ++ " but at least version "
                 ++ _unsplit_version _REQUIRED_ACTOOL_VERSION
                 ++ " is required")])
  else Ok tt))).

(** A version that is at least (26, 0), read off its components: a major
    number above 26, or 26 followed by a minor number that is not
    negative. *)
Definition meets_requirement (version : list Z) : bool :=
  match version with
  | [] => false
  | major :: rest =>
      (26 <? major)
      || ((major =? 26)
          && match rest with
             | [] => false
             | minor :: _ => 0 <=? minor
             end)
  end.

Definition version_query : list string :=
  ["xcrun"; "actool"; "--output-format=xml1"; "--version"].

(** The line printed before the compiler runs, when verbose. *)
Definition announce (verbose : bool) (command : list string) : list event :=
  if verbose then [EvPrint ("  Invoking: " ++ join " " command)] else [].

(** The traces the body of the [with] block can leave for a well-named
    catalog: the icon package is staged, the compiler is run, its output
    is parsed, and only then come the copies to the destinations; the
    first call that raises is the last one. *)
Inductive staged (src dst : Path) (command : list string) (verbose : bool)
  : list event -> Prop :=
| staged_no_icon e :
    staged src dst command verbose [EvCopytree src dst (Err e)]
| staged_no_run e :
    staged src dst command verbose
      (EvCopytree src dst (Ok tt)
       :: announce verbose command ++ [EvPopen command (Err e)])
| staged_no_parse out err rc e :
    staged src dst command verbose
      (EvCopytree src dst (Ok tt)
       :: announce verbose command
       ++ [EvPopen command (Ok (out, err, rc)); EvPlist_loads out (Err e)])
| staged_parsed out err rc od rest :
    only_copies rest ->
    staged src dst command verbose
      (EvCopytree src dst (Ok tt)
       :: announce verbose command
       ++ EvPopen command (Ok (out, err, rc))
       :: EvPlist_loads out (Ok od) :: rest).



Definition is_dict (v : pyval) : bool :=
  match v with
  | VDict _ => true
  | _ => false
  end.

Definition lacks_type (v : pyval) : bool :=
  match warning_type v with
  | None => true
  | Some _ => false
  end.

(** The files a trace reads. *)
Definition reads (tr : list event) : list Path :=
  flat_map (fun e => match e with
                     | EvRead_text file _ => [file]
                     | _ => []
                     end) tr.

(** Where [_min_deployment_target] looks for the build configuration. *)
Definition mac_sdk_path (file : string) : Path :=
  joinpath (joinpath (parent (of_string file)) [pardir; pardir; pardir])
           ["build"; "config"; "mac"; "mac_sdk.gni"].

(** The state of the matcher after it has read the string [s]. *)
Fixpoint consume (s : string) (st : Re.state) : Re.state :=
  match s with
  | EmptyString => st
  | String c r =>
      consume r (Re.mkState (S (Re.pos st)) (Some c)
                            (match Re.rest st with
                             | String _ t => t
                             | EmptyString => EmptyString
                             end)
                            (Re.caps st))
  end.

Fixpoint all_chars (ok : ascii -> bool) (s : string) : bool :=
  match s with
  | EmptyString => true
  | String c r => ok c && all_chars ok r
  end.

(** The next character, if any, is not in the class. *)
Definition stops (ok : ascii -> bool) (t : string) : bool :=
  match t with
  | EmptyString => true
  | String c _ => negb (ok c)
  end.

(** An assignment of the deployment target as the pattern reads it: white
    space, the key, white space, the equals sign, white space, the quoted
    value, the end of the line. *)
Definition assignment (ws0 ws1 ws2 v : string) : string :=
  ws0 ++ "mac_deployment_target" ++ ws1 ++ "=" ++ ws2
  ++ String Re.dquote (v ++ String Re.dquote (String Re.newline EmptyString)).

(** What precedes the value in an assignment. *)
Definition key_prefix (ws0 ws1 ws2 : string) : string :=
  ws0 ++ "mac_deployment_target" ++ ws1 ++ "=" ++ ws2
  ++ String Re.dquote EmptyString.

(** * [tools/jj/util.py]

    The helpers that query the [jj] version-control tool.  The one call
    that leaves the process is [subprocess.run]; it is answered by an
    arbitrary handler, and [logging.debug] is recorded in the trace. *)

Module Jj.

(** The separators of the CSV-like output: the record separator and the
    unit separator of ASCII. *)
Definition _NEWLINE : ascii := ascii_of_nat 30.
Definition _COMMA : ascii := ascii_of_nat 31.

(** [subprocess.CompletedProcess]: [stdout] is [None] unless it was
    captured. *)
Record CompletedProcess : Type := mkCompleted {
  cp_args : list string;
  returncode : Z;
  stdout : option string
}.

Inductive event : Type :=
| EvDebug (format arg : string)                       (* logging.debug *)
| EvRun (args : list string) (kwargs : list (string * pyval))
        (reply : result CompletedProcess).            (* subprocess.run *)

(** How a call ends: with a value, with the [SystemExit] that [exit]
    raises, or with another exception. *)
Inductive outcome (A : Type) : Type :=
| Returned (a : A)
| Exited (code : Z)
| Raised (e : exn).
Arguments Exited {A} code.
Arguments Raised {A} e.

(** [subprocess.PIPE]. *)
Definition PIPE : pyval := VInt (-1).

(** *** Sorting the items of a dictionary *)

(** [a < b] on strings: by code point, a proper prefix is smaller. *)
Fixpoint str_lt (a b : string) : bool :=
  match a, b with
  | _, EmptyString => false
  | EmptyString, String _ _ => true
  | String x a', String y b' =>
      if Ascii.eqb x y then str_lt a' b'
      else (nat_of_ascii x <? nat_of_ascii y)%nat
  end.

(** [a < b] on pairs of strings: the first differing component decides. *)
Definition item_lt (a b : string * string) : bool :=
  if String.eqb (fst a) (fst b) then str_lt (snd a) (snd b)
  else str_lt (fst a) (fst b).

(** [x] goes before the first element that is not smaller than it. *)
Fixpoint insert (x : string * string) (l : list (string * string))
  : list (string * string) :=
  match l with
  | [] => [x]
  | y :: r => if item_lt y x then y :: insert x r else x :: y :: r
  end.

(** [sorted(items)]: the stable sort, by insertion from the right. *)
Fixpoint sorted (l : list (string * string)) : list (string * string) :=
  match l with
  | [] => []
  | x :: r => insert x (sorted r)
  end.

(** The unpacking of the transposed items into [fields] and [templates]:
    the keys and the values, and a failed unpacking when there is no
    item. *)
Definition unzip_items (items : list (string * string))
  : result (list string * list string) :=
  match items with
  | [] => Err (ValueError
                 [Lit "not enough values to unpack (expected 2, got 0)"])
  | _ :: _ => Ok (map fst items, map snd items)
  end.

(** *** The template and the parsing of the output *)

Definition quoted (c : ascii) : string :=
  String Re.dquote (String c (String Re.dquote EmptyString)).

(** The [jj] template: the templates of the fields joined by the unit
    separator, then the record separator. *)
Definition template_of (templates : list string) : string :=
  join (" ++ " ++ quoted _COMMA ++ " ++ ") templates
  ++ " ++ " ++ quoted _NEWLINE.

(** [s.rstrip(c)] for a one-character set. *)
Fixpoint rstrip_char (c : ascii) (s : string) : string :=
  match s with
  | EmptyString => EmptyString
  | String x r =>
      match rstrip_char c r with
      | EmptyString =>
          if Ascii.eqb x c then EmptyString else String x EmptyString
      | r' => String x r'
      end
  end.

(** The dictionary comprehension over [zip(fields, values)]: the shorter
    of the two decides, a repeated key keeps its first position and its
    last value. *)
Definition record_of (fields values : list string) : list (string * string) :=
  fold_left (fun d fv => dict_set d (fst fv) (snd fv))
            (combine fields values) [].

(** The list comprehension that ends [_log]. *)
Definition parse (fields : list string) (out : string)
  : list (list (string * string)) :=
  map (fun change => record_of fields (split _COMMA change))
      (split _NEWLINE (rstrip_char _NEWLINE out)).

Section Run.

Variable World : Type.
Variable subprocess_run :
  list string -> list (string * pyval) -> World
  -> result CompletedProcess * World.

(** [run_command(args, check, **kwargs)]: [check=False] is passed after
    the caller's keyword arguments, and a return code that is not zero
    ends the process with that code when [check] is set. *)
Definition run_command (args : list string) (check : bool)
  (kwargs : list (string * pyval)) (w : World)
  : outcome CompletedProcess * World * list event :=
  let debug := EvDebug "Running command %s" (join " " args) in
  let kw := (kwargs ++ [("check", VBool false)])%list in
  let (reply, w1) := subprocess_run args kw w in
  let tr := [debug; EvRun args kw reply] in
  match reply with
  | Err e => (Raised e, w1, tr)
  | Ok ps =>
      if check && negb (returncode ps =? 0)
      then (Exited (returncode ps), w1, tr)
      else (Returned ps, w1, tr)
  end.

(** [_log(args, templates, ignore_working_copy)]. *)
Definition _log (args : list string) (templates : list (string * string))
  (ignore_working_copy : bool) (w : World)
  : outcome (list (list (string * string))) * World * list event :=
  match unzip_items (sorted templates) with
  | Err e => (Raised e, w, [])
  | Ok (fields, templates) =>
      let template := template_of templates in
      let args :=
        if ignore_working_copy
        then (args ++ ["--ignore-working-copy"])%list else args in
      let '(r, w1, tr) :=
        run_command
          ("jj" :: args ++ ["--no-pager"; "--no-graph"; "-T"; template])%list
          true [("stdout", PIPE); ("text", VBool true)] w in
      match r with
      | Returned ps =>
          match stdout ps with
          | Some out => (Returned (parse fields out), w1, tr)
          | None =>
              (Raised (AttributeError
                         "'NoneType' object has no attribute 'rstrip'"),
               w1, tr)
          end
      | Exited code => (Exited code, w1, tr)
      | Raised e => (Raised e, w1, tr)
      end
  end.

(** [jj_log], whose arguments are keyword-only; [revisions] defaults to
    ['@'] and [ignore_working_copy] to [False]. *)
Definition jj_log (templates : list (string * string)) (revisions : string)
  (ignore_working_copy : bool) (w : World)
  : outcome (list (list (string * string))) * World * list event :=
  _log ["log"; "-r"; revisions] templates ignore_working_copy w.

End Run.

(** *** Notions used to state the properties *)

Definition answer {A W} (x : outcome A * W * list event) : outcome A :=
  fst (fst x).

Definition calls {A W} (x : outcome A * W * list event) : list event :=
  snd x.

(** The commands run, with their keyword arguments and what came back. *)
Definition runs (tr : list event)
  : list (list string * list (string * pyval) * result CompletedProcess) :=
  flat_map (fun e => match e with
                     | EvRun args kw reply => [(args, kw, reply)]
                     | EvDebug _ _ => []
                     end) tr.

(** The fields of a query, in the order of the records. *)
Definition fields_of (templates : list (string * string)) : list string :=
  map fst (sorted templates).

(** The command of [jj_log] and the keyword arguments [subprocess.run]
    gets. *)
Definition log_command (templates : list (string * string))
  (revisions : string) (ignore_working_copy : bool) : list string :=
  ("jj" :: "log" :: "-r" :: revisions
   :: (if ignore_working_copy then ["--ignore-working-copy"] else [])
   ++ ["--no-pager"; "--no-graph"; "-T";
       template_of (map snd (sorted templates))])%list.

Definition log_kwargs : list (string * pyval) :=
  [("stdout", PIPE); ("text", VBool true); ("check", VBool false)].

(** What [_log] makes of the reply of [subprocess.run]. *)
Definition verdict (fields : list string) (reply : result CompletedProcess)
  : outcome (list (list (string * string))) :=
  match reply with
  | Err e => Raised e
  | Ok ps =>
      if returncode ps =? 0 then
        match stdout ps with
        | Some out => Returned (parse fields out)
        | None => Raised (AttributeError
                            "'NoneType' object has no attribute 'rstrip'")
        end
      else Exited (returncode ps)
  end.

(** What [jj] prints for the template: per change the values of the
    fields, separated, and the record separator after each change. *)
Definition encode_row (values : list string) : string :=
  join (String _COMMA EmptyString) values.

Fixpoint encode (rows : list (list string)) : string :=
  match rows with
  | [] => EmptyString
  | row :: rest => encode_row row ++ String _NEWLINE (encode rest)
  end.

(** A value that holds neither separator. *)
Definition clean (v : string) : bool :=
  negb (has_char _NEWLINE v) && negb (has_char _COMMA v).

(** A sample tool that prints [out] and returns [code]. *)
Definition sample_run (out : string) (code : Z)
  (args : list string) (kw : list (string * pyval)) (w : unit)
  : result CompletedProcess * unit :=
  (Ok (mkCompleted args code (Some out)), tt).

End Jj.

(** * Properties *)

(** ** Decimal numerals *)









(** ** Splitting and joining *)

Lemma split_without sep s : has_char sep s = false -> split sep s = [s].
Proof.
  induction s as [|c r IH]; [reflexivity|].
  simpl. intro H. apply orb_false_elim in H as [Hc Hr].
  rewrite Hc, (IH Hr). reflexivity.
Qed.

Lemma split_at_first sep a r :
  has_char sep a = false ->
  split sep (a ++ String sep r) = a :: split sep r.
Proof.
  induction a as [|c a IH]; simpl.
  - intros _. now rewrite Ascii.eqb_refl.
  - intro H. apply orb_false_elim in H as [Hc Ha].
    rewrite Hc, (IH Ha). reflexivity.
Qed.

Lemma split_nonempty sep s : split sep s <> [].
Proof.
  destruct s as [|c r]; simpl; [discriminate|].
  destruct (Ascii.eqb c sep); [discriminate|].
  destruct (split sep r); discriminate.
Qed.



(** ** Versions *)

Lemma required_version : _REQUIRED_ACTOOL_VERSION = [26; 0].
Proof. reflexivity. Qed.

Lemma tuple_lt_spec a b : tuple_lt a b = true <-> version_lt a b.
Proof.
  split.
  - revert b. induction a as [|x a IH]; intros [|y b] H; simpl in H;
      try discriminate.
    + constructor.
    + destruct (Z.eqb_spec x y) as [->|Hne].
      * apply version_lt_tail. now apply IH.
      * apply version_lt_head. now apply Z.ltb_lt.
  - induction 1; simpl.
    + reflexivity.
    + destruct (Z.eqb_spec x y); [lia|]. now apply Z.ltb_lt.
    + now rewrite Z.eqb_refl.
Qed.




(** ** The version gate *)

(** C5.  The gate compares the reported version, as a tuple of integers,
    with the required minimum (26, 0): a smaller version fails with an
    [AssetCatalogException] whose message carries both the detected and the
    required version, any other version passes. *)
Theorem version_gate (World : Type)
  (h : forall R, call R -> World -> R * World) (w : World)
  (od entry : pyval) (v : string) (version : list Z) :
  loads_reply (trace h _verify_actool_version w) = Some od ->
  py_getitem od "com.apple.actool.version" = Ok entry ->
  py_getitem entry "short-bundle-version" = Ok (VStr v) ->
  _split_version v = Ok version ->
  _REQUIRED_ACTOOL_VERSION = [26; 0] /\
  (version_lt version [26; 0] ->
   outcome h _verify_actool_version w
   = Err (AssetCatalogException
            [Lit ("actool is too old; it is version "
                  ++ _unsplit_version version
                  ++ " but at least version 26.0 is required")])) /\
  (~ version_lt version [26; 0] ->
   outcome h _verify_actool_version w = Ok tt).
Proof.
  unfold trace, outcome, _verify_actool_version.
  cbn [run bind attempt lift].
  destruct (h _ (Check_output _) w) as [[out|e] w1];
    cbn [run bind lift fst snd]; [|discriminate].
  destruct (h _ (Plist_loads out) w1) as [[od'|e] w2];
    cbn [run bind lift fst snd log]; [|discriminate].
  intros Hl He Hs Hv.
  assert (od' = od) as ->.
  { destruct (run h _ w2) as [[? ?] ?]. cbn in Hl. congruence. }
  rewrite He. cbn [bind lift]. rewrite Hs. cbn [bind lift split_version_of].
  rewrite Hv. cbn [bind lift]. rewrite required_version.
  split; [reflexivity|].
  destruct (tuple_lt version [26; 0]) eqn:Hlt; cbn [run fst snd].
  - split; [reflexivity|]. intro Hn. exfalso. apply Hn.
    now apply tuple_lt_spec.
  - split; [|reflexivity]. intro Hn. apply tuple_lt_spec in Hn. congruence.
Qed.

Lemma version_gate_witness :
  outcome (sample_handle (mkSample (version_reply "27.0") 0 [] EmptyString))
          _verify_actool_version tt = Ok tt
  /\
  outcome (sample_handle (mkSample (version_reply "25.3") 0 [] EmptyString))
          _verify_actool_version tt
  = Err (AssetCatalogException
           [Lit "actool is too old; it is version 25.3 but at least version 26.0 is required"]).
Proof.
  split.
  - apply (version_gate
             (sample_handle (mkSample (version_reply "27.0") 0 [] EmptyString))
             tt (od := version_reply "27.0")
             (entry := VDict [("short-bundle-version", VStr "27.0")])
             (v := "27.0") (version := [27; 0]));
      try reflexivity.
    intro H. apply tuple_lt_spec in H. discriminate H.
  - apply (version_gate
             (sample_handle (mkSample (version_reply "25.3") 0 [] EmptyString))
             tt (od := version_reply "25.3")
             (entry := VDict [("short-bundle-version", VStr "25.3")])
             (v := "25.3") (version := [25; 3]));
      try reflexivity.
    apply tuple_lt_spec. reflexivity.
Defined.

(** ** Classification *)

Lemma dict_get_set {V} (d : list (string * V)) k v k' :
  dict_get (dict_set d k v) k'
  = if String.eqb k k' then Some v else dict_get d k'.
Proof.
  induction d as [|[x y] d IH]; simpl.
  - reflexivity.
  - destruct (String.eqb_spec x k) as [->|Hxk]; simpl.
    + destruct (String.eqb k k'); reflexivity.
    + rewrite IH. destruct (String.eqb_spec k k') as [Hkk|Hkk]; [|reflexivity].
      subst k'. destruct (String.eqb_spec x k); [contradiction|reflexivity].
Qed.

Lemma is_unexpected_spec w :
  is_unexpected w = true <-> warning_type w <> Some (VStr "Ambiguous Content").
Proof.
  unfold is_unexpected.
  destruct (warning_type w) as [[]|]; try (split; [discriminate|reflexivity]).
  destruct (String.eqb_spec s "Ambiguous Content") as [->|Hne]; simpl.
  - split; [discriminate|]. intro H. now contradiction H.
  - split; [|reflexivity]. intros _ E. apply Hne. congruence.
Qed.

(** The comprehension of the script keeps the unexpected warnings. *)
Lemma unexpected_warnings_typed l :
  typed_warnings (Some (VList l)) = true ->
  unexpected_warnings (VList l) = Ok (VList (filter is_unexpected l)).
Proof.
  unfold unexpected_warnings. cbn [py_iter rbind typed_warnings].
  intro H.
  assert (F : filter_result
                (fun warning =>
                   rbind (py_getitem warning "type")
                         (fun t => Ok (ne_str t "Ambiguous Content"))) l
              = Ok (filter is_unexpected l)).
  { induction l as [|w l IH]; [reflexivity|].
    cbn [forallb] in H. apply andb_prop in H as [Hw Hl].
    cbn [filter_result filter]. rewrite (IH Hl).
    unfold is_unexpected. destruct w; try discriminate Hw.
    cbn [warning_type py_getitem] in *.
    destruct (dict_get d "type") as [t|]; [|discriminate Hw].
    cbn [rbind]. destruct t; reflexivity. }
  rewrite F. reflexivity.
Qed.

Lemma well_formed_inv d :
  well_formed d = true ->
  is_array (dict_get d errors_key) = true /\
  is_array (dict_get d document_errors_key) = true /\
  is_array (dict_get d warnings_key) = true /\
  is_array (dict_get d document_warnings_key) = true /\
  is_array (dict_get d notices_key) = true /\
  is_array (dict_get d document_notices_key) = true /\
  typed_warnings (dict_get d document_warnings_key) = true.
Proof.
  unfold well_formed, collections. cbn [forallb fst].
  intro H.
  repeat match goal with
         | E : _ && _ = true |- _ => apply andb_prop in E as [? ?]
         end.
  repeat split; assumption.
Qed.

Lemma collect_plain d key fs reason :
  is_array (dict_get d key) = true ->
  collect_failures (VDict d) key fs reason None
  = Ok (match plain_reason d key reason with
        | [] => fs
        | (r, v) :: _ => dict_set fs r v
        end).
Proof.
  unfold collect_failures, plain_reason. cbn [py_get rbind].
  destruct (dict_get d key) as [[]|]; try discriminate.
  - intros _. destruct l; reflexivity.
  - reflexivity.
Qed.

Lemma collect_warnings d fs :
  is_array (dict_get d document_warnings_key) = true ->
  typed_warnings (dict_get d document_warnings_key) = true ->
  collect_failures (VDict d) document_warnings_key fs "document warnings"
                   (Some unexpected_warnings)
  = Ok (match warning_reason d with
        | [] => fs
        | (r, v) :: _ => dict_set fs r v
        end).
Proof.
  unfold collect_failures, warning_reason. cbn [py_get rbind].
  destruct (dict_get d document_warnings_key) as [[]|]; try discriminate.
  - intros _ Ht. rewrite (unexpected_warnings_typed _ Ht). cbn [rbind].
    destruct (filter is_unexpected l); reflexivity.
  - reflexivity.
Qed.

Lemma plain_reason_shape d key reason :
  plain_reason d key reason = []
  \/ exists v, plain_reason d key reason = [(reason, v)].
Proof.
  unfold plain_reason.
  destruct (dict_get d key) as [[]|]; auto.
  destruct l; eauto.
Qed.

Lemma warning_reason_shape d :
  warning_reason d = []
  \/ exists v, warning_reason d = [("document warnings", v)].
Proof.
  unfold warning_reason.
  destruct (dict_get d document_warnings_key) as [[]|]; auto.
  destruct (filter is_unexpected l); eauto.
Qed.

Ltac reason_shapes d :=
  destruct (plain_reason_shape d errors_key "errors") as [?E|[? ?E]];
  destruct (plain_reason_shape d document_errors_key "document errors")
    as [?E|[? ?E]];
  destruct (plain_reason_shape d warnings_key "warnings") as [?E|[? ?E]];
  destruct (warning_reason_shape d) as [?E|[? ?E]];
  destruct (plain_reason_shape d notices_key "notices") as [?E|[? ?E]];
  destruct (plain_reason_shape d document_notices_key "document notices")
    as [?E|[? ?E]];
  repeat match goal with
         | H : plain_reason _ _ _ = _ |- _ => rewrite H; clear H
         | H : warning_reason _ = _ |- _ => rewrite H; clear H
         end.

(** On a well-formed reply the script's dictionary of reasons is the list
    [reasons]. *)
Lemma gather_reasons d returncode :
  well_formed d = true ->
  gather_failures (VDict d) returncode = Ok (reasons d returncode).
Proof.
  intro H. apply well_formed_inv in H as (H1 & H2 & H3 & H4 & H5 & H6 & H7).
  unfold gather_failures, reasons.
  fold errors_key document_errors_key warnings_key document_warnings_key
       notices_key document_notices_key.
  rewrite (collect_plain d errors_key _ "errors" H1). cbn [rbind].
  rewrite (collect_plain d document_errors_key _ "document errors" H2).
  cbn [rbind].
  rewrite (collect_plain d warnings_key _ "warnings" H3). cbn [rbind].
  rewrite (collect_warnings d _ H4 H7). cbn [rbind].
  rewrite (collect_plain d notices_key _ "notices" H5). cbn [rbind].
  rewrite (collect_plain d document_notices_key _ "document notices" H6).
  reason_shapes d; destruct (returncode =? 0); reflexivity.
Qed.

(** The exception carries the reasons, with the standard error last. *)
Lemma classify_reasons d stderr returncode :
  well_formed d = true ->
  classify (VDict d) stderr returncode
  = match reasons d returncode with
    | [] => Ok tt
    | _ :: _ =>
        Err (AssetCatalogException
               [Lit "actool failed; ";
                Fmt (VDict (reasons d returncode
                            ++ [("stderr", VBytes stderr)]))])
    end.
Proof.
  intro H. unfold classify. rewrite (gather_reasons d returncode H).
  cbn [rbind]. unfold reasons.
  reason_shapes d; destruct (returncode =? 0); reflexivity.
Qed.

Lemma rbind_ext {A B} (r : result A) (f g : A -> result B) :
  (forall a, f a = g a) -> rbind r f = rbind r g.
Proof. intro H. destruct r; simpl; auto. Qed.

Lemma plain_reason_dec d key reason :
  (nonempty_at d key = true /\ exists v, plain_reason d key reason = [(reason, v)])
  \/ (nonempty_at d key = false /\ plain_reason d key reason = []).
Proof.
  unfold plain_reason, nonempty_at.
  destruct (dict_get d key) as [[]|]; auto.
  destruct l; eauto.
Qed.

Lemma warning_reason_dec d :
  (has_unexpected_warning d
   /\ exists v, warning_reason d = [("document warnings", v)])
  \/ (~ has_unexpected_warning d /\ warning_reason d = []).
Proof.
  unfold warning_reason, has_unexpected_warning.
  destruct (dict_get d document_warnings_key) as [v|];
    [|right; split; [intros (l & w & E & _); discriminate|reflexivity]].
  destruct v;
    try (right; split; [intros (l' & w & E & _); discriminate|reflexivity]).
  destruct (filter is_unexpected l) as [|x kept] eqn:F.
  - right. split; [|reflexivity].
    intros (l' & w & E & Hin & Hw). injection E as <-.
    apply is_unexpected_spec in Hw.
    assert (In w (filter is_unexpected l)) by (apply filter_In; auto).
    rewrite F in H. contradiction.
  - left. split; [|eauto].
    assert (Hx : In x (filter is_unexpected l)) by (rewrite F; now left).
    apply filter_In in Hx as [Hin Hx].
    exists l, x. repeat split; auto. now apply is_unexpected_spec.
Qed.

Lemma collect_absent_as_empty d key key' fs reason f :
  dict_get d key = None ->
  f = None \/ f = Some unexpected_warnings ->
  collect_failures (VDict (dict_set d key (VList []))) key' fs reason f
  = collect_failures (VDict d) key' fs reason f.
Proof.
  intros Habs Hf. unfold collect_failures. cbn [py_get rbind].
  rewrite dict_get_set.
  destruct (String.eqb_spec key key') as [<-|_]; [|reflexivity].
  rewrite Habs. destruct Hf as [-> | ->]; reflexivity.
Qed.

(** C1.  On every InvocationResult, classification fails exactly when the
    return code is not zero, or one of the errors, document errors,
    warnings, notices and document notices is present and not empty, or
    some document warning has a type other than ['Ambiguous Content'].  A
    collection that is absent is classified as an empty one and adds no
    reason. *)
Theorem classification_fails_iff (d : list (string * pyval))
  (stderr : bytes) (returncode : Z) :
  well_formed d = true ->
  (is_err (classify (VDict d) stderr returncode) = true <->
   returncode <> 0
   \/ nonempty_at d errors_key = true
   \/ nonempty_at d document_errors_key = true
   \/ nonempty_at d warnings_key = true
   \/ nonempty_at d notices_key = true
   \/ nonempty_at d document_notices_key = true
   \/ has_unexpected_warning d)
  /\
  (forall key reason,
     In (key, reason) collections -> dict_get d key = None ->
     classify (VDict (dict_set d key (VList []))) stderr returncode
     = classify (VDict d) stderr returncode
     /\ forall fs, gather_failures (VDict d) returncode = Ok fs ->
                   dict_get fs reason = None).
Proof.
  intro Hwf. split.
  - rewrite (classify_reasons d stderr returncode Hwf). unfold reasons.
    destruct (plain_reason_dec d errors_key "errors") as [[N1 [v1 E1]]|[N1 E1]];
    destruct (plain_reason_dec d document_errors_key "document errors")
      as [[N2 [v2 E2]]|[N2 E2]];
    destruct (plain_reason_dec d warnings_key "warnings")
      as [[N3 [v3 E3]]|[N3 E3]];
    destruct (warning_reason_dec d) as [[N4 [v4 E4]]|[N4 E4]];
    destruct (plain_reason_dec d notices_key "notices")
      as [[N5 [v5 E5]]|[N5 E5]];
    destruct (plain_reason_dec d document_notices_key "document notices")
      as [[N6 [v6 E6]]|[N6 E6]];
    rewrite E1, E2, E3, E4, E5, E6, N1, N2, N3, N5, N6;
    destruct (Z.eqb_spec returncode 0) as [Hz|Hz]; cbn [app is_err];
    (split; [intro H; try discriminate H; tauto|]);
    try reflexivity;
    intros [H|[H|[H|[H|[H|[H|H]]]]]];
    first [contradiction | discriminate H].
  - intros key reason Hin Habs. split.
    + unfold classify. f_equal. unfold gather_failures.
      rewrite (collect_absent_as_empty d key) by auto.
      repeat (apply rbind_ext; intro;
              rewrite (collect_absent_as_empty d key) by auto).
      reflexivity.
    + intros fs Hfs. rewrite (gather_reasons d returncode Hwf) in Hfs.
      injection Hfs as <-. unfold reasons.
      unfold collections in Hin. cbn [In] in Hin.
      destruct Hin as [E|[E|[E|[E|[E|[E|[]]]]]]]; injection E as <- <-;
        match goal with
        | |- context [plain_reason d ?k ?r] =>
            match type of Habs with
            | dict_get d k = None =>
                replace (plain_reason d k r) with (@nil (string * pyval))
                  by (unfold plain_reason; now rewrite Habs)
            end
        | |- _ =>
            replace (warning_reason d) with (@nil (string * pyval))
              by (unfold warning_reason; now rewrite Habs)
        end;
        reason_shapes d; destruct (returncode =? 0); reflexivity.
Qed.

Lemma classification_fails_iff_witness :
  is_err (classify
            (VDict [(notices_key,
                     VList [VDict [("description", VStr "missing image")]])])
            [] 0) = true.
Proof.
  apply (classification_fails_iff
           [(notices_key,
             VList [VDict [("description", VStr "missing image")]])]
           [] 0); [reflexivity|].
  right; right; right; right; left. reflexivity.
Defined.

(** C4.  When classification fails, the exception raised carries the
    dictionary of all the reasons that apply (return code, errors, document
    errors, warnings, filtered document warnings, notices, document
    notices), not only the first, and the captured standard error is
    attached to it under ['stderr']. *)
Theorem failure_report_complete (d : list (string * pyval))
  (stderr : bytes) (returncode : Z) (e : exn) :
  well_formed d = true ->
  classify (VDict d) stderr returncode = Err e ->
  e = AssetCatalogException
        [Lit "actool failed; ";
         Fmt (VDict (reasons d returncode ++ [("stderr", VBytes stderr)]))].
Proof.
  intros Hwf H. rewrite (classify_reasons d stderr returncode Hwf) in H.
  destruct (reasons d returncode); [discriminate|]. now injection H as <-.
Qed.

Lemma failure_report_complete_witness :
  let d := [(errors_key, VList [VStr "no such image"]);
            (warnings_key, VList []);
            (document_warnings_key,
             VList [VDict [("type", VStr "Ambiguous Content")];
                    VDict [("type", VStr "Unassigned Child")]]);
            (notices_key, VList [VStr "missing file"])] in
  classify (VDict d) [] 1
  = Err (AssetCatalogException
           [Lit "actool failed; ";
            Fmt (VDict [("return code", VStr "1");
                        ("errors", VList [VStr "no such image"]);
                        ("document warnings",
                         VList [VDict [("type", VStr "Unassigned Child")]]);
                        ("notices", VList [VStr "missing file"]);
                        ("stderr", VBytes [])])]).
Proof.
  intro d.
  destruct (classify (VDict d) [] 1) as [u|e] eqn:E;
    [discriminate E|].
  now rewrite (@failure_report_complete d [] 1 e eq_refl E).
Defined.

(** ** Runs *)

Section RunFacts.
Variable World : Type.
Variable h : forall R, call R -> World -> R * World.

Lemma run_bind {A B} (p : prog A) (f : A -> prog B) (w : World) :
  run h (bind p f) w
  = let '(r, w1, tr) := run h p w in
    match r with
    | Ok a => let '(r2, w2, tr2) := run h (f a) w1 in (r2, w2, (tr ++ tr2)%list)
    | Err e => (Err e, w1, tr)
    end.
Proof.
  revert w. induction p as [a|e|R c k IH]; intro w; cbn [bind run].
  - destruct (run h (f a) w) as [[r2 w2] tr2]. reflexivity.
  - reflexivity.
  - destruct (h c w) as [r w1]. rewrite IH.
    destruct (run h (k r) w1) as [[[a|e] w2] tr]; [|reflexivity].
    destruct (run h (f a) w2) as [[r2 w3] tr2]. reflexivity.
Qed.

Lemma run_finally {A} (p : prog A) (f : prog unit) (w : World) :
  run h (finally p f) w
  = let '(r, w1, tr) := run h p w in
    let '(rf, w2, trf) := run h f w1 in
    (match rf with Ok _ => r | Err e => Err e end, w2, (tr ++ trf)%list).
Proof.
  revert w. induction p as [a|e|R c k IH]; intro w; cbn [finally run].
  - rewrite run_bind. destruct (run h f w) as [[[u|e] w2] trf];
      cbn [run app]; [rewrite List.app_nil_r|]; reflexivity.
  - rewrite run_bind. destruct (run h f w) as [[[u|e'] w2] trf];
      cbn [run app]; [rewrite List.app_nil_r|]; reflexivity.
  - destruct (h c w) as [r w1]. rewrite IH.
    destruct (run h (k r) w1) as [[r1 w2] tr].
    destruct (run h f w2) as [[rf w3] trf]. reflexivity.
Qed.

Lemma run_lift {A} (r : result A) (w : World) :
  run h (lift r) w = (r, w, []).
Proof. destruct r; reflexivity. Qed.

Lemma copies_app (a b : list event) :
  copies (a ++ b) = (copies a ++ copies b)%list.
Proof. unfold copies. apply flat_map_app. Qed.

(** *** The loop over the output files *)

Section Loop.
Variables (source_dir : Path) (name_tag : string) (verbose : bool).

Lemma result_unit_cases (r : result unit) :
  r = Ok tt \/ exists e, r = Err e.
Proof. destruct r as [[]|e]; eauto. Qed.

Lemma copies_ok_app (a b : list event) :
  copies_ok (a ++ b) = copies_ok a && copies_ok b.
Proof. unfold copies_ok. rewrite copies_app. apply forallb_app. Qed.

Lemma place_output_run (file : string) (w : World) :
  forall res w' tr,
    run h (place_output source_dir name_tag verbose (VStr file)) w
    = (res, w', tr) ->
    only_copies tr /\
    (recognised file = false ->
     res = Err (AssetCatalogException
                  [Lit ("Unexpected output file: "
                        ++ to_string (of_string file))])
     /\ tr = []) /\
    (recognised file = true ->
     map fst (copies tr) = routed source_dir name_tag file
     /\ (res = Ok tt <-> copies_ok tr = true)).
Proof.
  intros res w' tr.
  unfold place_output, routed, recognised.
  cbn [path_of_value lift bind].
  destruct (String.eqb (name (of_string file)) "partial.plist") eqn:E1.
  { cbn [run]. intro H. injection H as <- <- <-.
    assert (E2 : String.eqb (name (of_string file)) "AppIcon.icns" = false).
    { apply String.eqb_eq in E1. rewrite E1. reflexivity. }
    assert (E3 : String.eqb (name (of_string file)) "Assets.car" = false).
    { apply String.eqb_eq in E1. rewrite E1. reflexivity. }
    rewrite E2, E3. cbn [orb]. split; [intros e []|].
    split; [discriminate|]. intros _. split; [reflexivity|].
    split; reflexivity. }
  destruct (String.eqb (name (of_string file)) "AppIcon.icns") eqn:E2.
  { destruct verbose; cbn [bind print attempt run log];
      repeat match goal with
             | |- context [h ?c ?x] => destruct (h c x) as [? ?]
             end;
      rewrite run_lift; intro H; injection H as <- <- <-;
      (split; [intros e [<-|[<-|[]]] || intros e [<-|[]]; exact I|]);
      (split; [discriminate|]); intros _; (split; [reflexivity|]);
      match goal with
      | |- context [Ok tt = Ok tt] => idtac
      | r : result unit |- _ =>
          destruct (result_unit_cases r) as [->|[? ->]]
      end;
      split; (reflexivity || discriminate). }
  destruct (String.eqb (name (of_string file)) "Assets.car") eqn:E3.
  { destruct verbose; cbn [bind print attempt run log];
      repeat match goal with
             | |- context [h ?c ?x] => destruct (h c x) as [? ?]
             end;
      rewrite run_lift; intro H; injection H as <- <- <-;
      (split; [intros e [<-|[<-|[]]] || intros e [<-|[]]; exact I|]);
      (split; [discriminate|]); intros _; (split; [reflexivity|]);
      match goal with
      | |- context [Ok tt = Ok tt] => idtac
      | r : result unit |- _ =>
          destruct (result_unit_cases r) as [->|[? ->]]
      end;
      split; (reflexivity || discriminate). }
  cbn [run orb]. intro H. injection H as <- <- <-.
  split; [intros e []|]. split; [|discriminate].
  intros _. split; reflexivity.
Qed.

Lemma only_copies_app (a b : list event) :
  only_copies a -> only_copies b -> only_copies (a ++ b).
Proof.
  intros Ha Hb e Hin. apply in_app_or in Hin as [Hin|Hin];
    [now apply Ha|now apply Hb].
Qed.

(** The loop makes the routed copies in the order of the list, stops at
    the first unrecognised name or failed copy, and succeeds when there is
    neither. *)
Lemma place_outputs_run (files : list string) :
  forall w res w' tr,
    run h (for_each (map VStr files)
                    (place_output source_dir name_tag verbose)) w
    = (res, w', tr) ->
    only_copies tr /\
    (exists rest,
        flat_map (routed source_dir name_tag) files
        = (map fst (copies tr) ++ rest)%list) /\
    (res = Ok tt <-> forallb recognised files = true /\ copies_ok tr = true)
    /\ (res = Ok tt ->
        map fst (copies tr) = flat_map (routed source_dir name_tag) files).
Proof.
  induction files as [|f files IH]; intros w res w' tr.
  - cbn [map for_each run]. intro H. injection H as <- <- <-.
    split; [intros e []|]. split; [exists []; reflexivity|].
    split; [|reflexivity]. split; auto.
  - cbn [map for_each]. rewrite run_bind.
    destruct (run h (place_output source_dir name_tag verbose (VStr f)) w)
      as [[r1 w1] tr1] eqn:R1.
    apply place_output_run in R1 as (O1 & U1 & K1).
    cbn [flat_map forallb].
    destruct (recognised f) eqn:Rf.
    + destruct (K1 eq_refl) as [C1 I1]. clear U1 K1.
      destruct (result_unit_cases r1) as [->|[e ->]].
      * destruct (run h (for_each (map VStr files)
                           (place_output source_dir name_tag verbose)) w1)
          as [[r2 w2] tr2] eqn:R2.
        apply IH in R2 as (O2 & (rest & P2) & I2 & E2).
        intro H. injection H as <- <- <-.
        split; [now apply only_copies_app|].
        rewrite copies_app, map_app, copies_ok_app, C1.
        split; [exists rest; now rewrite P2, <- List.app_assoc|].
        assert (T1 : copies_ok tr1 = true) by now apply I1.
        rewrite T1. cbn [andb].
        split; [exact I2|]. intro Hr. now rewrite (E2 Hr).
      * intro H. injection H as <- <- <-.
        split; [exact O1|]. rewrite C1.
        split; [eexists; reflexivity|].
        split; [|discriminate]. split; [discriminate|].
        intros [_ Hc]. apply I1 in Hc. discriminate.
    + destruct (U1 eq_refl) as [-> ->]. intro H. injection H as <- <- <-.
      split; [intros e []|]. cbn [copies flat_map map app].
      split; [eexists; reflexivity|].
      split; [|discriminate]. split; [discriminate|].
      intros [Hc _]. discriminate.
Qed.

Lemma place_any_run (v : pyval) (w : World) :
  forall res w' tr,
    run h (place_output source_dir name_tag verbose v) w = (res, w', tr) ->
    Forall (to_destination source_dir name_tag) (copies tr)
    /\ only_copies tr.
Proof.
  intros res w' tr H.
  destruct v;
    try (cbn in H; injection H as <- <- <-;
         split; [constructor|intros e []]).
  pose proof H as H'. apply place_output_run in H' as (O & U & K).
  split; [|exact O].
  destruct (recognised s) eqn:Rs.
  - destruct (K eq_refl) as [C _]. clear U K H.
    unfold routed in C. apply Forall_forall. intros [[src dst] r] Hin.
    assert (Hp : In (src, dst) (map fst (copies tr)))
      by (apply in_map_iff; exists (src, dst, r); auto).
    rewrite C in Hp. unfold to_destination. cbn [fst snd].
    destruct (String.eqb (name (of_string s)) "AppIcon.icns") eqn:E1.
    { destruct Hp as [Hp|[]]. injection Hp as <- <-.
      left. split; [now apply String.eqb_eq|reflexivity]. }
    destruct (String.eqb (name (of_string s)) "Assets.car") eqn:E2.
    { destruct Hp as [Hp|[]]. injection Hp as <- <-.
      right. split; [now apply String.eqb_eq|reflexivity]. }
    destruct Hp.
  - destruct (U eq_refl) as [_ ->]. constructor.
Qed.

Lemma place_all_run (items : list pyval) :
  forall w res w' tr,
    run h (for_each items (place_output source_dir name_tag verbose)) w
    = (res, w', tr) ->
    Forall (to_destination source_dir name_tag) (copies tr)
    /\ only_copies tr.
Proof.
  induction items as [|v items IH]; intros w res w' tr.
  - cbn [for_each run]. intro H. injection H as <- <- <-.
    split; [constructor|intros e []].
  - cbn [for_each]. rewrite run_bind.
    destruct (run h (place_output source_dir name_tag verbose v) w)
      as [[r1 w1] tr1] eqn:R1.
    apply place_any_run in R1 as [D1 O1].
    destruct r1 as [u|e].
    + destruct (run h (for_each items
                         (place_output source_dir name_tag verbose)) w1)
        as [[r2 w2] tr2] eqn:R2.
      apply IH in R2 as [D2 O2]. intro H. injection H as <- <- <-.
      rewrite copies_app. split; [|now apply only_copies_app].
      apply Forall_app. split; assumption.
    + intro H. injection H as <- <- <-. split; assumption.
Qed.

(** *** Relocation *)

Lemma relocate_run (od : pyval) (w : World) :
  forall res w' tr,
    run h (relocate od source_dir name_tag verbose) w = (res, w', tr) ->
    Forall (to_destination source_dir name_tag) (copies tr)
    /\ only_copies tr.
Proof.
  intros res w' tr. unfold relocate.
  assert (Q : forall (r : result unit) x,
             (r, w, @nil event) = (res, w', tr) ->
             x = tr ->
             Forall (to_destination source_dir name_tag) (copies x)
             /\ only_copies x).
  { intros r x H ->. injection H as _ _ <-.
    split; [constructor|intros e []]. }
  destruct (py_get od "com.apple.actool.compilation-results")
    as [[cr|]|e]; cbn [lift bind run]; try (intro H; now apply (Q _ tr H)).
  destruct (py_get cr "output-files") as [[ofs|]|e];
    cbn [lift bind run]; try (intro H; now apply (Q _ tr H)).
  destruct (py_len ofs) as [n|e];
    cbn [lift bind run]; try (intro H; now apply (Q _ tr H)).
  destruct (negb (n =? 3)%nat);
    cbn [lift bind run]; try (intro H; now apply (Q _ tr H)).
  destruct (py_iter ofs) as [items|e];
    cbn [lift bind run]; try (intro H; now apply (Q _ tr H)).
  apply place_all_run.
Qed.

(** With a list of file names reported, relocation is the count check
    followed by the loop. *)
Lemma relocate_files (od cr : pyval) (files : list string) :
  py_get od "com.apple.actool.compilation-results" = Ok (Some cr) ->
  py_get cr "output-files" = Ok (Some (VList (map VStr files))) ->
  relocate od source_dir name_tag verbose
  = if (List.length files =? 3)%nat
    then for_each (map VStr files)
                  (place_output source_dir name_tag verbose)
    else Raise (AssetCatalogException
                  [Lit ("expected actool to output 3 files, but it "
                        ++ "instead output "
                        ++ py_str_int (Z.of_nat (List.length files))
                        ++ " files, namely ");
                   Fmt (VList (map VStr files))]).
Proof.
  intros H1 H2. unfold relocate. rewrite H1. cbn [lift bind].
  rewrite H2. cbn [lift bind py_len py_iter]. rewrite length_map.
  destruct (List.length files =? 3)%nat; reflexivity.
Qed.
End Loop.

Lemma only_copies_quiet (tr : list event) :
  only_copies tr ->
  popen_reply tr = None /\ loads_reply tr = None /\ cleanup_ok tr = true.
Proof.
  induction tr as [|e tr IH]; intro H; [repeat split|].
  assert (He := H e (or_introl eq_refl)).
  destruct IH as (P & L & C); [intros x Hx; apply H; now right|].
  unfold popen_reply, loads_reply, cleanup_ok in *.
  destruct e; try contradiction; cbn [flat_map app forallb andb];
    repeat split; assumption.
Qed.

Lemma popen_reply_app (a b : list event) :
  popen_reply (a ++ b)
  = match popen_reply a with Some r => Some r | None => popen_reply b end.
Proof.
  unfold popen_reply. rewrite flat_map_app.
  destruct (flat_map _ a); reflexivity.
Qed.

Lemma loads_reply_app (a b : list event) :
  loads_reply (a ++ b)
  = match loads_reply a with Some r => Some r | None => loads_reply b end.
Proof.
  unfold loads_reply. rewrite flat_map_app.
  destruct (flat_map _ a); reflexivity.
Qed.

Lemma cleanup_ok_app (a b : list event) :
  cleanup_ok (a ++ b) = cleanup_ok a && cleanup_ok b.
Proof. apply forallb_app. Qed.

(** *** The body of the [with] block *)

Lemma in_tmp_dir_run path mdt verbose tmp w :
  forall res w' tr,
    run h (in_tmp_dir path mdt verbose tmp) w = (res, w', tr) ->
    (invocation_result tr = None /\ is_err res = true /\ copies tr = []
     /\ cleanup_ok tr = true)
    \/ exists od err rc tag pre w3 tr3,
        invocation_result tr = Some (od, err, rc)
        /\ String.eqb (suffix path) ".xcassets" = true
        /\ name_tag_of (stem path) = Ok tag
        /\ tr = (pre ++ tr3)%list /\ copies pre = []
        /\ cleanup_ok pre = true
        /\ run h (lift (classify od err rc) ;;
                  relocate od (joinpath path [pardir]) tag verbose) w3
           = (res, w', tr3).
Proof.
  intros res w' tr. unfold in_tmp_dir.
  destruct (String.eqb (suffix path) ".xcassets") eqn:Es; cbn [negb];
    [|cbn [run]; intro H; injection H as <- <- <-; left; repeat split].
  destruct (name_tag_of (stem path)) as [tag|e] eqn:Et; cbn [lift bind];
    [|cbn [run]; intro H; injection H as <- <- <-; left; repeat split].
  cbn [attempt bind run].
  destruct (h (Copytree _ _) w) as [[u|e] w1]; cbn [lift bind log];
    [|cbn [run]; intro H; injection H as <- <- <-; left; repeat split].
  destruct verbose; cbn [print bind run attempt lift log];
    repeat match goal with
           | |- context [h (Print ?l) ?x] => destruct (h (Print l) x) as [? ?]
           end;
    match goal with
    | |- context [h (Popen ?c) ?x] =>
        destruct (h (Popen c) x) as [[[[out err] rc]|e] w2]
    end;
    cbn [lift bind run log];
    try (intro H; injection H as <- <- <-; left; repeat split);
    match goal with
    | |- context [h (Plist_loads ?c) ?x] =>
        destruct (h (Plist_loads c) x) as [[od|e] w3]
    end;
    cbn [lift bind run log];
    try (intro H; injection H as <- <- <-; left; repeat split);
    match goal with
    | |- context [run h ?p ?x] =>
        destruct (run h p x) as [[r3 w4] tr3] eqn:R3
    end;
    intro H; injection H as <- <- <-; right.
  - eexists _, _, _, tag, [_; _; _; _], _, tr3. repeat split. exact R3.
  - eexists _, _, _, tag, [_; _; _], _, tr3. repeat split. exact R3.
Qed.

(** *** The whole of [_process_path] *)

Lemma after_classify_run od err rc source_dir tag verbose w :
  forall res w' tr,
    run h (lift (classify od err rc) ;;
           relocate od source_dir tag verbose) w = (res, w', tr) ->
    (forall e, classify od err rc = Err e -> res = Err e /\ tr = [])
    /\ (classify od err rc = Ok tt ->
        run h (relocate od source_dir tag verbose) w = (res, w', tr))
    /\ only_copies tr
    /\ Forall (to_destination source_dir tag) (copies tr).
Proof.
  intros res w' tr. destruct (classify od err rc) as [[]|e]; cbn [lift bind].
  - intro H. split; [discriminate|]. split; [auto|].
    apply relocate_run in H as [D O]. split; assumption.
  - cbn [run]. intro H. injection H as <- <- <-.
    split; [intros e' E; injection E as <-; split; reflexivity|].
    split; [discriminate|]. split; [intros x []|constructor].
Qed.

Lemma invocation_result_frame r0 tmp rcl (tr : list event) :
  invocation_result (EvTemporaryDirectory r0 :: tr ++ [EvCleanup tmp rcl])
  = invocation_result tr.
Proof.
  unfold invocation_result.
  change (EvTemporaryDirectory r0 :: tr ++ [EvCleanup tmp rcl])%list
    with ([EvTemporaryDirectory r0] ++ tr ++ [EvCleanup tmp rcl])%list.
  rewrite !popen_reply_app, !loads_reply_app.
  change (popen_reply [EvTemporaryDirectory r0]) with (@None (bytes * bytes * Z)).
  change (popen_reply [EvCleanup tmp rcl]) with (@None (bytes * bytes * Z)).
  change (loads_reply [EvTemporaryDirectory r0]) with (@None pyval).
  change (loads_reply [EvCleanup tmp rcl]) with (@None pyval).
  destruct (popen_reply tr) as [[[? ?] ?]|]; destruct (loads_reply tr);
    reflexivity.
Qed.

Lemma process_path_run path mdt verbose w :
  forall res w' tr,
    run h (_process_path path mdt verbose) w = (res, w', tr) ->
    (invocation_result tr = None /\ is_err res = true /\ copies tr = [])
    \/ exists od err rc tag pre w3 res3 w4 tr3 tmp rcl,
        invocation_result tr = Some (od, err, rc)
        /\ String.eqb (suffix path) ".xcassets" = true
        /\ name_tag_of (stem path) = Ok tag
        /\ tr = (pre ++ tr3 ++ [EvCleanup tmp rcl])%list
        /\ copies pre = []
        /\ run h (lift (classify od err rc) ;;
                  relocate od (joinpath path [pardir]) tag verbose) w3
           = (res3, w4, tr3)
        /\ res = match rcl with Ok _ => res3 | Err e => Err e end
        /\ cleanup_ok tr = negb (is_err rcl).
Proof.
  intros res w' tr. unfold _process_path, with_TemporaryDirectory.
  cbn [attempt bind run].
  destruct (h TemporaryDirectory w) as [[tmp|e] w0]; cbn [lift bind log run];
    [|intro H; injection H as <- <- <-; left; repeat split].
  rewrite run_finally.
  destruct (run h (in_tmp_dir path mdt verbose tmp) w0)
    as [[r1 w1] tr1] eqn:R1.
  cbn [attempt run].
  destruct (h (Cleanup tmp) w1) as [rcl w2]. rewrite run_lift. cbn [log].
  intro H. injection H as <- <- <-.
  rewrite invocation_result_frame.
  apply in_tmp_dir_run in R1
    as [(I & E & C & K)
       |(od & err & rc & tag & pre & w3 & tr3 & I & S & T & -> & C & K & R)].
  - left. split; [exact I|]. split.
    + destruct rcl; [exact E|reflexivity].
    + change (EvTemporaryDirectory (Ok tmp) :: (tr1 ++ [EvCleanup tmp rcl]))%list
        with ([EvTemporaryDirectory (Ok tmp)] ++ tr1 ++ [EvCleanup tmp rcl])%list.
      rewrite !copies_app, C. reflexivity.
  - right.
    exists od, err, rc, tag, (EvTemporaryDirectory (Ok tmp) :: pre), w3,
           r1, w1, tr3, tmp, rcl.
    split; [exact I|]. split; [exact S|]. split; [exact T|].
    split; [cbn [app]; now rewrite <- List.app_assoc|].
    split; [exact C|]. split; [exact R|]. split; [reflexivity|].
    apply after_classify_run in R as (_ & _ & O & _).
    apply only_copies_quiet in O as (_ & _ & O).
    change (EvTemporaryDirectory (Ok tmp) :: ((pre ++ tr3) ++ [EvCleanup tmp rcl]))%list
      with ([EvTemporaryDirectory (Ok tmp)] ++ (pre ++ tr3) ++ [EvCleanup tmp rcl])%list.
    rewrite !cleanup_ok_app, K, O. destruct rcl; reflexivity.
Qed.
End RunFacts.

(** ** Properties of [_process_path] *)

Lemma run_parts (World : Type) (h : forall R, call R -> World -> R * World)
  {A} (p : prog A) (w : World) :
  run h p w = (outcome h p w, snd (fst (run h p w)), trace h p w).
Proof. unfold outcome, trace. now destruct (run h p w) as [[? ?] ?]. Qed.

(** C3.  When classification fails on the InvocationResult of a run,
    [_process_path] raises and no destination file has been copied: the
    trace of the run holds no [shutil.copyfile].  The exception is the one
    of the classification unless removing the temporary directory raised. *)
Theorem no_copy_on_classification_failure (World : Type)
  (h : forall R, call R -> World -> R * World) (w : World)
  (path : Path) (min_deployment_target : string) (verbose : bool)
  (od : pyval) (stderr : bytes) (returncode : Z) :
  let p := _process_path path min_deployment_target verbose in
  invocation_result (trace h p w) = Some (od, stderr, returncode) ->
  is_err (classify od stderr returncode) = true ->
  is_err (outcome h p w) = true
  /\ copies (trace h p w) = []
  /\ (cleanup_ok (trace h p w) = true ->
      outcome h p w = classify od stderr returncode).
Proof.
  intros p Hinv Hc.
  destruct (process_path_run h path min_deployment_target verbose w
              (run_parts h p w))
    as [(I & _)
       |(od' & err' & rc' & tag & pre & w3 & r3 & w4 & tr3 & tmp & rcl
         & I & _ & _ & T & C & R & E & K)].
  - fold p in I. congruence.
  - fold p in I, T, E, K. rewrite I in Hinv. injection Hinv as -> -> ->.
    apply after_classify_run in R as (F & _).
    destruct (classify od stderr returncode) as [u|e] eqn:Ec;
      [discriminate|].
    destruct (F e eq_refl) as [-> ->]. rewrite E, K, T.
    rewrite !copies_app, C.
    split; [now destruct rcl|]. split; [reflexivity|].
    destruct rcl; [reflexivity|discriminate].
Qed.

Lemma no_copy_on_classification_failure_witness :
  let s := mkSample
             (VDict [(notices_key,
                      VList [VDict [("description", VStr "missing image")]])])
             0 [] EmptyString in
  let p := _process_path (of_string "chrome/app/Foo.xcassets") "11.0" false in
  is_err (outcome (sample_handle s) p tt) = true
  /\ copies (trace (sample_handle s) p tt) = [].
Proof.
  intros s p.
  destruct (no_copy_on_classification_failure (sample_handle s) tt
              (of_string "chrome/app/Foo.xcassets") "11.0" false
              (od := sample_plist s) (stderr := []) (returncode := 0))
    as (H1 & H2 & _); [reflexivity|reflexivity|].
  split; assumption.
Defined.

(** C10.  The count check and the name check do not ask for each expected
    name once: when the compiler answers with return code 0, no diagnostics
    and three output files all named [partial.plist], [_process_path]
    completes without raising and copies no destination file. *)
Theorem three_plists_succeed (World : Type)
  (h : forall R, call R -> World -> R * World) (w : World)
  (path : Path) (min_deployment_target : string) (verbose : bool)
  (f1 f2 f3 : string) (stderr : bytes) :
  let p := _process_path path min_deployment_target verbose in
  name (of_string f1) = "partial.plist" ->
  name (of_string f2) = "partial.plist" ->
  name (of_string f3) = "partial.plist" ->
  invocation_result (trace h p w) = Some (clean_reply [f1; f2; f3], stderr, 0) ->
  cleanup_ok (trace h p w) = true ->
  classify (clean_reply [f1; f2; f3]) stderr 0 = Ok tt
  /\ outcome h p w = Ok tt
  /\ copies (trace h p w) = [].
Proof.
  intros p N1 N2 N3 Hinv Hk.
  split; [reflexivity|].
  destruct (process_path_run h path min_deployment_target verbose w
              (run_parts h p w))
    as [(I & _)
       |(od' & err' & rc' & tag & pre & w3 & r3 & w4 & tr3 & tmp & rcl
         & I & _ & _ & T & C & R & E & K)].
  - fold p in I. congruence.
  - fold p in I, T, E, K. rewrite I in Hinv. injection Hinv as -> -> ->.
    apply after_classify_run in R as (_ & F & _).
    specialize (F eq_refl).
    unfold relocate, clean_reply in F. cbn [py_get dict_get String.eqb
      Ascii.eqb Bool.eqb lift bind py_len List.length map Nat.eqb negb
      py_iter for_each] in F.
    unfold place_output in F. cbn [path_of_value lift bind] in F.
    rewrite N1, N2, N3 in F. cbn [String.eqb Ascii.eqb Bool.eqb bind run] in F.
    injection F as <- <- <-.
    rewrite K in Hk. rewrite E, T, !copies_app, C.
    destruct rcl; [split; reflexivity|discriminate].
Qed.

Lemma three_plists_succeed_witness :
  let files := ["/tmp/car/partial.plist"; "/tmp/car/partial.plist";
                "/tmp/car/partial.plist"] in
  let s := mkSample (clean_reply files) 0 [] EmptyString in
  let p := _process_path (of_string "chrome/app/Foo.xcassets") "11.0" false in
  outcome (sample_handle s) p tt = Ok tt
  /\ copies (trace (sample_handle s) p tt) = [].
Proof.
  intros files s p.
  destruct (three_plists_succeed (sample_handle s) tt
              (of_string "chrome/app/Foo.xcassets") "11.0" false
              (f1 := "/tmp/car/partial.plist")
              (f2 := "/tmp/car/partial.plist")
              (f3 := "/tmp/car/partial.plist") (stderr := []))
    as (_ & H1 & H2); try reflexivity.
  split; assumption.
Defined.

(** C2.  When classification passes, the list of output files must have
    exactly three entries or [_process_path] raises; with three, each entry
    is routed by the name of its last component: [partial.plist] is
    skipped, [AppIcon.icns] is copied to [app<NameTag>.icns] and
    [Assets.car] to [Assets<NameTag>.car] beside the catalog, in the order
    of the list, and an entry of any other name makes the run raise. *)
Theorem relocation_routes_by_name (World : Type)
  (h : forall R, call R -> World -> R * World) (w : World)
  (path : Path) (min_deployment_target : string) (verbose : bool)
  (od cr : pyval) (stderr : bytes) (returncode : Z)
  (name_tag : string) (files : list string) :
  let p := _process_path path min_deployment_target verbose in
  let source_dir := joinpath path [pardir] in
  invocation_result (trace h p w) = Some (od, stderr, returncode) ->
  classify od stderr returncode = Ok tt ->
  py_get od "com.apple.actool.compilation-results" = Ok (Some cr) ->
  py_get cr "output-files" = Ok (Some (VList (map VStr files))) ->
  name_tag_of (stem path) = Ok name_tag ->
  (List.length files <> 3%nat ->
   is_err (outcome h p w) = true /\ copies (trace h p w) = []
   /\ (cleanup_ok (trace h p w) = true ->
       outcome h p w
       = Err (AssetCatalogException
                [Lit ("expected actool to output 3 files, but it "
                      ++ "instead output "
                      ++ py_str_int (Z.of_nat (List.length files))
                      ++ " files, namely ");
                 Fmt (VList (map VStr files))])))
  /\
  (List.length files = 3%nat ->
   (exists rest,
       flat_map (routed source_dir name_tag) files
       = (map fst (copies (trace h p w)) ++ rest)%list)
   /\ (forallb recognised files = false -> is_err (outcome h p w) = true)
   /\ (outcome h p w = Ok tt ->
       map fst (copies (trace h p w))
       = flat_map (routed source_dir name_tag) files)
   /\ (outcome h p w = Ok tt <->
       forallb recognised files = true
       /\ copies_ok (trace h p w) = true
       /\ cleanup_ok (trace h p w) = true)).
Proof.
  intros p source_dir Hinv Hc Hcr Hof Htag.
  destruct (process_path_run h path min_deployment_target verbose w
              (run_parts h p w))
    as [(I & _)
       |(od' & err' & rc' & tag & pre & w3 & r3 & w4 & tr3 & tmp & rcl
         & I & _ & T' & T & C & R & E & K)].
  { fold p in I. congruence. }
  fold p in I, T, E, K. rewrite I in Hinv. injection Hinv as -> -> ->.
  assert (tag = name_tag) as -> by congruence.
  apply after_classify_run in R as (_ & F & _).
  specialize (F Hc). fold source_dir in F.
  rewrite (@relocate_files source_dir name_tag verbose od cr files Hcr Hof) in F.
  assert (Cp : copies (trace h p w) = copies tr3).
  { rewrite T, !copies_app, C. cbn [copies flat_map app].
    now rewrite List.app_nil_r. }
  assert (Co : copies_ok (trace h p w) = copies_ok tr3).
  { unfold copies_ok. now rewrite Cp. }
  split.
  - intro Hlen. apply Nat.eqb_neq in Hlen. rewrite Hlen in F.
    cbn [run] in F. injection F as <- <- <-.
    rewrite Cp, E, K.
    split; [now destruct rcl|]. split; [reflexivity|].
    destruct rcl; [reflexivity|discriminate].
  - intro Hlen. rewrite Hlen in F. cbn [Nat.eqb] in F.
    apply place_outputs_run in F as (_ & P & Iff & Eq).
    rewrite Cp, Co, E, K.
    split; [exact P|].
    split.
    { intro Hr. destruct rcl; [|reflexivity].
      destruct r3 as [[]|e]; [|reflexivity].
      destruct Iff as [Iff _]. destruct (Iff eq_refl). congruence. }
    split.
    { intro Hr. destruct rcl; [|discriminate]. now apply Eq. }
    split.
    { intro Hr. destruct rcl; [|discriminate].
      apply Iff in Hr as [? ?]. auto. }
    intros (Hr & Hcp & Hcl). destruct rcl; [|discriminate].
    apply Iff. auto.
Qed.

Lemma relocation_routes_by_name_witness :
  let files := ["/tmp/car/partial.plist"; "/tmp/car/AppIcon.icns";
                "/tmp/car/Assets.car"] in
  let s := mkSample (clean_reply files) 0 [] EmptyString in
  let path := of_string "chrome/app/Foo_beta.xcassets" in
  let p := _process_path path "11.0" false in
  outcome (sample_handle s) p tt = Ok tt
  /\ map fst (copies (trace (sample_handle s) p tt))
     = [(of_string "/tmp/car/AppIcon.icns",
         of_string "chrome/app/Foo_beta.xcassets/../app_beta.icns");
        (of_string "/tmp/car/Assets.car",
         of_string "chrome/app/Foo_beta.xcassets/../Assets_beta.car")].
Proof.
  intros files s path p.
  destruct (@relocation_routes_by_name unit (sample_handle s) tt
              path "11.0" false (clean_reply files)
              (VDict [("output-files", VList (map VStr files))])
              [] 0 "_beta" files)
    as (_ & H); try reflexivity.
  destruct (H eq_refl) as (_ & _ & Hcopies & Hok).
  assert (O : outcome (sample_handle s) p tt = Ok tt).
  { apply Hok. repeat split; reflexivity. }
  split; [exact O|]. etransitivity; [exact (Hcopies O)|reflexivity].
Defined.

(** ** Path validation and the channel tag *)

Lemma in_tmp_dir_malformed path mdt verbose tmp :
  malformed path = true ->
  in_tmp_dir path mdt verbose tmp
  = Raise (ValueError [Lit (format_message path)]).
Proof.
  unfold malformed, format_message, in_tmp_dir, name_tag_of.
  destruct (String.eqb (suffix path) ".xcassets"); cbn [negb orb];
    [|reflexivity].
  intros ->. reflexivity.
Qed.

Lemma process_path_malformed (World : Type)
  (h : forall R, call R -> World -> R * World) (w : World)
  path mdt verbose :
  malformed path = true ->
  let p := _process_path path mdt verbose in
  (exists e, trace h p w = [EvTemporaryDirectory (Err e)]
             /\ outcome h p w = Err e)
  \/ (exists tmp rcl,
         trace h p w = [EvTemporaryDirectory (Ok tmp); EvCleanup tmp rcl]
         /\ outcome h p w
            = match rcl with
              | Ok _ => Err (ValueError [Lit (format_message path)])
              | Err e => Err e
              end).
Proof.
  intros Hm p. unfold p, trace, outcome, _process_path, with_TemporaryDirectory.
  cbn [attempt bind run].
  destruct (h _ TemporaryDirectory w) as [[tmp|e] w0]; cbn [lift bind log run];
    [|left; exists e; split; reflexivity].
  rewrite (in_tmp_dir_malformed path mdt verbose tmp Hm).
  cbn [finally attempt bind run].
  destruct (h _ (Cleanup tmp) w0) as [[u|e] w1]; cbn [lift bind log run fst snd];
    right; eexists tmp, _; split; reflexivity.
Qed.

(** C6, as amended.  For every catalog path whose final extension is not
    [.xcassets], or whose stem splits on ['_'] into more than two segments,
    [_process_path] raises [ValueError] with the message of the broken
    rule, after the temporary directory was created and removed and before
    the icon package is copied, the compiler is run or a destination is
    written; if creating or removing the temporary directory raises, that
    exception is raised instead. *)
Theorem malformed_path_raises_ValueError (World : Type)
  (h : forall R, call R -> World -> R * World) (w : World)
  (path : Path) (min_deployment_target : string) (verbose : bool) :
  let p := _process_path path min_deployment_target verbose in
  String.eqb (suffix path) ".xcassets" = false
  \/ (2 < List.length (split "_" (stem path)))%nat ->
  is_err (outcome h p w) = true
  /\ existsb touches_files (trace h p w) = false
  /\ (cleanup_ok (trace h p w) = true ->
      forall tmp, In (EvTemporaryDirectory (Ok tmp)) (trace h p w) ->
      outcome h p w = Err (ValueError [Lit (format_message path)]))
  /\ ((exists e, trace h p w = [EvTemporaryDirectory (Err e)])
      \/ exists tmp rcl,
          trace h p w = [EvTemporaryDirectory (Ok tmp); EvCleanup tmp rcl]).
Proof.
  intros p Hbad.
  assert (Hm : malformed path = true).
  { unfold malformed. destruct Hbad as [-> | Hlen]; [reflexivity|].
    apply Nat.ltb_lt in Hlen. rewrite Hlen. apply orb_true_r. }
  destruct (process_path_malformed h w path min_deployment_target verbose Hm)
    as [(e & T & O)|(tmp & rcl & T & O)]; fold p in T, O; rewrite T, O.
  - split; [reflexivity|]. split; [reflexivity|].
    split; [|left; eauto].
    intros _ tmp [H|[]]. discriminate H.
  - split; [now destruct rcl|]. split; [reflexivity|].
    split; [|right; eauto].
    intros Hk _ _. destruct rcl; [reflexivity|discriminate Hk].
Qed.

Lemma malformed_path_raises_ValueError_witness :
  let s := mkSample (clean_reply []) 0 [] EmptyString in
  let p := _process_path (of_string "chrome/app/Foo_beta_old.xcassets")
                         "11.0" false in
  is_err (outcome (sample_handle s) p tt) = true
  /\ existsb touches_files (trace (sample_handle s) p tt) = false
  /\ outcome (sample_handle s) p tt
     = Err (ValueError [Lit "Asset catalog filename must have at most one _"]).
Proof.
  intros s p.
  destruct (malformed_path_raises_ValueError (sample_handle s) tt
              (of_string "chrome/app/Foo_beta_old.xcassets") "11.0" false)
    as (H1 & H2 & H3 & _).
  - right. vm_compute. lia.
  - split; [exact H1|]. split; [exact H2|].
    apply (H3 eq_refl "/tmp/car"). left. reflexivity.
Defined.

(** C6, as stated, fails: for the catalog path [Icons.txt] the run raises
    [ValueError], not [AssetCatalogException], and it does so after the
    temporary directory was created. *)
Lemma malformed_path_not_AssetCatalogException :
  let s := mkSample (clean_reply []) 0 [] EmptyString in
  let p := _process_path (of_string "chrome/app/Icons.txt") "11.0" false in
  String.eqb (suffix (of_string "chrome/app/Icons.txt")) ".xcassets" = false
  /\ outcome (sample_handle s) p tt
     = Err (ValueError
              [Lit "Asset catalog filename must have .xcassets suffix"])
  /\ ~ (exists msg,
           outcome (sample_handle s) p tt = Err (AssetCatalogException msg))
  /\ trace (sample_handle s) p tt
     = [EvTemporaryDirectory (Ok "/tmp/car"); EvCleanup "/tmp/car" (Ok tt)].
Proof.
  intros s p. split; [reflexivity|]. split; [reflexivity|].
  split; [|reflexivity]. intros [msg H]. discriminate H.
Qed.




(** ** Matching *)

Section Captures.
Variable Q : list (nat * (nat * nat)) -> Prop.
Hypothesis Q_cons : forall g l, Q l -> Q (g :: l).

Lemma one_reaches ok k st x :
  Re.one ok k st = Some x -> Q (Re.caps st) ->
  exists st', k st' = Some x /\ Q (Re.caps st').
Proof.
  unfold Re.one, Re.advance. destruct (Re.rest st) as [|c r]; [discriminate|].
  destruct (ok c); [|discriminate]. intros H HQ.
  eexists; split; [exact H|exact HQ].
Qed.

(** A successful match has called its continuation, on a state that still
    holds every group recorded before. *)
Lemma matches_reaches r :
  forall k st x,
    Re.matches r k st = Some x -> Q (Re.caps st) ->
    exists st', k st' = Some x /\ Q (Re.caps st').
Proof.
  induction r as [| |c| | |r1 IH1 r2 IH2|r IH|r IH|n r IH];
    intros k st x; cbn [Re.matches].
  - destruct (Re.at_bol st); [|discriminate].
    intros H HQ. exists st. now split.
  - destruct (Re.at_eol st); [|discriminate].
    intros H HQ. exists st. now split.
  - apply one_reaches.
  - apply one_reaches.
  - apply one_reaches.
  - intros H HQ. destruct (IH1 _ _ _ H HQ) as (st1 & H1 & Q1).
    now apply (IH2 k st1).
  - generalize (S (String.length (Re.rest st))). intro fuel. revert st.
    induction fuel as [|fuel IHf]; intros st H HQ; cbn [Re.star] in H;
      [exists st; now split|].
    match type of H with
    | match ?m with _ => _ end = _ => destruct m as [y|] eqn:E
    end; [|exists st; now split].
    injection H as ->.
    destruct (IH _ _ _ E HQ) as (st1 & H1 & Q1).
    destruct (Re.pos st <? Re.pos st1)%nat; [|discriminate].
    now apply (IHf st1).
  - intros H HQ. destruct (Re.matches r k st) as [y|] eqn:E;
      [|exists st; now split].
    injection H as ->. now apply (IH k st).
  - intros H HQ. destruct (IH _ _ _ H HQ) as (st1 & H1 & Q1).
    eexists; split; [exact H1|]. cbn [Re.caps]. now apply Q_cons.
Qed.

Lemma literal_reaches s r :
  forall k st x,
    Re.matches (Re.RLit s r) k st = Some x -> Q (Re.caps st) ->
    exists st', Re.matches r k st' = Some x /\ Q (Re.caps st').
Proof.
  induction s as [|c s IH]; intros k st x; cbn [Re.RLit];
    [intros H HQ; exists st; now split|].
  cbn [Re.matches]. intros H HQ.
  destruct (one_reaches _ _ _ H HQ) as (st1 & H1 & Q1).
  now apply (IH k st1).
Qed.

Lemma seq_reaches r1 r2 :
  forall k st x,
    Re.matches (Re.RSeq r1 r2) k st = Some x -> Q (Re.caps st) ->
    exists st', Re.matches r2 k st' = Some x /\ Q (Re.caps st').
Proof.
  intros k st x H HQ. exact (matches_reaches r1 (Re.matches r2 k) st H HQ).
Qed.
End Captures.

Lemma has_group_cons n g gs : has_group n gs -> has_group n (g :: gs).
Proof.
  unfold has_group, Re.lookup_group. cbn [find].
  destruct (Nat.eqb (fst g) n); [discriminate|auto].
Qed.

(** Every match of the deployment-target pattern has closed group 1. *)
Lemma pattern_closes_group k st x :
  Re.matches deployment_target_pattern k st = Some x ->
  exists st', k st' = Some x /\ has_group 1 (Re.caps st').
Proof.
  unfold deployment_target_pattern. intro H.
  pose proof (@seq_reaches (fun _ => True) (fun _ _ H => H)) as Seq.
  pose proof (@literal_reaches (fun _ => True)) as Lit.
  apply Seq in H as (st1 & H & _); [|exact I].
  apply Seq in H as (st2 & H & _); [|exact I].
  apply Lit in H as (st3 & H & _); [|exact I].
  apply Seq in H as (st4 & H & _); [|exact I].
  apply Seq in H as (st5 & H & _); [|exact I].
  apply Seq in H as (st6 & H & _); [|exact I].
  apply Seq in H as (st7 & H & _); [|exact I].
  change (Re.matches (Re.RStar Re.RAny)
            (fun st' =>
               Re.matches
                 (Re.RSeq (Re.RChar Re.dquote)
                    (Re.RSeq
                       (Re.ROpt
                          (Re.RSeq (Re.RStar Re.RSpace)
                             (Re.RSeq (Re.RChar "#") (Re.RStar Re.RAny))))
                       Re.REol)) k
                 (Re.mkState (Re.pos st') (Re.prev st') (Re.rest st')
                    ((1%nat, (Re.pos st7, Re.pos st')) :: Re.caps st')))
            st7 = Some x) in H.
  apply (@matches_reaches (fun _ => True) (fun _ _ H => H)) in H
    as (st8 & H & _); [|exact I].
  apply (@matches_reaches (has_group 1) (@has_group_cons 1)) in H;
    [exact H|].
  cbn [Re.caps]. unfold has_group, Re.lookup_group. cbn. discriminate.
Qed.

Lemma scan_closes_group text fuel :
  forall must st m,
    In m (Re.scan deployment_target_pattern text fuel must st) ->
    has_group 1 (Re.m_groups m).
Proof.
  induction fuel as [|fuel IH]; intros must st m; cbn [Re.scan]; [intros []|].
  match goal with
  | |- context [Re.matches ?r ?k ?s] => destruct (Re.matches r k s) as [st'|] eqn:E
  end.
  - intros [<-|Hin]; [|now apply IH in Hin].
    apply pattern_closes_group in E as (st'' & E & G).
    destruct (must && (Re.pos st'' =? Re.pos st)%nat); [discriminate|].
    now injection E as <-.
  - destruct (Re.advance st) as [[c st1]|]; [apply IH|intros []].
Qed.

(** [match.group(1)] of a match of the pattern is a string, never [None]. *)
Lemma deployment_target_group text m :
  In m (Re.finditer deployment_target_pattern text) ->
  exists v, Re.group 1 m = Some v.
Proof.
  intro H. apply scan_closes_group in H. unfold has_group in H.
  unfold Re.group. destruct (Re.lookup_group 1 (Re.m_groups m)) as [[b e]|];
    [eauto|contradiction].
Qed.

(** ** The deployment target *)

(** C9.  The deployment target is group 1 of the one match of the pattern
    in the text of the build configuration; with no match, or with more
    than one, the lookup raises ([ValueError], from the one-element
    unpacking) and never returns a value of its own. *)
Theorem deployment_target_single_match (World : Type)
  (h : forall R, call R -> World -> R * World) (w : World)
  (file text : string) :
  let p := _min_deployment_target file in
  let found := Re.finditer deployment_target_pattern text in
  read_reply (trace h p w) = Some text ->
  (forall m, found = [m] ->
             exists v, Re.group 1 m = Some v /\ outcome h p w = Ok (Some v))
  /\ (found = [] ->
      outcome h p w
      = Err (ValueError
               [Lit "not enough values to unpack (expected 1, got 0)"]))
  /\ ((1 < List.length found)%nat ->
      outcome h p w
      = Err (ValueError [Lit "too many values to unpack (expected 1)"]))
  /\ (forall v, outcome h p w = Ok v -> List.length found = 1%nat).
Proof.
  intros p found. unfold p, trace, outcome, _min_deployment_target.
  cbn [attempt bind run].
  destruct (h _ (Read_text _) w) as [[text'|e] w1];
    cbn [lift bind run log read_reply flat_map app hd_error fst snd];
    [|discriminate].
  intro H.
  assert (text' = text) as ->.
  { destruct (Re.finditer deployment_target_pattern text') as [|m [|m' l]];
      cbn in H; congruence. }
  assert (G : forall m, In m found -> exists v, Re.group 1 m = Some v)
    by (intro m; apply deployment_target_group).
  fold found. destruct found as [|m [|m' l]]; cbn [run fst List.length].
  - split; [discriminate|]. split; [reflexivity|].
    split; [intro L; inversion L|discriminate].
  - split.
    { intros m0 E. injection E as <-.
      destruct (G m (or_introl eq_refl)) as [v Hv].
      exists v. now rewrite Hv. }
    split; [discriminate|]. split; [intro L; lia|reflexivity].
  - split; [discriminate|]. split; [discriminate|].
    split; [reflexivity|discriminate].
Qed.

Lemma deployment_target_single_match_witness :
  let run_on text :=
    outcome (sample_handle (mkSample (clean_reply []) 0 [] text))
            (_min_deployment_target "/src/tools/mac/icons/compile_car.py")
            tt in
  run_on ("# Minimum supported version." ++ String Re.newline
          (assignment_line "11.0")) = Ok (Some "11.0")
  /\ run_on "mac_sdk_min = 14"
     = Err (ValueError
              [Lit "not enough values to unpack (expected 1, got 0)"])
  /\ run_on (assignment_line "11.0" ++ assignment_line "12.0")
     = Err (ValueError [Lit "too many values to unpack (expected 1)"]).
Proof.
  intro run_on. unfold run_on.
  pose (one := "# Minimum supported version." ++ String Re.newline
               (assignment_line "11.0")).
  pose (two := assignment_line "11.0" ++ assignment_line "12.0").
  destruct (@deployment_target_single_match unit
              (sample_handle (mkSample (clean_reply []) 0 [] one))
              tt "/src/tools/mac/icons/compile_car.py" one eq_refl)
    as (H1 & _).
  destruct (@deployment_target_single_match unit
              (sample_handle
                 (mkSample (clean_reply []) 0 [] "mac_sdk_min = 14"))
              tt "/src/tools/mac/icons/compile_car.py" "mac_sdk_min = 14"
              eq_refl)
    as (_ & H0 & _).
  destruct (@deployment_target_single_match unit
              (sample_handle (mkSample (clean_reply []) 0 [] two))
              tt "/src/tools/mac/icons/compile_car.py" two eq_refl)
    as (_ & _ & H2 & _).
  split; [|split].
  - destruct (H1 (Re.mkMatch one (29, 59)%nat [(1%nat, (54, 58)%nat)])
                 eq_refl) as (v & Hv & Ho).
    etransitivity; [exact Ho|]. f_equal. rewrite <- Hv. reflexivity.
  - exact (H0 eq_refl).
  - apply H2. vm_compute. lia.
Defined.

(** ** More on versions *)
















(** ** More on the version gate *)

Lemma gate_run (World : Type) (h : forall R, call R -> World -> R * World)
  (w : World) :
  run h _verify_actool_version w
  = match h _ (Check_output version_query) w with
    | (Err e, w1) => (Err e, w1, [EvCheck_output version_query (Err e)])
    | (Ok out, w1) =>
        match h _ (Plist_loads out) w1 with
        | (Err e, w2) =>
            (Err e, w2, [EvCheck_output version_query (Ok out);
                         EvPlist_loads out (Err e)])
        | (Ok od, w2) =>
            (gate_verdict od, w2,
             [EvCheck_output version_query (Ok out);
              EvPlist_loads out (Ok od)])
        end
    end.
Proof.
  unfold _verify_actool_version, version_query, gate_verdict.
  cbn [run bind attempt lift].
  destruct (h _ (Check_output _) w) as [[out|e] w1];
    cbn [run bind lift log]; [|reflexivity].
  destruct (h _ (Plist_loads out) w1) as [[od|e] w2];
    cbn [run bind lift log]; [|reflexivity].
  destruct (py_getitem od "com.apple.actool.version") as [entry|e];
    cbn [run bind lift rbind]; [|reflexivity].
  destruct (py_getitem entry "short-bundle-version") as [short|e];
    cbn [run bind lift rbind]; [|reflexivity].
  destruct (split_version_of short) as [version|e];
    cbn [run bind lift rbind]; [|reflexivity].
  destruct (tuple_lt version _REQUIRED_ACTOOL_VERSION); reflexivity.
Qed.

Lemma meets_requirement_spec (version : list Z) :
  tuple_lt version _REQUIRED_ACTOOL_VERSION = negb (meets_requirement version).
Proof.
  rewrite required_version. unfold meets_requirement.
  destruct version as [|major [|minor rest]]; cbn [tuple_lt]; [reflexivity| |].
  - destruct (Z.eqb_spec major 26) as [->|Hne]; [reflexivity|].
    rewrite andb_false_r, orb_false_r.
    destruct (Z.ltb_spec major 26), (Z.ltb_spec 26 major); try reflexivity; lia.
  - destruct (Z.eqb_spec major 26) as [->|Hne].
    + cbn [orb andb]. change (26 <? 26) with false. cbn [orb].
      destruct (Z.eqb_spec minor 0) as [->|Hm]; [destruct rest; reflexivity|].
      destruct (Z.ltb_spec minor 0), (Z.leb_spec 0 minor); try reflexivity; lia.
    + rewrite andb_false_l, orb_false_r.
      destruct (Z.ltb_spec major 26), (Z.ltb_spec 26 major); try reflexivity; lia.
Qed.

(** X3.  The gate returns without raising exactly when the query ran, its
    output parsed to a dictionary whose ['com.apple.actool.version'] entry
    is a dictionary with a string ['short-bundle-version'], that string
    splits into integers, and these start with a major number above 26, or
    with 26 and a minor number that is not negative.  A version of the one
    component 26 is therefore turned down. *)
Theorem gate_passes_iff (World : Type)
  (h : forall R, call R -> World -> R * World) (w : World) :
  outcome h _verify_actool_version w = Ok tt <->
  exists od d e v version,
    loads_reply (trace h _verify_actool_version w) = Some od
    /\ od = VDict d
    /\ dict_get d "com.apple.actool.version" = Some (VDict e)
    /\ dict_get e "short-bundle-version" = Some (VStr v)
    /\ _split_version v = Ok version
    /\ meets_requirement version = true.
Proof.
  unfold outcome, trace. rewrite gate_run.
  destruct (h _ (Check_output version_query) w) as [[out|e] w1];
    cbn [fst snd];
    [|split; [discriminate|intros (od & d & e' & v & vs & H & _); discriminate]].
  destruct (h _ (Plist_loads out) w1) as [[od|e] w2]; cbn [fst snd];
    [|split; [discriminate|intros (od & d & e' & v & vs & H & _); discriminate]].
  change (loads_reply [EvCheck_output version_query (Ok out);
                       EvPlist_loads out (Ok od)]) with (Some od).
  unfold gate_verdict. split.
  - intro H. destruct od; try discriminate H. cbn [py_getitem] in H.
    destruct (dict_get d "com.apple.actool.version") as [entry|] eqn:E1;
      [|discriminate H].
    cbn [rbind] in H. destruct entry; try discriminate H.
    cbn [py_getitem] in H.
    destruct (dict_get d0 "short-bundle-version") as [short|] eqn:E2;
      [|discriminate H].
    cbn [rbind] in H. destruct short; try discriminate H.
    cbn [split_version_of] in H.
    destruct (_split_version s) as [version|] eqn:E3; [|discriminate H].
    cbn [rbind] in H. rewrite meets_requirement_spec in H.
    destruct (meets_requirement version) eqn:M; [|discriminate H].
    exists (VDict d), d, d0, s, version. repeat split; assumption.
  - intros (od' & d & e & v & version & Hod & -> & E1 & E2 & E3 & M).
    injection Hod as ->. cbn [py_getitem]. rewrite E1. cbn [rbind py_getitem].
    rewrite E2. cbn [rbind split_version_of]. rewrite E3. cbn [rbind].
    rewrite meets_requirement_spec, M. reflexivity.
Qed.

(** X4.  The gate does nothing but the query.  Its trace is the one
    [check_output] of the version query, followed by one [plistlib.loads]
    of what the query printed when it ran; an exception of either call is
    the outcome, and an outcome that is not such an exception is the
    verdict on the parsed reply. *)
Theorem gate_only_queries (World : Type)
  (h : forall R, call R -> World -> R * World) (w : World) :
  let tr := trace h _verify_actool_version w in
  let res := outcome h _verify_actool_version w in
  (exists e, tr = [EvCheck_output version_query (Err e)] /\ res = Err e)
  \/ (exists out e,
         tr = [EvCheck_output version_query (Ok out);
               EvPlist_loads out (Err e)] /\ res = Err e)
  \/ (exists out od,
         tr = [EvCheck_output version_query (Ok out);
               EvPlist_loads out (Ok od)] /\ res = gate_verdict od).
Proof.
  unfold outcome, trace. rewrite gate_run.
  destruct (h _ (Check_output version_query) w) as [[out|e] w1];
    cbn [fst snd]; [|left; eauto].
  destruct (h _ (Plist_loads out) w1) as [[od|e] w2]; cbn [fst snd];
    right; [right|left]; eauto.
Qed.

(** X5.  A reply of the version query that lacks the
    ['com.apple.actool.version'] entry, or whose entry lacks
    ['short-bundle-version'], makes the gate raise [KeyError] for the
    missing key, not [AssetCatalogException]. *)
Theorem gate_missing_key (World : Type)
  (h : forall R, call R -> World -> R * World) (w : World)
  (d : list (string * pyval)) :
  loads_reply (trace h _verify_actool_version w) = Some (VDict d) ->
  (dict_get d "com.apple.actool.version" = None ->
   outcome h _verify_actool_version w
   = Err (KeyError "com.apple.actool.version"))
  /\ (forall e,
        dict_get d "com.apple.actool.version" = Some (VDict e) ->
        dict_get e "short-bundle-version" = None ->
        outcome h _verify_actool_version w
        = Err (KeyError "short-bundle-version")).
Proof.
  unfold outcome, trace. rewrite gate_run.
  destruct (h _ (Check_output version_query) w) as [[out|e] w1];
    cbn [fst snd]; [|discriminate].
  destruct (h _ (Plist_loads out) w1) as [[od|e] w2]; cbn [fst snd];
    [|discriminate].
  change (loads_reply [EvCheck_output version_query (Ok out);
                       EvPlist_loads out (Ok od)]) with (Some od).
  intro H. injection H as ->. unfold gate_verdict. cbn [py_getitem]. split.
  - intros ->. reflexivity.
  - intros e -> E2. cbn [rbind py_getitem]. rewrite E2. reflexivity.
Qed.

Lemma gate_missing_key_witness :
  outcome (sample_handle (mkSample (VDict []) 0 [] EmptyString))
          _verify_actool_version tt
  = Err (KeyError "com.apple.actool.version")
  /\ outcome (sample_handle
                (mkSample (VDict [("com.apple.actool.version", VDict [])])
                          0 [] EmptyString))
             _verify_actool_version tt
     = Err (KeyError "short-bundle-version").
Proof.
  split.
  - destruct (@gate_missing_key unit
                (sample_handle (mkSample (VDict []) 0 [] EmptyString)) tt []
                eq_refl) as [H _].
    exact (H eq_refl).
  - destruct (@gate_missing_key unit
                (sample_handle
                   (mkSample (VDict [("com.apple.actool.version", VDict [])])
                             0 [] EmptyString)) tt
                [("com.apple.actool.version", VDict [])] eq_refl) as [_ H].
    exact (H [] eq_refl eq_refl).
Defined.

(** ** More on classification *)

Lemma collect_plain_total d key fs reason :
  exists fs', collect_failures (VDict d) key fs reason None = Ok fs'.
Proof.
  unfold collect_failures. cbn [py_get rbind].
  destruct (dict_get d key) as [v|]; cbn [rbind]; [|now exists fs].
  destruct (truthy v); cbn [negb]; eexists; reflexivity.
Qed.

Lemma untyped_warning_raises (l : list pyval) :
  forallb is_dict l = true -> existsb lacks_type l = true ->
  unexpected_warnings (VList l) = Err (KeyError "type").
Proof.
  intros Hd Hl. unfold unexpected_warnings. cbn [py_iter rbind].
  assert (F : filter_result
                (fun warning =>
                   rbind (py_getitem warning "type")
                         (fun t => Ok (ne_str t "Ambiguous Content"))) l
              = Err (KeyError "type")).
  { induction l as [|w l IH]; [discriminate Hl|].
    cbn [forallb existsb] in Hd, Hl. apply andb_prop in Hd as [Hw Hd].
    cbn [filter_result]. destruct w; try discriminate Hw.
    cbn [py_getitem]. unfold lacks_type in Hl. cbn [warning_type] in Hl.
    destruct (dict_get d "type") as [t|]; [|reflexivity].
    cbn [rbind orb] in *. rewrite (IH Hd Hl). reflexivity. }
  rewrite F. reflexivity.
Qed.

(** X6.  A document warning without a ['type'] makes classification raise
    [KeyError] for ['type']: the reasons gathered so far from the return
    code, the errors and the warnings are dropped with it, and no
    [AssetCatalogException] is raised. *)
Theorem untyped_warning_is_KeyError (d : list (string * pyval))
  (stderr : bytes) (returncode : Z) (l : list pyval) :
  dict_get d document_warnings_key = Some (VList l) ->
  forallb is_dict l = true ->
  existsb lacks_type l = true ->
  classify (VDict d) stderr returncode = Err (KeyError "type").
Proof.
  intros Hw Hd Hl. unfold classify, gather_failures. cbv zeta.
  do 3 (match goal with
        | |- context [rbind (collect_failures (VDict d) ?k ?fs ?r None) _] =>
            destruct (collect_plain_total d k fs r) as [? ->]; cbn [rbind]
        end).
  unfold collect_failures at 1. cbn [py_get rbind].
  fold document_warnings_key. rewrite Hw.
  rewrite (untyped_warning_raises l Hd Hl). reflexivity.
Qed.

Lemma untyped_warning_is_KeyError_witness :
  classify (VDict [(errors_key, VList [VStr "broken catalog"]);
                   (document_warnings_key,
                    VList [VDict [("type", VStr "Ambiguous Content")];
                           VDict [("description", VStr "no type here")]])])
           [] 1
  = Err (KeyError "type").
Proof.
  apply (@untyped_warning_is_KeyError _ [] 1
           [VDict [("type", VStr "Ambiguous Content")];
            VDict [("description", VStr "no type here")]]);
    reflexivity.
Defined.

(** ** The order of the calls of [_process_path] *)

Section Order.
Variable World : Type.
Variable h : forall R, call R -> World -> R * World.

Lemma in_tmp_dir_staged path mdt verbose tmp w :
  (malformed path = true /\ trace h (in_tmp_dir path mdt verbose tmp) w = [])
  \/ exists tag,
      name_tag_of (stem path) = Ok tag
      /\ staged (joinpath (joinpath path [pardir])
                          ["AppIcon" ++ tag ++ ".icon"])
                (joinpath (of_string tmp) ["AppIcon.icon"])
                (actool_command path mdt (of_string tmp)
                   (joinpath (of_string tmp) ["partial.plist"])
                   (joinpath (of_string tmp) ["AppIcon.icon"]))
                verbose (trace h (in_tmp_dir path mdt verbose tmp) w).
Proof.
  unfold trace.
  destruct (malformed path) eqn:Hm.
  { rewrite (in_tmp_dir_malformed path mdt verbose tmp Hm).
    left. split; reflexivity. }
  unfold malformed in Hm. apply orb_false_elim in Hm as [Hs Hl].
  unfold in_tmp_dir. rewrite Hs.
  assert (Ht : exists tag, name_tag_of (stem path) = Ok tag).
  { unfold name_tag_of. rewrite Hl. eauto. }
  destruct Ht as [tag Ht]. rewrite Ht. cbn [lift bind attempt run].
  right. exists tag. split; [reflexivity|].
  destruct (h (Copytree _ _) w) as [[[]|e] w1]; cbn [lift bind log run snd];
    [|apply staged_no_icon].
  destruct verbose; cbn [print bind run attempt lift log];
    repeat match goal with
           | |- context [h (Print ?l) ?x] => destruct (h (Print l) x) as [? ?]
           end;
    match goal with
    | |- context [h (Popen ?c) ?x] =>
        destruct (h (Popen c) x) as [[[[out err] rc]|e] w2]
    end;
    cbn [lift bind run log snd];
    try first [exact (@staged_no_run _ _ _ true _)
              |exact (@staged_no_run _ _ _ false _)];
    match goal with
    | |- context [h (Plist_loads ?c) ?x] =>
        destruct (h (Plist_loads c) x) as [[od|e] w3]
    end;
    cbn [lift bind run log snd];
    try first [exact (@staged_no_parse _ _ _ true _ _ _ _)
              |exact (@staged_no_parse _ _ _ false _ _ _ _)];
    match goal with
    | |- context [run h ?p ?x] =>
        destruct (run h p x) as [[r3 w4] tr3] eqn:R3
    end;
    cbn [snd];
    apply after_classify_run in R3 as (_ & _ & O & _);
    first [apply (@staged_parsed _ _ _ true)
          |apply (@staged_parsed _ _ _ false)]; exact O.
Qed.

(** The whole run: the temporary directory comes first and its removal
    last, around the trace of the body. *)
Lemma process_path_frame path mdt verbose w :
  let p := _process_path path mdt verbose in
  (exists e, trace h p w = [EvTemporaryDirectory (Err e)]
             /\ outcome h p w = Err e)
  \/ exists tmp w0 rcl,
      trace h p w
      = (EvTemporaryDirectory (Ok tmp)
         :: trace h (in_tmp_dir path mdt verbose tmp) w0
         ++ [EvCleanup tmp rcl])%list
      /\ outcome h p w
         = match rcl with
           | Ok _ => outcome h (in_tmp_dir path mdt verbose tmp) w0
           | Err e => Err e
           end.
Proof.
  intro p. unfold p, trace, outcome, _process_path, with_TemporaryDirectory.
  cbn [attempt bind run].
  destruct (h TemporaryDirectory w) as [[tmp|e] w0]; cbn [lift bind log run];
    [|left; exists e; split; reflexivity].
  rewrite run_finally.
  destruct (run h (in_tmp_dir path mdt verbose tmp) w0)
    as [[r1 w1] body] eqn:R1.
  cbn [attempt run].
  destruct (h (Cleanup tmp) w1) as [rcl w2]. rewrite run_lift. cbn [log fst snd].
  right. exists tmp, w0, rcl. rewrite R1. split; reflexivity.
Qed.

Lemma only_copies_not_tmp (tr : list event) :
  only_copies tr ->
  existsb is_tmp tr = false /\ invocations tr = [] /\ created tr = [].
Proof.
  induction tr as [|e tr IH]; intro H; [repeat split|].
  assert (He := H e (or_introl eq_refl)).
  destruct IH as (T & I & C); [intros x Hx; apply H; now right|].
  unfold invocations, created in *.
  destruct e; try contradiction; cbn [existsb is_tmp flat_map app orb];
    repeat split; assumption.
Qed.

Lemma staged_not_tmp src dst cmd verbose tr :
  staged src dst cmd verbose tr ->
  existsb is_tmp tr = false /\ created tr = []
  /\ (List.length (invocations tr) <= 1)%nat
  /\ forall c r, In (c, r) (invocations tr) -> c = cmd.
Proof.
  unfold invocations, created.
  destruct 1 as [e|e|out err rc e|out err rc od rest O]; destruct verbose;
    unfold announce; simpl;
    try (apply only_copies_not_tmp in O as (T & I & C);
         unfold invocations, created in I, C; rewrite ?T, ?I, ?C);
    simpl;
    (split; [reflexivity|]); (split; [reflexivity|]);
    (split; [lia|]); intros c r Hin;
    repeat destruct Hin as [Hin|Hin]; try contradiction; congruence.
Qed.
End Order.

(** X7.  When the temporary directory was created, the last call of the
    run removes that same directory, whatever happened in between: a
    malformed path, a failed staging, a failed compilation or a failed
    copy.  Nothing in between creates or removes a temporary directory. *)
Theorem temporary_directory_removed (World : Type)
  (h : forall R, call R -> World -> R * World) (w : World)
  (path : Path) (min_deployment_target : string) (verbose : bool) :
  let tr := trace h (_process_path path min_deployment_target verbose) w in
  (exists e, tr = [EvTemporaryDirectory (Err e)])
  \/ exists tmp body rcl,
      tr = (EvTemporaryDirectory (Ok tmp) :: body ++ [EvCleanup tmp rcl])%list
      /\ existsb is_tmp body = false.
Proof.
  intro tr. unfold tr.
  destruct (process_path_frame h path min_deployment_target verbose w)
    as [(e & T & _)|(tmp & w0 & rcl & T & _)]; [left; eauto|].
  right. exists tmp, (trace h (in_tmp_dir path min_deployment_target verbose
                                 tmp) w0), rcl.
  split; [exact T|].
  destruct (in_tmp_dir_staged h path min_deployment_target verbose tmp w0)
    as [(_ & ->)|(tag & _ & S)]; [reflexivity|].
  now apply staged_not_tmp in S as (H & _).
Qed.

Lemma invocations_app (a b : list event) :
  invocations (a ++ b) = (invocations a ++ invocations b)%list.
Proof. unfold invocations. apply flat_map_app. Qed.

Lemma created_app (a b : list event) :
  created (a ++ b) = (created a ++ created b)%list.
Proof. unfold created. apply flat_map_app. Qed.

(** X8.  The compiler is run at most once per catalog, and only after the
    icon package [AppIcon<NameTag>.icon] beside the catalog was copied to
    [AppIcon.icon] in the temporary directory: that copy is the first call
    after the directory is created.  The command is the one built for
    this catalog and this directory. *)
Theorem compiler_runs_on_staged_icon (World : Type)
  (h : forall R, call R -> World -> R * World) (w : World)
  (path : Path) (min_deployment_target : string) (verbose : bool)
  (command : list string) (reply : result (bytes * bytes * Z)) :
  let tr := trace h (_process_path path min_deployment_target verbose) w in
  In (command, reply) (invocations tr) ->
  (List.length (invocations tr) = 1)%nat
  /\ exists tmp name_tag rest,
      name_tag_of (stem path) = Ok name_tag
      /\ tr = EvTemporaryDirectory (Ok tmp)
              :: EvCopytree
                   (joinpath (joinpath path [pardir])
                             ["AppIcon" ++ name_tag ++ ".icon"])
                   (joinpath (of_string tmp) ["AppIcon.icon"]) (Ok tt)
              :: rest
      /\ command
         = actool_command path min_deployment_target (of_string tmp)
             (joinpath (of_string tmp) ["partial.plist"])
             (joinpath (of_string tmp) ["AppIcon.icon"]).
Proof.
  intro tr. unfold tr.
  destruct (process_path_frame h path min_deployment_target verbose w)
    as [(e & -> & _)|(tmp & w0 & rcl & -> & _)]; [intros []|].
  change (EvTemporaryDirectory (Ok tmp)
          :: trace h (in_tmp_dir path min_deployment_target verbose tmp) w0
          ++ [EvCleanup tmp rcl])%list
    with ([EvTemporaryDirectory (Ok tmp)]
          ++ trace h (in_tmp_dir path min_deployment_target verbose tmp) w0
          ++ [EvCleanup tmp rcl])%list.
  rewrite !invocations_app.
  change (invocations [EvTemporaryDirectory (Ok tmp)])
    with (@nil (list string * result (bytes * bytes * Z))).
  change (invocations [EvCleanup tmp rcl])
    with (@nil (list string * result (bytes * bytes * Z))).
  rewrite List.app_nil_r. cbn [app].
  destruct (in_tmp_dir_staged h path min_deployment_target verbose tmp w0)
    as [(_ & ->)|(tag & Ht & S)]; [intros []|].
  intro Hin. pose proof (staged_not_tmp S) as (_ & _ & Hlen & Hcmd).
  split.
  { destruct (invocations _) as [|x [|y l]]; [destruct Hin|reflexivity|].
    cbn [List.length] in Hlen. lia. }
  exists tmp, tag. rewrite (Hcmd _ _ Hin).
  destruct S as [e|e|out err rc e|out err rc od rest O];
    try (eexists; split; [exact Ht|]; split; reflexivity).
  destruct Hin.
Qed.

Lemma compiler_runs_on_staged_icon_witness :
  let s := mkSample (clean_reply []) 0 [] EmptyString in
  let path := of_string "chrome/app/Foo_beta.xcassets" in
  let p := _process_path path "11.0" false in
  (List.length (invocations (trace (sample_handle s) p tt)) = 1)%nat
  /\ nth_error (trace (sample_handle s) p tt) 1
     = Some (EvCopytree (of_string "chrome/app/Foo_beta.xcassets/../AppIcon_beta.icon")
                        (of_string "/tmp/car/AppIcon.icon") (Ok tt)).
Proof.
  intros s path p.
  destruct (@compiler_runs_on_staged_icon unit (sample_handle s) tt
              path "11.0" false
              (actool_command path "11.0" (of_string "/tmp/car")
                 (of_string "/tmp/car/partial.plist")
                 (of_string "/tmp/car/AppIcon.icon"))
              (Ok ([], [], 0)))
    as (H1 & _); [left; reflexivity|].
  split; [exact H1|reflexivity].
Defined.

(** ** More on relocation *)




Section Stop.
Variable World : Type.
Variable h : forall R, call R -> World -> R * World.
Variables (source_dir : Path) (name_tag : string) (verbose : bool).

End Stop.

(** X9.  A reply that passes classification but has no
    ['com.apple.actool.compilation-results'], or results without
    ['output-files'], is an error of its own: the run raises
    [AssetCatalogException] and copies nothing. *)
Theorem missing_results_rejected (World : Type)
  (h : forall R, call R -> World -> R * World) (w : World)
  (path : Path) (min_deployment_target : string) (verbose : bool)
  (od : pyval) (stderr : bytes) (returncode : Z) (message : string) :
  let p := _process_path path min_deployment_target verbose in
  invocation_result (trace h p w) = Some (od, stderr, returncode) ->
  classify od stderr returncode = Ok tt ->
  (py_get od "com.apple.actool.compilation-results" = Ok None
   /\ message = "actool had no compilation results")
  \/ (exists cr,
         py_get od "com.apple.actool.compilation-results" = Ok (Some cr)
         /\ py_get cr "output-files" = Ok None
         /\ message = "actool had no output files") ->
  is_err (outcome h p w) = true
  /\ copies (trace h p w) = []
  /\ (cleanup_ok (trace h p w) = true ->
      outcome h p w = Err (AssetCatalogException [Lit message])).
Proof.
  intros p Hinv Hc Hmiss.
  destruct (process_path_run h path min_deployment_target verbose w
              (run_parts h p w))
    as [(I & _)
       |(od' & err' & rc' & tag & pre & w3 & r3 & w4 & tr3 & tmp & rcl
         & I & _ & _ & T & C & R & E & K)].
  { fold p in I. congruence. }
  fold p in I, T, E, K. rewrite I in Hinv. injection Hinv as -> -> ->.
  apply after_classify_run in R as (_ & F & _). specialize (F Hc).
  assert (R3 : (r3, w4, tr3)
               = (Err (AssetCatalogException [Lit message]), w3, [])).
  { rewrite <- F. unfold relocate.
    destruct Hmiss as [[-> ->]|(cr & -> & Ho & ->)]; cbn [lift bind run];
      [reflexivity|].
    rewrite Ho. reflexivity. }
  injection R3 as -> -> ->.
  rewrite E, K, T, !copies_app, C.
  split; [now destruct rcl|]. split; [reflexivity|].
  destruct rcl; [reflexivity|discriminate].
Qed.

Lemma missing_results_rejected_witness :
  let s := mkSample (VDict []) 0 [] EmptyString in
  let p := _process_path (of_string "chrome/app/Foo.xcassets") "11.0" false in
  outcome (sample_handle s) p tt
  = Err (AssetCatalogException [Lit "actool had no compilation results"])
  /\ copies (trace (sample_handle s) p tt) = [].
Proof.
  intros s p.
  destruct (@missing_results_rejected unit (sample_handle s) tt
              (of_string "chrome/app/Foo.xcassets") "11.0" false
              (VDict []) [] 0 "actool had no compilation results"
              eq_refl eq_refl (or_introl (conj eq_refl eq_refl)))
    as (_ & H2 & H3).
  split; [exact (H3 eq_refl)|exact H2].
Defined.



(** ** [main] *)

Section MainFacts.
Variable World : Type.
Variable h : forall R, call R -> World -> R * World.

Lemma trace_bind {A B} (p : prog A) (f : A -> prog B) (w : World) :
  (exists e, outcome h p w = Err e
             /\ outcome h (bind p f) w = Err e
             /\ trace h (bind p f) w = trace h p w)
  \/ exists a w1,
      outcome h p w = Ok a
      /\ outcome h (bind p f) w = outcome h (f a) w1
      /\ trace h (bind p f) w = (trace h p w ++ trace h (f a) w1)%list.
Proof.
  unfold outcome, trace. rewrite run_bind.
  destruct (run h p w) as [[[a|e] w1] tr]; cbn [fst snd].
  - right. exists a, w1. destruct (run h (f a) w1) as [[r2 w2] tr2].
    repeat split.
  - left. exists e. repeat split.
Qed.

Lemma reads_app (a b : list event) :
  reads (a ++ b) = (reads a ++ reads b)%list.
Proof. unfold reads. apply flat_map_app. Qed.

Lemma staged_no_reads src dst cmd verbose tr :
  staged src dst cmd verbose tr -> reads tr = [].
Proof.
  assert (Q : forall l, only_copies l -> reads l = []).
  { induction l as [|e l IH]; intro O; [reflexivity|].
    assert (He := O e (or_introl eq_refl)).
    unfold reads in *. cbn [flat_map].
    rewrite IH by (intros x Hx; apply O; now right).
    destruct e; try contradiction; reflexivity. }
  destruct 1 as [e|e|out err rc e|out err rc od rest O]; destruct verbose;
    unfold announce, reads; simpl; try reflexivity; now apply Q.
Qed.

(** One catalog: one temporary directory asked for, no file read, and
    every compiler command built for this catalog and deployment target. *)
Lemma process_path_calls path mdt verbose w :
  let tr := trace h (_process_path path mdt verbose) w in
  List.length (created tr) = 1%nat
  /\ reads tr = []
  /\ (forall c r, In (c, r) (invocations tr) ->
                  In ("--minimum-deployment-target=" ++ mdt) c).
Proof.
  intro tr. unfold tr.
  destruct (process_path_frame h path mdt verbose w)
    as [(e & -> & _)|(tmp & w0 & rcl & -> & _)].
  { repeat split. intros c r []. }
  change (EvTemporaryDirectory (Ok tmp)
          :: trace h (in_tmp_dir path mdt verbose tmp) w0
          ++ [EvCleanup tmp rcl])%list
    with ([EvTemporaryDirectory (Ok tmp)]
          ++ trace h (in_tmp_dir path mdt verbose tmp) w0
          ++ [EvCleanup tmp rcl])%list.
  rewrite !created_app, !reads_app, !invocations_app.
  cbn [created reads invocations flat_map app].
  rewrite !List.app_nil_r.
  destruct (in_tmp_dir_staged h path mdt verbose tmp w0)
    as [(_ & ->)|(tag & _ & S)].
  { repeat split. intros c r []. }
  pose proof (staged_not_tmp S) as (_ & C & _ & Hcmd).
  fold (created (trace h (in_tmp_dir path mdt verbose tmp) w0)).
  fold (reads (trace h (in_tmp_dir path mdt verbose tmp) w0)).
  fold (invocations (trace h (in_tmp_dir path mdt verbose tmp) w0)).
  rewrite C, (staged_no_reads S).
  split; [reflexivity|]. split; [reflexivity|].
  intros c r Hin. rewrite (Hcmd _ _ Hin). unfold actool_command.
  do 11 right. left. reflexivity.
Qed.

Lemma process_path_rejects path mdt verbose w :
  malformed path = true ->
  is_err (outcome h (_process_path path mdt verbose) w) = true.
Proof.
  intro Hm.
  destruct (process_path_malformed h w path mdt verbose Hm)
    as [(e & _ & ->)|(tmp & rcl & _ & ->)]; [reflexivity|now destruct rcl].
Qed.

(** The loop of [main]: catalogs are taken in order and the first one
    that raises ends the loop. *)
Lemma process_paths_run (paths : list string) mdt verbose :
  forall w,
    let tr := trace h (process_paths paths mdt verbose) w in
    let res := outcome h (process_paths paths mdt verbose) w in
    (List.length (created tr) <= List.length paths)%nat
    /\ (res = Ok tt -> List.length (created tr) = List.length paths)
    /\ (forall i path,
           nth_error paths i = Some path ->
           malformed (of_string path) = true ->
           (List.length (created tr) <= S i)%nat /\ is_err res = true)
    /\ reads tr = []
    /\ (forall c r, In (c, r) (invocations tr) ->
                    In ("--minimum-deployment-target=" ++ mdt) c).
Proof.
  induction paths as [|path paths IH]; intro w; cbn zeta.
  { unfold process_paths, trace, outcome. cbn [for_each run fst snd].
    split; [cbn; lia|]. split; [reflexivity|].
    split; [intros [|i] p Hn; discriminate Hn|].
    split; [reflexivity|intros c r []]. }
  change (process_paths (path :: paths) mdt verbose)
    with (bind (bind (if verbose then print ("Processing: " ++ path)
                      else Ret tt)
                     (fun _ => _process_path (of_string path) mdt verbose))
               (fun _ => process_paths paths mdt verbose)).
  assert (One : forall w,
             exists w0,
               trace h (bind (if verbose then print ("Processing: " ++ path)
                              else Ret tt)
                             (fun _ => _process_path (of_string path) mdt
                                         verbose)) w
               = ((if verbose then [EvPrint ("Processing: " ++ path)] else [])
                  ++ trace h (_process_path (of_string path) mdt verbose) w0)%list
               /\ outcome h (bind (if verbose
                                   then print ("Processing: " ++ path)
                                   else Ret tt)
                                  (fun _ => _process_path (of_string path) mdt
                                              verbose)) w
                  = outcome h (_process_path (of_string path) mdt verbose) w0).
  { intro w1. unfold trace, outcome. destruct verbose.
    - cbn [print bind run]. destruct (h (Print _) w1) as [[] w2].
      exists w2. cbn [log].
      destruct (run h (_process_path (of_string path) mdt true) w2)
        as [[r2 w3] tr2]. split; reflexivity.
    - cbn [bind]. exists w1. split; reflexivity. }
  destruct (One w) as (w0 & T1 & O1).
  pose proof (process_path_calls (of_string path) mdt verbose w0)
    as (C1 & R1 & I1).
  assert (Cr : created (trace h (bind (if verbose
                                      then print ("Processing: " ++ path)
                                      else Ret tt)
                                     (fun _ => _process_path (of_string path)
                                                 mdt verbose)) w)
               = created (trace h (_process_path (of_string path) mdt verbose)
                            w0)).
  { rewrite T1, created_app. now destruct verbose. }
  assert (Rd : reads (trace h (bind (if verbose
                                    then print ("Processing: " ++ path)
                                    else Ret tt)
                                   (fun _ => _process_path (of_string path)
                                               mdt verbose)) w) = []).
  { rewrite T1, reads_app, R1. now destruct verbose. }
  assert (Iv : invocations (trace h (bind (if verbose
                                          then print ("Processing: " ++ path)
                                          else Ret tt)
                                         (fun _ => _process_path
                                                     (of_string path) mdt
                                                     verbose)) w)
               = invocations (trace h (_process_path (of_string path) mdt
                                         verbose) w0)).
  { rewrite T1, invocations_app. now destruct verbose. }
  destruct (trace_bind
              (bind (if verbose then print ("Processing: " ++ path)
                     else Ret tt)
                    (fun _ => _process_path (of_string path) mdt verbose))
              (fun _ => process_paths paths mdt verbose) w)
    as [(e & E1 & -> & ->)|(u & w1 & E1 & -> & ->)].
  - rewrite Cr, Rd, Iv, C1. cbn [List.length].
    split; [lia|]. split; [discriminate|].
    split; [intros i p _ _; split; [lia|reflexivity]|].
    split; [reflexivity|exact I1].
  - destruct (IH w1) as (L & Eq & Bad & Rds & Inv).
    rewrite created_app, reads_app, invocations_app, Cr, Rd, Iv, Rds.
    rewrite length_app, C1. cbn [List.length app].
    split; [lia|]. split; [intro Hr; rewrite (Eq Hr); lia|].
    split.
    { intros [|i] p Hn Hm.
      - cbn [nth_error] in Hn. injection Hn as <-.
        pose proof (@process_path_rejects (of_string path) mdt verbose w0 Hm) as Hr.
        rewrite <- O1, E1 in Hr. discriminate Hr.
      - cbn [nth_error] in Hn. destruct (Bad i p Hn Hm) as [Hl He].
        split; [lia|exact He]. }
    split; [reflexivity|].
    intros c r Hin. apply in_app_or in Hin as [Hin|Hin];
      [now apply (I1 c r)|now apply (Inv c r)].
Qed.
End MainFacts.

Section MainShape.
Variable World : Type.
Variable h : forall R, call R -> World -> R * World.
Variable parse_args : list string -> result (list string * bool).
Variable this_file : string.

Lemma gate_quiet (w : World) :
  created (trace h _verify_actool_version w) = []
  /\ reads (trace h _verify_actool_version w) = []
  /\ invocations (trace h _verify_actool_version w) = []
  /\ read_reply (trace h _verify_actool_version w) = None.
Proof.
  unfold trace. rewrite gate_run.
  destruct (h (Check_output version_query) w) as [[out|e] w1];
    [|repeat split].
  destruct (h (Plist_loads out) w1) as [[od|e] w2]; repeat split.
Qed.

Lemma lookup_run (w : World) :
  exists r,
    trace h (_min_deployment_target this_file) w
    = [EvRead_text (mac_sdk_path this_file) r]
    /\ outcome h (_min_deployment_target this_file) w
       = match r with
         | Err e => Err e
         | Ok text =>
             match Re.finditer deployment_target_pattern text with
             | [] => Err (ValueError
                            [Lit "not enough values to unpack (expected 1, got 0)"])
             | [m] => Ok (Re.group 1 m)
             | _ :: _ :: _ =>
                 Err (ValueError
                        [Lit "too many values to unpack (expected 1)"])
             end
         end.
Proof.
  unfold trace, outcome, _min_deployment_target, mac_sdk_path.
  cbn [attempt bind run].
  destruct (h (Read_text _) w) as [[text|e] w1]; cbn [lift bind run log];
    [|exists (Err e); split; reflexivity].
  exists (Ok text).
  destruct (Re.finditer deployment_target_pattern text) as [|m [|m' l]];
    split; reflexivity.
Qed.

(** How far [main] gets: the gate, the arguments, the deployment target,
    then the catalogs. *)
Lemma main_shape (args : list string) (w : World) :
  let tr := trace h (main parse_args this_file args) w in
  let res := outcome h (main parse_args this_file args) w in
  (is_err res = true /\ tr = trace h _verify_actool_version w
   /\ (is_err (outcome h _verify_actool_version w) = true
       \/ is_err (parse_args args) = true))
  \/ exists paths verbose w1,
      parse_args args = Ok (paths, verbose)
      /\ outcome h _verify_actool_version w = Ok tt
      /\ ((is_err res = true
           /\ is_err (outcome h (_min_deployment_target this_file) w1) = true
           /\ tr = (trace h _verify_actool_version w
                    ++ trace h (_min_deployment_target this_file) w1)%list)
          \/ exists v w3,
              outcome h (_min_deployment_target this_file) w1 = Ok v
              /\ res = outcome h (process_paths paths (format_target v)
                                                verbose) w3
              /\ tr = (trace h _verify_actool_version w
                       ++ trace h (_min_deployment_target this_file) w1
                       ++ (if verbose
                           then [EvPrint
                                   ("Determined the minimum deployment "
                                    ++ "target to be " ++ format_target v
                                    ++ ".")]
                           else [])
                       ++ trace h (process_paths paths (format_target v)
                                                 verbose) w3)%list).
Proof.
  cbn zeta. unfold main.
  destruct (trace_bind h _verify_actool_version
              (fun _ =>
                 parsed <- lift (parse_args args) ;;
                 (let '(paths, verbose) := parsed in
                  min_deployment_target <- _min_deployment_target this_file ;;
                  (if verbose
                   then print ("Determined the minimum deployment target to be "
                               ++ format_target min_deployment_target ++ ".")
                   else Ret tt) ;;
                  process_paths paths (format_target min_deployment_target)
                                verbose)) w)
    as [(e & E1 & -> & ->)|([] & w1 & E1 & -> & ->)].
  { left. rewrite E1. repeat split. now left. }
  destruct (parse_args args) as [[paths verbose]|e] eqn:Ep; cbn [lift bind].
  2:{ left. unfold outcome, trace. cbn [run fst snd].
      rewrite List.app_nil_r. repeat split. now right. }
  right. exists paths, verbose, w1. split; [reflexivity|]. split; [exact E1|].
  destruct (trace_bind h (_min_deployment_target this_file)
              (fun min_deployment_target =>
                 (if verbose
                  then print ("Determined the minimum deployment target to be "
                              ++ format_target min_deployment_target ++ ".")
                  else Ret tt) ;;
                 process_paths paths (format_target min_deployment_target)
                               verbose) w1)
    as [(e & E2 & -> & ->)|(v & w2 & E2 & -> & ->)].
  { left. rewrite E2. repeat split. }
  right. destruct verbose.
  - unfold outcome, trace. cbn [print bind run].
    destruct (h (Print _) w2) as [[] w3]. exists v, w3. cbn [log].
    destruct (run h (process_paths paths (format_target v) true) w3)
      as [[r3 w4] tr3]. cbn [fst snd].
    split; [exact E2|]. split; reflexivity.
  - cbn [bind]. exists v, w2. split; [exact E2|]. split; reflexivity.
Qed.
End MainShape.

(** X11.  The gate runs before anything else in [main]: when it raises, or
    when the arguments do not parse, [main] raises and its trace is the
    trace of the gate alone; the build configuration is not read, no
    temporary directory is created and no catalog is compiled. *)
Theorem main_stops_at_gate (World : Type)
  (h : forall R, call R -> World -> R * World) (w : World)
  (parse_args : list string -> result (list string * bool))
  (this_file : string) (args : list string) :
  is_err (outcome h _verify_actool_version w) = true
  \/ is_err (parse_args args) = true ->
  is_err (outcome h (main parse_args this_file args) w) = true
  /\ trace h (main parse_args this_file args) w
     = trace h _verify_actool_version w
  /\ reads (trace h (main parse_args this_file args) w) = []
  /\ created (trace h (main parse_args this_file args) w) = []
  /\ invocations (trace h (main parse_args this_file args) w) = [].
Proof.
  intro Hbad.
  destruct (gate_quiet h w) as (C & R & I & _).
  destruct (main_shape h parse_args this_file args w)
    as [(E & T & _)|(paths & verbose & w1 & Ep & Eg & _)].
  - rewrite T. repeat split; assumption.
  - rewrite Ep, Eg in Hbad. destruct Hbad; discriminate.
Qed.

Lemma main_stops_at_gate_witness :
  let s := mkSample (version_reply "25.3") 0 [] (assignment_line "11.0") in
  let run_main :=
    main (fun _ => Ok (["chrome/app/Foo.xcassets"], false))
         "/src/tools/mac/icons/compile_car.py" ["chrome/app/Foo.xcassets"] in
  is_err (outcome (sample_handle s) run_main tt) = true
  /\ created (trace (sample_handle s) run_main tt) = [].
Proof.
  intros s run_main.
  destruct (@main_stops_at_gate unit (sample_handle s) tt
              (fun _ => Ok (["chrome/app/Foo.xcassets"], false))
              "/src/tools/mac/icons/compile_car.py"
              ["chrome/app/Foo.xcassets"] (or_introl eq_refl))
    as (H1 & _ & _ & H2 & _).
  split; assumption.
Defined.

(** X12.  [main] takes the catalogs in the order given and stops at the
    first that raises.  It creates at most one temporary directory per
    catalog, exactly one each when it returns, and when the catalog at
    position [i] is malformed it raises having started no catalog after
    it. *)
Theorem main_stops_at_first_failure (World : Type)
  (h : forall R, call R -> World -> R * World) (w : World)
  (parse_args : list string -> result (list string * bool))
  (this_file : string) (args paths : list string) (verbose : bool) :
  let tr := trace h (main parse_args this_file args) w in
  let res := outcome h (main parse_args this_file args) w in
  parse_args args = Ok (paths, verbose) ->
  (List.length (created tr) <= List.length paths)%nat
  /\ (res = Ok tt -> List.length (created tr) = List.length paths)
  /\ (forall i path,
         nth_error paths i = Some path ->
         malformed (of_string path) = true ->
         (List.length (created tr) <= S i)%nat /\ is_err res = true).
Proof.
  intros tr res Ep. unfold tr, res.
  destruct (gate_quiet h w) as (Cg & _ & _ & _).
  destruct (main_shape h parse_args this_file args w)
    as [(E & T & _)|(paths' & verbose' & w1 & Ep' & Eg & Rest)].
  { rewrite T, Cg. cbn [List.length].
    split; [lia|]. split.
    - intro Hr. rewrite Hr in E. discriminate E.
    - intros i p _ _. split; [lia|exact E]. }
  rewrite Ep in Ep'. injection Ep' as <- <-.
  destruct (lookup_run h this_file w1) as (r & Tl & _).
  destruct Rest as [(E & _ & T)|(v & w3 & _ & -> & T)].
  { rewrite T, created_app, Cg, Tl. unfold created. simpl.
    split; [lia|]. split.
    - intro Hr. rewrite Hr in E. discriminate E.
    - intros i p _ _. split; [lia|exact E]. }
  destruct (process_paths_run h paths (format_target v) verbose w3)
    as (L & Eq & Bad & _).
  assert (Cr : created (trace h (main parse_args this_file args) w)
               = created (trace h (process_paths paths (format_target v)
                                                 verbose) w3)).
  { rewrite T, !created_app, Cg, Tl. now destruct verbose. }
  rewrite Cr. split; [exact L|]. split; [exact Eq|exact Bad].
Qed.

Lemma main_stops_at_first_failure_witness :
  let files := ["/tmp/car/partial.plist"; "/tmp/car/AppIcon.icns";
                "/tmp/car/Assets.car"] in
  let reply :=
    VDict [("com.apple.actool.version",
            VDict [("short-bundle-version", VStr "26.1")]);
           ("com.apple.actool.compilation-results",
            VDict [("output-files", VList (map VStr files))])] in
  let s := mkSample reply 0 [] (assignment_line "11.0") in
  let paths := ["a/Foo.xcassets"; "a/Foo.txt"; "a/Bar.xcassets"] in
  let run_main :=
    main (fun _ => Ok (paths, false)) "/src/tools/mac/icons/compile_car.py"
         paths in
  is_err (outcome (sample_handle s) run_main tt) = true
  /\ (List.length (created (trace (sample_handle s) run_main tt)) <= 2)%nat
  /\ List.length (copies (trace (sample_handle s) run_main tt)) = 2%nat.
Proof.
  intros files reply s paths run_main.
  destruct (@main_stops_at_first_failure unit (sample_handle s) tt
              (fun _ => Ok (paths, false))
              "/src/tools/mac/icons/compile_car.py" paths paths false
              eq_refl)
    as (_ & _ & H).
  destruct (H 1%nat "a/Foo.txt" eq_refl eq_refl) as [H1 H2].
  split; [exact H2|]. split; [exact H1|reflexivity].
Defined.

(** X13.  [main] reads the build configuration once, at the fixed place
    three levels above the script, and every compiler command of the run
    carries the one value found there as its minimum deployment target. *)
Theorem main_one_deployment_target (World : Type)
  (h : forall R, call R -> World -> R * World) (w : World)
  (parse_args : list string -> result (list string * bool))
  (this_file : string) (args : list string) :
  let tr := trace h (main parse_args this_file args) w in
  (reads tr = [] \/ reads tr = [mac_sdk_path this_file])
  /\ forall command reply,
      In (command, reply) (invocations tr) ->
      exists text m v,
        read_reply tr = Some text
        /\ Re.finditer deployment_target_pattern text = [m]
        /\ Re.group 1 m = Some v
        /\ In ("--minimum-deployment-target=" ++ v) command.
Proof.
  intro tr. unfold tr.
  destruct (gate_quiet h w) as (Cg & Rg & Ig & Qg).
  destruct (main_shape h parse_args this_file args w)
    as [(E & T & _)|(paths & verbose & w1 & Ep & Eg & Rest)].
  { rewrite T, Rg, Ig. split; [now left|intros c r []]. }
  destruct (lookup_run h this_file w1) as (r & Tl & Ol).
  destruct Rest as [(E & _ & T)|(v & w3 & Ov & _ & T)].
  { rewrite T, reads_app, invocations_app, Rg, Ig, Tl.
    split; [now right|intros c r' []]. }
  destruct (process_paths_run h paths (format_target v) verbose w3)
    as (_ & _ & _ & Rp & Ip).
  rewrite Ov in Ol. destruct r as [text|e]; [|discriminate Ol].
  assert (Rd : reads (trace h (main parse_args this_file args) w)
               = [mac_sdk_path this_file]).
  { rewrite T, !reads_app, Rg, Tl, Rp. now destruct verbose. }
  assert (Iv : invocations (trace h (main parse_args this_file args) w)
               = invocations (trace h (process_paths paths (format_target v)
                                                     verbose) w3)).
  { rewrite T, !invocations_app, Ig, Tl. now destruct verbose. }
  assert (Rr : read_reply (trace h (main parse_args this_file args) w)
               = Some text).
  { rewrite T, Tl. unfold read_reply in *. rewrite flat_map_app.
    destruct (flat_map _ (trace h _verify_actool_version w));
      [reflexivity|discriminate Qg]. }
  split; [now right|].
  rewrite Iv, Rr. intros c r' Hin.
  destruct (Re.finditer deployment_target_pattern text) as [|m [|m' l]] eqn:F;
    try discriminate Ol.
  injection Ol as ->.
  destruct (deployment_target_group text m) as [x Hx];
    [rewrite F; now left|].
  exists text, m, x. split; [reflexivity|]. split; [exact F|].
  split; [exact Hx|].
  specialize (Ip c r' Hin). rewrite Hx in Ip. exact Ip.
Qed.

Lemma main_one_deployment_target_witness :
  let files := ["/tmp/car/partial.plist"; "/tmp/car/AppIcon.icns";
                "/tmp/car/Assets.car"] in
  let reply :=
    VDict [("com.apple.actool.version",
            VDict [("short-bundle-version", VStr "26.1")]);
           ("com.apple.actool.compilation-results",
            VDict [("output-files", VList (map VStr files))])] in
  let s := mkSample reply 0 [] (assignment_line "11.0") in
  let paths := ["a/Foo.xcassets"; "a/Foo_beta.xcassets"] in
  let run_main :=
    main (fun _ => Ok (paths, true)) "/src/tools/mac/icons/compile_car.py"
         paths in
  List.length (invocations (trace (sample_handle s) run_main tt)) = 2%nat
  /\ forall command reply,
      In (command, reply) (invocations (trace (sample_handle s) run_main tt)) ->
      In "--minimum-deployment-target=11.0" command.
Proof.
  intros files reply s paths run_main. split; [reflexivity|].
  intros command r Hin.
  destruct (@main_one_deployment_target unit (sample_handle s) tt
              (fun _ => Ok (paths, true))
              "/src/tools/mac/icons/compile_car.py" paths) as [_ H].
  destruct (H command r Hin) as (text & m & v & Ht & Hf & Hv & Hc).
  vm_compute in Ht. injection Ht as <-.
  vm_compute in Hf. injection Hf as <-.
  vm_compute in Hv. injection Hv as <-. exact Hc.
Defined.

(** ** Greedy repetition *)

Lemma consume_app s1 s2 st : consume (s1 ++ s2) st = consume s2 (consume s1 st).
Proof.
  revert st. induction s1 as [|c s1 IH]; intro st; [reflexivity|].
  cbn [append consume]. apply IH.
Qed.

Lemma consume_facts s t st :
  Re.rest st = s ++ t ->
  Re.rest (consume s st) = t
  /\ Re.pos (consume s st) = (String.length s + Re.pos st)%nat
  /\ Re.caps (consume s st) = Re.caps st.
Proof.
  revert st. induction s as [|c s IH]; intros st H; [repeat split; exact H|].
  cbn [consume]. cbn [append] in H.
  destruct (IH (Re.mkState (S (Re.pos st)) (Some c)
                  match Re.rest st with
                  | String _ t0 => t0
                  | EmptyString => EmptyString
                  end (Re.caps st))) as (R & P & C).
  { cbn [Re.rest]. now rewrite H. }
  cbn [Re.pos Re.caps] in P, C. repeat split; [exact R| |exact C].
  rewrite P. cbn [String.length]. lia.
Qed.

Lemma one_reads ok k st c r :
  Re.rest st = String c r ->
  Re.one ok k st = if ok c then k (consume (String c EmptyString) st) else None.
Proof.
  intro H. unfold Re.one, Re.advance. rewrite H. cbn [consume].
  rewrite H. reflexivity.
Qed.

Lemma one_stops ok k st :
  stops ok (Re.rest st) = true -> Re.one ok k st = None.
Proof.
  unfold Re.one, Re.advance, stops.
  destruct (Re.rest st) as [|c r]; [reflexivity|].
  intro H. apply negb_true_iff in H. now rewrite H.
Qed.

Section Star.
Variable ok : ascii -> bool.
Variable K : Re.state -> option Re.state.

(** The repetition fails when the continuation fails wherever the
    repetition can stop. *)
Lemma star_none s :
  forall t st fuel,
    Re.rest st = s ++ t ->
    all_chars ok s = true -> stops ok t = true ->
    (forall a b, s = a ++ b -> K (consume a st) = None) ->
    Re.star (Re.one ok) K fuel st = None.
Proof.
  induction s as [|c s IH]; intros t st fuel Hr Hs Ht Hk.
  - destruct fuel as [|fuel]; cbn [Re.star];
      [exact (Hk EmptyString EmptyString eq_refl)|].
    rewrite one_stops by (now rewrite Hr).
    exact (Hk EmptyString EmptyString eq_refl).
  - destruct fuel as [|fuel]; cbn [Re.star];
      [exact (Hk EmptyString (String c s) eq_refl)|].
    cbn [all_chars] in Hs. apply andb_prop in Hs as [Hc Hs].
    cbn [append] in Hr. rewrite (one_reads _ _ _ Hr), Hc.
    destruct (consume_facts (String c EmptyString) (s ++ t) st Hr)
      as (R1 & P1 & _).
    rewrite P1. cbn [String.length Nat.add].
    rewrite (proj2 (Nat.ltb_lt _ _) (Nat.lt_succ_diag_r _)).
    rewrite (@IH t _ fuel R1 Hs Ht).
    + exact (Hk EmptyString (String c s) eq_refl).
    + intros a b E. subst s.
      exact (Hk (String c a) b eq_refl).
Qed.

(** The repetition stops at the last place where the continuation
    succeeds: after [s1], when the continuation fails after every longer
    run. *)
Lemma star_last s1 :
  forall s2 t st fuel x,
    Re.rest st = s1 ++ s2 ++ t ->
    all_chars ok s1 = true -> all_chars ok s2 = true -> stops ok t = true ->
    (String.length s1 < fuel)%nat ->
    K (consume s1 st) = Some x ->
    (forall a b, s2 = a ++ b -> a <> EmptyString ->
                 K (consume (s1 ++ a) st) = None) ->
    Re.star (Re.one ok) K fuel st = Some x.
Proof.
  induction s1 as [|c s1 IH]; intros s2 t st fuel x Hr H1 H2 Ht Hf Hx Hk.
  - destruct fuel as [|fuel]; [cbn in Hf; lia|]. cbn [Re.star].
    cbn [append] in Hr. destruct s2 as [|c s2].
    + rewrite one_stops by (now rewrite Hr). exact Hx.
    + cbn [all_chars] in H2. apply andb_prop in H2 as [Hc H2].
      cbn [append] in Hr. rewrite (one_reads _ _ _ Hr), Hc.
      destruct (consume_facts (String c EmptyString) (s2 ++ t) st Hr)
        as (R1 & P1 & _).
      rewrite P1. cbn [String.length Nat.add].
      rewrite (proj2 (Nat.ltb_lt _ _) (Nat.lt_succ_diag_r _)).
      rewrite (@star_none s2 t _ fuel R1 H2 Ht); [exact Hx|].
      intros a b E. subst s2.
      apply (Hk (String c a) b eq_refl). discriminate.
  - destruct fuel as [|fuel]; [cbn in Hf; lia|]. cbn [Re.star].
    cbn [all_chars] in H1. apply andb_prop in H1 as [Hc H1].
    cbn [append] in Hr. rewrite (one_reads _ _ _ Hr), Hc.
    destruct (consume_facts (String c EmptyString) (s1 ++ s2 ++ t) st Hr)
      as (R1 & P1 & _).
    rewrite P1. cbn [String.length Nat.add].
    rewrite (proj2 (Nat.ltb_lt _ _) (Nat.lt_succ_diag_r _)).
    rewrite (@IH s2 t _ fuel x R1 H1 H2 Ht); [reflexivity| |exact Hx|].
    + cbn [String.length] in Hf. lia.
    + intros a b E Ha. exact (Hk a b E Ha).
Qed.
End Star.

(** ** Reading an assignment *)

Lemma length_append (a b : string) :
  String.length (a ++ b) = (String.length a + String.length b)%nat.
Proof. induction a as [|c a IH]; cbn; [reflexivity|now rewrite IH]. Qed.

Lemma substring_middle (p v t : string) :
  substring (String.length p) (String.length v) (p ++ v ++ t) = v.
Proof.
  induction p as [|c p IH]; cbn [String.length append substring]; [|exact IH].
  induction v as [|c v IH]; cbn [String.length append].
  - destruct t; reflexivity.
  - cbn [substring]. now rewrite IH.
Qed.

Lemma spaces_read ws t K st x :
  Re.rest st = ws ++ t ->
  all_chars is_space ws = true -> stops is_space t = true ->
  K (consume ws st) = Some x ->
  Re.matches (Re.RStar Re.RSpace) K st = Some x.
Proof.
  intros Hr Hw Ht Hx. cbn [Re.matches].
  change (Re.matches Re.RSpace) with (Re.one is_space).
  apply (@star_last is_space K ws EmptyString t); try assumption.
  - reflexivity.
  - rewrite Hr, length_append. lia.
  - intros a b E Ha. destruct a; [now elim Ha|discriminate].
Qed.

Lemma literal_reads s t r k st :
  Re.rest st = s ++ t ->
  Re.matches (Re.RLit s r) k st = Re.matches r k (consume s st).
Proof.
  revert st. induction s as [|c s IH]; intros st Hr; [reflexivity|].
  cbn [Re.RLit Re.matches]. cbn [append] in Hr.
  rewrite (one_reads _ _ _ Hr), Ascii.eqb_refl.
  destruct (consume_facts (String c EmptyString) (s ++ t) st Hr) as (R1 & _).
  now rewrite (IH _ R1).
Qed.

Lemma without_newline v :
  has_char Re.newline v = false ->
  all_chars (fun x => negb (Ascii.eqb x Re.newline)) v = true.
Proof.
  induction v as [|c v IH]; cbn [has_char all_chars]; [reflexivity|].
  intro H. apply orb_false_elim in H as [Hc Hv].
  now rewrite Hc, (IH Hv).
Qed.

Lemma tail_at_eol p pr cs k :
  Re.matches
    (Re.RSeq (Re.ROpt (Re.RSeq (Re.RStar Re.RSpace)
                       (Re.RSeq (Re.RChar "#") (Re.RStar Re.RAny))))
             Re.REol) k
    (Re.mkState p pr (String Re.newline EmptyString) cs)
  = k (Re.mkState p pr (String Re.newline EmptyString) cs).
Proof.
  cbn. destruct (_ <=? _)%nat; reflexivity.
Qed.

Lemma assignment_match ws0 ws1 ws2 v k x :
  all_chars is_space ws0 = true ->
  all_chars is_space ws1 = true ->
  all_chars is_space ws2 = true ->
  has_char Re.newline v = false ->
  let b := String.length (key_prefix ws0 ws1 ws2) in
  k (Re.mkState (S (String.length v + b)) (Some Re.dquote)
                (String Re.newline EmptyString)
                [(1%nat, (b, (String.length v + b)%nat))]) = Some x ->
  Re.matches deployment_target_pattern k
             (Re.mkState 0 None (assignment ws0 ws1 ws2 v) []) = Some x.
Proof.
  intros H0 H1 H2 Hv b Hk.
  unfold deployment_target_pattern, assignment.
  cbn [Re.matches Re.at_bol Re.prev].
  match goal with |- context [Re.mkState 0 None ?t []] =>
    set (st0 := Re.mkState 0 None t []) end.
  assert (R0 : Re.rest st0 = ws0 ++ "mac_deployment_target" ++ ws1 ++ "=" ++ ws2
     ++ String Re.dquote (v ++ String Re.dquote (String Re.newline EmptyString)))
    by reflexivity.
  destruct (@consume_facts _ _ _ R0) as (R1 & P1 & C1).
  cbn [Re.pos Re.caps st0] in P1, C1.
  eapply spaces_read; [exact R0|exact H0|reflexivity|].
  set (st1 := consume ws0 st0) in *.
  erewrite literal_reads by exact R1.
  destruct (@consume_facts _ _ _ R1) as (R2 & P2 & C2).
  set (st2 := consume "mac_deployment_target" st1) in *.
  cbn [Re.matches].
  destruct (@consume_facts _ _ _ R2) as (R3 & P3 & C3).
  eapply spaces_read; [exact R2|exact H1|reflexivity|].
  set (st3 := consume ws1 st2) in *.
  cbn [append] in R3.
  erewrite one_reads by exact R3. cbn [Ascii.eqb Bool.eqb].
  destruct (@consume_facts (String "=" EmptyString) _ _ R3) as (R4 & P4 & C4).
  set (st4 := consume (String "=" EmptyString) st3) in *.
  destruct (@consume_facts _ _ _ R4) as (R5 & P5 & C5).
  eapply spaces_read; [exact R4|exact H2|reflexivity|].
  set (st5 := consume ws2 st4) in *.
  erewrite one_reads by exact R5. rewrite Ascii.eqb_refl.
  destruct (@consume_facts (String Re.dquote EmptyString) _ _ R5)
    as (R6 & P6 & C6).
  set (st6 := consume (String Re.dquote EmptyString) st5) in *.
  assert (B : Re.pos st6 = b).
  { unfold b, key_prefix. rewrite P6, P5, P4, P3, P2, P1.
    rewrite !length_append. cbn [String.length]. lia. }
  assert (C : Re.caps st6 = []) by congruence.
  cbn [Re.matches].
  change (Re.matches Re.RAny) with (Re.one (fun x => negb (Ascii.eqb x Re.newline))).
  destruct (@consume_facts _ _ _ R6) as (R7 & P7 & C7).
  apply (@star_last _ _ v (String Re.dquote EmptyString)
                    (String Re.newline EmptyString)).
  - exact R6.
  - now apply without_newline.
  - reflexivity.
  - reflexivity.
  - rewrite R6, length_append. lia.
  - set (st7 := consume v st6) in *.
    erewrite one_reads by (cbn [Re.rest]; exact R7).
    rewrite Ascii.eqb_refl. cbn [consume Re.rest Re.pos Re.prev Re.caps].
    rewrite R7, P7, C7, C, B.
    exact (eq_trans (tail_at_eol _ _ _ k) Hk).
  - intros a b0 E Ha.
    destruct a as [|c a]; [now elim Ha|].
    cbn [append] in E. injection E as <- E.
    destruct a; [|discriminate]. clear E Ha.
    rewrite consume_app.
    set (st7 := consume v st6) in *.
    assert (R8 : Re.rest (consume (String Re.dquote EmptyString) st7)
                 = String Re.newline EmptyString)
      by (cbn [consume Re.rest]; now rewrite R7).
    erewrite one_reads by (cbn [Re.rest]; exact R8).
    reflexivity.
Qed.

Lemma append_assoc (a b c : string) : (a ++ b) ++ c = a ++ b ++ c.
Proof. induction a as [|x a IH]; cbn; [reflexivity|now rewrite IH]. Qed.

Lemma assignment_parts ws0 ws1 ws2 v :
  assignment ws0 ws1 ws2 v
  = key_prefix ws0 ws1 ws2
    ++ v ++ String Re.dquote (String Re.newline EmptyString).
Proof.
  unfold assignment, key_prefix. rewrite !append_assoc. reflexivity.
Qed.

Lemma scan_at_end text fuel must p cs :
  Re.scan deployment_target_pattern text fuel must
          (Re.mkState p (Some Re.dquote) (String Re.newline EmptyString) cs)
  = [].
Proof. destruct fuel as [|[|fuel]]; reflexivity. Qed.

Lemma assignment_found ws0 ws1 ws2 v :
  all_chars is_space ws0 = true ->
  all_chars is_space ws1 = true ->
  all_chars is_space ws2 = true ->
  has_char Re.newline v = false ->
  exists m,
    Re.finditer deployment_target_pattern (assignment ws0 ws1 ws2 v) = [m]
    /\ Re.group 1 m = Some v.
Proof.
  intros H0 H1 H2 Hv. unfold Re.finditer.
  set (text := assignment ws0 ws1 ws2 v).
  change (2 * S (String.length text))%nat
    with (S (String.length text + S (String.length text + 0))).
  cbn [Re.scan Re.pos Re.prev Re.rest andb].
  subst text.
  erewrite assignment_match; [|exact H0|exact H1|exact H2|exact Hv|reflexivity].
  cbn [Re.pos Re.caps]. rewrite scan_at_end.
  eexists. split; [reflexivity|].
  unfold Re.group, Re.lookup_group. cbn.
  rewrite Nat.add_sub, assignment_parts.
  now rewrite substring_middle.
Qed.

(** X14.  Reading back an assignment.  When the build configuration is one
    assignment of the key (white space of any kind before the key and on
    both sides of the equals sign, the value between double quotes, the
    end of the line), [_min_deployment_target] returns the text between
    the first and the last double quote, whatever it contains but a
    newline: double quotes and hash signs inside the value are part of
    it, because the group is greedy. *)
Theorem deployment_target_extracted (World : Type)
  (h : forall R, call R -> World -> R * World) (w : World)
  (file ws0 ws1 ws2 v : string) :
  all_chars is_space ws0 = true ->
  all_chars is_space ws1 = true ->
  all_chars is_space ws2 = true ->
  has_char Re.newline v = false ->
  read_reply (trace h (_min_deployment_target file) w)
  = Some (assignment ws0 ws1 ws2 v) ->
  outcome h (_min_deployment_target file) w = Ok (Some v).
Proof.
  intros H0 H1 H2 Hv.
  destruct (lookup_run h file w) as (r & T & O).
  rewrite T, O. unfold read_reply. cbn [flat_map app hd_error].
  destruct r as [text|e]; cbn [app hd_error]; [|discriminate].
  intro E. injection E as ->.
  destruct (@assignment_found ws0 ws1 ws2 v H0 H1 H2 Hv) as (m & F & G).
  now rewrite F, G.
Qed.

Lemma deployment_target_extracted_witness :
  let v := String "1" (String Re.dquote " # 2") in
  let text := assignment (String Re.newline " ") EmptyString " " v in
  outcome (sample_handle (mkSample (clean_reply []) 0 [] text))
          (_min_deployment_target "/src/tools/mac/icons/compile_car.py") tt
  = Ok (Some v).
Proof.
  intros v text.
  apply (@deployment_target_extracted unit _ tt _ (String Re.newline " ")
           EmptyString " " v); reflexivity.
Defined.

(** ** Querying [jj] *)

Lemma rstrip_char_snoc c s :
  Jj.rstrip_char c (s ++ String c EmptyString) = Jj.rstrip_char c s.
Proof.
  induction s as [|x s IH]; cbn [append Jj.rstrip_char].
  - now rewrite Ascii.eqb_refl.
  - now rewrite IH.
Qed.

Lemma rstrip_char_clean c t :
  has_char c t = false -> Jj.rstrip_char c t = t.
Proof.
  induction t as [|x t IH]; [reflexivity|].
  cbn [has_char Jj.rstrip_char]. intro H.
  apply orb_false_elim in H as [Hx Ht]. rewrite (IH Ht).
  destruct t; [now rewrite Hx|reflexivity].
Qed.

Lemma rstrip_char_keeps c s t :
  t <> EmptyString -> has_char c t = false ->
  Jj.rstrip_char c (s ++ t) = s ++ t.
Proof.
  intros Hn Ht. induction s as [|x s IH]; cbn [append Jj.rstrip_char].
  - now apply rstrip_char_clean.
  - rewrite IH. destruct (s ++ t) eqn:E; [|reflexivity].
    destruct s; [now elim Hn|discriminate].
Qed.

Lemma split_join sep strs :
  strs <> [] ->
  forallb (fun s => negb (has_char sep s)) strs = true ->
  split sep (join (String sep EmptyString) strs) = strs.
Proof.
  induction strs as [|x strs IH]; [now intros []|]. intros _ H.
  cbn [forallb] in H. apply andb_prop in H as [Hx H].
  apply negb_true_iff in Hx.
  destruct strs as [|y strs].
  - now apply split_without.
  - change (split sep (x ++ String sep (join (String sep EmptyString) (y :: strs)))
            = x :: y :: strs).
    rewrite (@split_at_first _ _ _ Hx), IH; [reflexivity|discriminate|exact H].
Qed.

Lemma join_last sep strs :
  strs <> [] ->
  exists p, join sep strs = p ++ last strs EmptyString.
Proof.
  induction strs as [|x strs IH]; [now intros []|]. intros _.
  destruct strs as [|y strs]; [now exists EmptyString|].
  destruct IH as [p Hp]; [discriminate|].
  exists (x ++ sep ++ p).
  change (join sep (x :: y :: strs)) with (x ++ sep ++ join sep (y :: strs)).
  change (last (x :: y :: strs) EmptyString)
    with (last (y :: strs) EmptyString).
  rewrite Hp, !append_assoc. reflexivity.
Qed.

Lemma encode_join rows :
  rows <> [] ->
  Jj.encode rows
  = join (String Jj._NEWLINE EmptyString) (map Jj.encode_row rows)
    ++ String Jj._NEWLINE EmptyString.
Proof.
  induction rows as [|row rows IH]; [now intros []|]. intros _.
  destruct rows as [|row' rows]; [reflexivity|].
  change (Jj.encode (row :: row' :: rows))
    with (Jj.encode_row row
          ++ String Jj._NEWLINE (Jj.encode (row' :: rows))).
  rewrite IH by discriminate.
  change (join (String Jj._NEWLINE EmptyString)
               (map Jj.encode_row (row :: row' :: rows)))
    with (Jj.encode_row row ++ String Jj._NEWLINE EmptyString
          ++ join (String Jj._NEWLINE EmptyString)
                  (map Jj.encode_row (row' :: rows))).
  rewrite !append_assoc. reflexivity.
Qed.

(** *** Records *)

Lemma dict_set_fresh {V} (d : list (string * V)) k v :
  ~ In k (map fst d) -> dict_set d k v = (d ++ [(k, v)])%list.
Proof.
  induction d as [|[x y] d IH]; [reflexivity|]. cbn [map fst In dict_set].
  intro H. destruct (String.eqb_spec x k) as [->|_]; [now elim H; left|].
  rewrite IH; [reflexivity|]. intro; apply H; now right.
Qed.

Lemma fold_dict_set (l d : list (string * string)) :
  NoDup (map fst d ++ map fst l) ->
  fold_left (fun d fv => dict_set d (fst fv) (snd fv)) l d = (d ++ l)%list.
Proof.
  revert d. induction l as [|[k v] l IH]; intros d H; cbn [fold_left fst snd].
  - now rewrite List.app_nil_r.
  - cbn [map fst] in H. rewrite dict_set_fresh.
    + rewrite IH; [now rewrite <- app_assoc|].
      rewrite map_app, <- app_assoc. exact H.
    + apply NoDup_remove_2 in H. intro K. apply H, in_or_app. now left.
Qed.

Lemma combine_keys (fields values : list string) :
  map fst (combine fields values)
  = firstn (List.length values) fields.
Proof.
  revert values. induction fields as [|f fields IH]; intros [|v values];
    cbn [combine map fst firstn List.length]; try reflexivity.
  now rewrite IH.
Qed.

Lemma firstn_NoDup {A} n (l : list A) : NoDup l -> NoDup (firstn n l).
Proof.
  revert n. induction l as [|x l IH]; intros [|n] H; cbn [firstn];
    try constructor.
  - intro K. apply NoDup_cons_iff in H as [H _]. apply H.
    rewrite <- (firstn_skipn n l). apply in_or_app. now left.
  - apply IH. now apply NoDup_cons_iff in H.
Qed.

Lemma record_of_combine fields values :
  NoDup fields -> Jj.record_of fields values = combine fields values.
Proof.
  intro H. unfold Jj.record_of. rewrite fold_dict_set; [reflexivity|].
  cbn [map app]. rewrite combine_keys. now apply firstn_NoDup.
Qed.

(** *** Sorting keeps the keys *)

Lemma insert_keys x l k :
  In k (map fst (Jj.insert x l)) <-> k = fst x \/ In k (map fst l).
Proof.
  induction l as [|y l IH]; cbn [Jj.insert map In].
  - intuition.
  - destruct (Jj.item_lt y x); cbn [map In]; [rewrite IH|]; intuition.
Qed.

Lemma sorted_keys l k :
  In k (map fst (Jj.sorted l)) <-> In k (map fst l).
Proof.
  induction l as [|x l IH]; cbn [Jj.sorted map In]; [tauto|].
  rewrite insert_keys, IH. intuition.
Qed.

Lemma insert_NoDup x l :
  ~ In (fst x) (map fst l) -> NoDup (map fst l) ->
  NoDup (map fst (Jj.insert x l)).
Proof.
  induction l as [|y l IH]; cbn [Jj.insert map In]; intros Hx Hl.
  - constructor; [intros []|constructor].
  - apply NoDup_cons_iff in Hl as [Hy Hl].
    destruct (Jj.item_lt y x); cbn [map].
    + constructor.
      * rewrite insert_keys. intros [E|K]; [apply Hx; now left|now apply Hy].
      * apply IH; [|exact Hl]. intro K. apply Hx. now right.
    + constructor; [exact Hx|]. constructor; assumption.
Qed.

Lemma sorted_NoDup l :
  NoDup (map fst l) -> NoDup (map fst (Jj.sorted l)).
Proof.
  induction l as [|x l IH]; cbn [Jj.sorted map]; [constructor|].
  intro H. apply NoDup_cons_iff in H as [Hx Hl].
  apply insert_NoDup; [|now apply IH]. now rewrite sorted_keys.
Qed.

Lemma insert_length x l :
  List.length (Jj.insert x l) = S (List.length l).
Proof.
  induction l as [|y l IH]; cbn [Jj.insert]; [reflexivity|].
  destruct (Jj.item_lt y x); cbn [List.length]; [now rewrite IH|reflexivity].
Qed.

Lemma sorted_length l : List.length (Jj.sorted l) = List.length l.
Proof.
  induction l as [|x l IH]; cbn [Jj.sorted]; [reflexivity|].
  rewrite insert_length. cbn [List.length]. now rewrite IH.
Qed.

Lemma fields_length templates :
  List.length (Jj.fields_of templates) = List.length templates.
Proof. unfold Jj.fields_of. now rewrite length_map, sorted_length. Qed.

(** *** The one command of a query *)

Lemma sorted_nonempty l : l <> [] -> Jj.sorted l <> [].
Proof.
  intros H E. apply (f_equal (@List.length _)) in E.
  rewrite sorted_length in E. destruct l; [now elim H|discriminate].
Qed.

Lemma log_shape (World : Type)
  (h : list string -> list (string * pyval) -> World
       -> result Jj.CompletedProcess * World)
  (templates : list (string * string)) (revisions : string) (ign : bool)
  (w : World) :
  templates <> [] ->
  let command := Jj.log_command templates revisions ign in
  let reply := fst (h command Jj.log_kwargs w) in
  Jj.jj_log h templates revisions ign w
  = (Jj.verdict (Jj.fields_of templates) reply,
     snd (h command Jj.log_kwargs w),
     [Jj.EvDebug "Running command %s" (join " " command);
      Jj.EvRun command Jj.log_kwargs reply]).
Proof.
  intros H. cbv zeta. unfold Jj.jj_log, Jj._log, Jj.fields_of.
  pose proof (sorted_nonempty H) as S.
  unfold Jj.log_command.
  destruct (Jj.sorted templates) as [|item items]; [now elim S|].
  cbn [Jj.unzip_items]. unfold Jj.run_command.
  assert (E : ("jj" :: (if ign
                       then ["log"; "-r"; revisions] ++ ["--ignore-working-copy"]
                       else ["log"; "-r"; revisions])
                ++ ["--no-pager"; "--no-graph"; "-T";
                    Jj.template_of (map snd (item :: items))])%list
              = ("jj" :: "log" :: "-r" :: revisions
                 :: (if ign then ["--ignore-working-copy"] else [])
                 ++ ["--no-pager"; "--no-graph"; "-T";
                     Jj.template_of (map snd (item :: items))])%list)
    by (destruct ign; reflexivity).
  rewrite E. clear E.
  change ([("stdout", Jj.PIPE); ("text", VBool true)]
          ++ [("check", VBool false)])%list with Jj.log_kwargs.
  destruct (h _ Jj.log_kwargs w) as [[ps|e] w1]; cbn [fst snd Jj.verdict];
    [|reflexivity].
  destruct (Jj.returncode ps =? 0); cbn [andb negb]; [|reflexivity].
  destruct (Jj.stdout ps); reflexivity.
Qed.

Lemma log_without_templates (World : Type)
  (h : list string -> list (string * pyval) -> World
       -> result Jj.CompletedProcess * World)
  (revisions : string) (ign : bool) (w : World) :
  Jj.jj_log h [] revisions ign w
  = (Jj.Raised (ValueError
                  [Lit "not enough values to unpack (expected 2, got 0)"]),
     w, []).
Proof. reflexivity. Qed.

(** X15.  A query without templates raises [ValueError] before anything is
    run; every other query runs exactly one command, the [jj log] of the
    revisions with the pager and the graph turned off and the template
    last, with its output captured as text and [check=False]. *)
Theorem jj_log_one_command (World : Type)
  (h : list string -> list (string * pyval) -> World
       -> result Jj.CompletedProcess * World)
  (templates : list (string * string)) (revisions : string) (ign : bool)
  (w : World) :
  let x := Jj.jj_log h templates revisions ign w in
  let command := Jj.log_command templates revisions ign in
  (templates = [] ->
   Jj.calls x = []
   /\ Jj.answer x
      = Jj.Raised (ValueError
                     [Lit "not enough values to unpack (expected 2, got 0)"]))
  /\ (templates <> [] ->
      exists reply,
        Jj.calls x
        = [Jj.EvDebug "Running command %s" (join " " command);
           Jj.EvRun command Jj.log_kwargs reply]
        /\ Jj.answer x = Jj.verdict (Jj.fields_of templates) reply).
Proof.
  intros x command. split.
  - intros ->. unfold x. rewrite log_without_templates. split; reflexivity.
  - intro H. unfold x. rewrite (log_shape h revisions ign w H).
    eexists. split; reflexivity.
Qed.

Lemma log_reply (World : Type)
  (h : list string -> list (string * pyval) -> World
       -> result Jj.CompletedProcess * World)
  (templates : list (string * string)) (revisions : string) (ign : bool)
  (w : World) args kw reply :
  let x := Jj.jj_log h templates revisions ign w in
  In (args, kw, reply) (Jj.runs (Jj.calls x)) ->
  templates <> []
  /\ Jj.runs (Jj.calls x) = [(args, kw, reply)]
  /\ Jj.answer x = Jj.verdict (Jj.fields_of templates) reply.
Proof.
  intro x. unfold x. destruct templates as [|t templates].
  - rewrite log_without_templates. intros [].
  - rewrite log_shape by discriminate.
    cbn [Jj.calls Jj.answer Jj.runs snd fst flat_map app In].
    intros [E|[]]. injection E as <- <- <-.
    split; [discriminate|]. split; reflexivity.
Qed.

Lemma log_answer (World : Type)
  (h : list string -> list (string * pyval) -> World
       -> result Jj.CompletedProcess * World)
  (templates : list (string * string)) (revisions : string) (ign : bool)
  (w : World) :
  let x := Jj.jj_log h templates revisions ign w in
  (templates = [] /\ Jj.runs (Jj.calls x) = []
   /\ exists e, Jj.answer x = Jj.Raised e)
  \/ (templates <> []
      /\ exists args kw reply,
          Jj.runs (Jj.calls x) = [(args, kw, reply)]
          /\ Jj.answer x = Jj.verdict (Jj.fields_of templates) reply).
Proof.
  intro x. unfold x. destruct templates as [|t templates].
  - left. rewrite log_without_templates. split; [reflexivity|].
    split; [reflexivity|]. eexists. reflexivity.
  - right. split; [discriminate|]. rewrite log_shape by discriminate.
    do 3 eexists. split; reflexivity.
Qed.

(** X16.  A query ends the process exactly when its command came back with
    a return code that is not zero, and then with that code: nothing is
    parsed from the output of a failed command. *)
Theorem jj_log_exit_code (World : Type)
  (h : list string -> list (string * pyval) -> World
       -> result Jj.CompletedProcess * World)
  (templates : list (string * string)) (revisions : string) (ign : bool)
  (w : World) (code : Z) :
  let x := Jj.jj_log h templates revisions ign w in
  Jj.answer x = Jj.Exited code
  <-> code <> 0
      /\ exists args kw ps,
          Jj.runs (Jj.calls x) = [(args, kw, Ok ps)]
          /\ Jj.returncode ps = code.
Proof.
  intro x.
  destruct (log_answer h templates revisions ign w)
    as [(_ & R & e & A)|(_ & args & kw & reply & R & A)]; fold x in R, A.
  - rewrite A, R. split; [discriminate|].
    intros (_ & ? & ? & ? & E & _). discriminate.
  - rewrite A, R. unfold Jj.verdict. split.
    + destruct reply as [ps|e]; [|discriminate].
      destruct (Z.eqb_spec (Jj.returncode ps) 0) as [Z|Z].
      * destruct (Jj.stdout ps); discriminate.
      * intro E. injection E as <-. split; [exact Z|].
        do 3 eexists. split; reflexivity.
    + intros (Z & args' & kw' & ps & E & <-). injection E as -> -> ->.
      apply Z.eqb_neq in Z. now rewrite Z.
Qed.

(** *** Reading the output back *)

Lemma has_char_append c a b :
  has_char c (a ++ b) = has_char c a || has_char c b.
Proof.
  induction a as [|x a IH]; cbn [append has_char]; [reflexivity|].
  now rewrite IH, orb_assoc.
Qed.

Lemma encode_row_clean c row :
  Ascii.eqb Jj._COMMA c = false ->
  forallb (fun v => negb (has_char c v)) row = true ->
  has_char c (Jj.encode_row row) = false.
Proof.
  intros Hc. unfold Jj.encode_row.
  induction row as [|v row IH]; [reflexivity|]. cbn [forallb]. intro H.
  apply andb_prop in H as [Hv H]. apply negb_true_iff in Hv.
  destruct row as [|v' row]; [exact Hv|].
  change (join (String Jj._COMMA EmptyString) (v :: v' :: row))
    with (v ++ String Jj._COMMA EmptyString
          ++ join (String Jj._COMMA EmptyString) (v' :: row)).
  rewrite !has_char_append, Hv, (IH H). cbn [has_char]. now rewrite Hc.
Qed.

Lemma last_encode_row rows :
  last (map Jj.encode_row rows) EmptyString
  = Jj.encode_row (last rows []).
Proof.
  induction rows as [|row rows IH]; [reflexivity|].
  destruct rows as [|row' rows]; [reflexivity|]. exact IH.
Qed.

Lemma clean_parts row :
  forallb Jj.clean row = true ->
  forallb (fun v => negb (has_char Jj._NEWLINE v)) row = true
  /\ forallb (fun v => negb (has_char Jj._COMMA v)) row = true.
Proof.
  induction row as [|v row IH]; [now split|]. cbn [forallb]. intro H.
  apply andb_prop in H as [Hv H]. apply andb_prop in Hv as [H1 H2].
  destruct (IH H) as [I1 I2]. now rewrite H1, H2, I1, I2.
Qed.

(** The comprehension gives back the rows that were printed. *)
Lemma parse_encode fields rows :
  NoDup fields -> fields <> [] ->
  rows <> [] ->
  forallb (fun row => (List.length row =? List.length fields)%nat
                      && forallb Jj.clean row) rows = true ->
  Jj.encode_row (last rows []) <> EmptyString ->
  Jj.parse fields (Jj.encode rows) = map (combine fields) rows.
Proof.
  intros Hf Hne Hr Hrows Hlast. unfold Jj.parse.
  rewrite (@encode_join _ Hr), rstrip_char_snoc.
  assert (Hnl : forallb (fun s => negb (has_char Jj._NEWLINE s))
                        (map Jj.encode_row rows) = true).
  { clear Hr Hlast. induction rows as [|row rows IH]; [reflexivity|].
    cbn [forallb map] in *. apply andb_prop in Hrows as [Hrow Hrows].
    apply andb_prop in Hrow as [_ Hrow].
    destruct (@clean_parts _ Hrow) as [H1 _].
    rewrite (@encode_row_clean Jj._NEWLINE _ eq_refl H1), (IH Hrows). reflexivity. }
  assert (Hm : map Jj.encode_row rows <> [])
    by (destruct rows; [now elim Hr|discriminate]).
  destruct (@join_last (String Jj._NEWLINE EmptyString) _ Hm) as [p Hp].
  rewrite Hp, rstrip_char_keeps, <- Hp.
  - rewrite (@split_join _ _ Hm Hnl), map_map.
    clear Hr Hlast Hnl Hm Hp. induction rows as [|row rows IH]; [reflexivity|].
    cbn [forallb map] in *. apply andb_prop in Hrows as [Hrow Hrows].
    apply andb_prop in Hrow as [Hlen Hrow].
    destruct (@clean_parts _ Hrow) as [_ H2].
    rewrite (IH Hrows). f_equal. unfold Jj.encode_row.
    rewrite split_join; [now apply record_of_combine| |exact H2].
    apply Nat.eqb_eq in Hlen. destruct row; [|discriminate].
    destruct fields; [now elim Hne|discriminate].
  - now rewrite last_encode_row.
  - rewrite last_encode_row.
    assert (Hin : forall row, In row rows ->
                    has_char Jj._NEWLINE (Jj.encode_row row) = false).
    { intros row Hin. rewrite forallb_forall in Hnl.
      apply negb_true_iff, Hnl, in_map, Hin. }
    apply Hin. destruct rows as [|r rows]; [now elim Hr|].
    apply (@exists_last _ (r :: rows)) in Hr as (l & a & ->).
    rewrite last_last. apply in_or_app. right. now left.
Qed.

Lemma fields_NoDup templates :
  NoDup (map fst templates) -> NoDup (Jj.fields_of templates).
Proof. apply sorted_NoDup. Qed.

Lemma fields_nonempty templates :
  templates <> [] -> Jj.fields_of templates <> [].
Proof.
  intros H E. apply (f_equal (@List.length _)) in E.
  rewrite fields_length in E. destruct templates; [now elim H|discriminate].
Qed.

(** X17.  Round trip.  When [jj] succeeds and prints, for one change or
    more, a value per field in the order of the sorted field names, each
    followed by its separator, and no value holds a separator, the query
    returns these changes, each as the dictionary of its fields.  The
    last change must not print as the empty string, which only a query of
    one field can do. *)
Theorem jj_log_round_trip (World : Type)
  (h : list string -> list (string * pyval) -> World
       -> result Jj.CompletedProcess * World)
  (templates : list (string * string)) (revisions : string) (ign : bool)
  (w : World) (rows : list (list string))
  (args : list string) (kw : list (string * pyval))
  (ps : Jj.CompletedProcess) :
  let x := Jj.jj_log h templates revisions ign w in
  let fields := Jj.fields_of templates in
  NoDup (map fst templates) ->
  In (args, kw, Ok ps) (Jj.runs (Jj.calls x)) ->
  Jj.returncode ps = 0 ->
  Jj.stdout ps = Some (Jj.encode rows) ->
  rows <> [] ->
  forallb (fun row => (List.length row =? List.length fields)%nat
                      && forallb Jj.clean row) rows = true ->
  Jj.encode_row (last rows []) <> EmptyString ->
  Jj.answer x = Jj.Returned (map (combine fields) rows).
Proof.
  intros x fields Hd Hin Hz Hout Hr Hrows Hlast.
  apply log_reply in Hin as (Ht & _ & A). fold x in A. rewrite A.
  unfold Jj.verdict. rewrite Hz, Hout. cbn [Z.eqb]. f_equal.
  apply parse_encode; try assumption.
  - now apply fields_NoDup.
  - now apply fields_nonempty.
Qed.

Lemma jj_log_round_trip_witness :
  let templates := [("parents", "parents.map(|c| c.change_id())");
                    ("change_id", "change_id")] in
  let rows := [["a"; "p"]; ["b"; EmptyString]] in
  Jj.answer (Jj.jj_log (Jj.sample_run (Jj.encode rows) 0) templates "a|b"
                       false tt)
  = Jj.Returned [[("change_id", "a"); ("parents", "p")];
                 [("change_id", "b"); ("parents", EmptyString)]].
Proof.
  intros templates rows.
  apply (@jj_log_round_trip unit (Jj.sample_run (Jj.encode rows) 0) templates
           "a|b" false tt rows
           (Jj.log_command templates "a|b" false) Jj.log_kwargs
           (Jj.mkCompleted (Jj.log_command templates "a|b" false) 0
                           (Some (Jj.encode rows)))).
  - repeat constructor; cbn; intuition discriminate.
  - left. reflexivity.
  - reflexivity.
  - reflexivity.
  - discriminate.
  - reflexivity.
  - discriminate.
Defined.

(** X18.  When [jj] succeeds and prints nothing, as for revisions that
    match no change, the query does not return the empty list: it returns
    one record, holding the first field with the empty string. *)
Theorem jj_log_no_output (World : Type)
  (h : list string -> list (string * pyval) -> World
       -> result Jj.CompletedProcess * World)
  (templates : list (string * string)) (revisions : string) (ign : bool)
  (w : World) (args : list string) (kw : list (string * pyval))
  (ps : Jj.CompletedProcess) :
  let x := Jj.jj_log h templates revisions ign w in
  In (args, kw, Ok ps) (Jj.runs (Jj.calls x)) ->
  Jj.returncode ps = 0 ->
  Jj.stdout ps = Some EmptyString ->
  exists field rest,
    Jj.fields_of templates = field :: rest
    /\ Jj.answer x = Jj.Returned [[(field, EmptyString)]].
Proof.
  intros x Hin Hz Hout.
  apply log_reply in Hin as (Ht & _ & A). fold x in A. rewrite A.
  unfold Jj.verdict. rewrite Hz, Hout. cbn [Z.eqb].
  pose proof (@fields_nonempty _ Ht) as F.
  destruct (Jj.fields_of templates) as [|field rest]; [now elim F|].
  exists field, rest. split; [reflexivity|]. now destruct rest.
Qed.

Lemma jj_log_no_output_witness :
  let templates := [("parents", "parents.map(|c| c.change_id())");
                    ("change_id", "change_id")] in
  exists field rest,
    Jj.fields_of templates = field :: rest
    /\ Jj.answer (Jj.jj_log (Jj.sample_run EmptyString 0) templates "none()"
                            true tt)
       = Jj.Returned [[(field, EmptyString)]].
Proof.
  intros templates.
  apply (@jj_log_no_output unit (Jj.sample_run EmptyString 0) templates
           "none()" true tt
           (Jj.log_command templates "none()" true) Jj.log_kwargs
           (Jj.mkCompleted (Jj.log_command templates "none()" true) 0
                           (Some EmptyString))).
  - left. reflexivity.
  - reflexivity.
  - reflexivity.
Defined.

Lemma encode_app rows rows' :
  Jj.encode (rows ++ rows') = Jj.encode rows ++ Jj.encode rows'.
Proof.
  induction rows as [|row rows IH]; [reflexivity|].
  change (Jj.encode_row row ++ String Jj._NEWLINE (Jj.encode (rows ++ rows'))
          = (Jj.encode_row row ++ String Jj._NEWLINE (Jj.encode rows))
            ++ Jj.encode rows').
  rewrite IH, append_assoc. reflexivity.
Qed.

(** X19.  Record separators at the end of the output are all dropped
    before it is split, so a last change that printed as the empty
    string, the one empty value of a query of one field, is lost: the
    output parses as if that change was not there. *)
Theorem empty_last_record_lost (fields : list string)
  (rows : list (list string)) (out : string) :
  Jj.parse fields (out ++ String Jj._NEWLINE EmptyString)
  = Jj.parse fields out
  /\ Jj.parse fields (Jj.encode (rows ++ [[EmptyString]]))
     = Jj.parse fields (Jj.encode rows).
Proof.
  assert (H : forall s, Jj.parse fields (s ++ String Jj._NEWLINE EmptyString)
                        = Jj.parse fields s)
    by (intro s; unfold Jj.parse; now rewrite rstrip_char_snoc).
  split; [apply H|]. rewrite encode_app. apply H.
Qed.

(** X20.  The keys of every record returned are the first field names in
    sorted order, at least one and at most all of them: a change with too
    few values gives a shorter record, and values beyond the fields are
    dropped. *)
Theorem jj_log_record_keys (World : Type)
  (h : list string -> list (string * pyval) -> World
       -> result Jj.CompletedProcess * World)
  (templates : list (string * string)) (revisions : string) (ign : bool)
  (w : World) (records : list (list (string * string))) :
  let x := Jj.jj_log h templates revisions ign w in
  NoDup (map fst templates) ->
  Jj.answer x = Jj.Returned records ->
  forall record,
    In record records ->
    exists n,
      (1 <= n <= List.length templates)%nat
      /\ map fst record = firstn n (Jj.fields_of templates).
Proof.
  intros x Hd A record Hin.
  destruct (log_answer h templates revisions ign w)
    as [(_ & _ & e & A')|(Ht & args & kw & reply & _ & A')]; fold x in A';
    rewrite A' in A; [discriminate|].
  unfold Jj.verdict in A. destruct reply as [ps|e]; [|discriminate].
  destruct (Jj.returncode ps =? 0); [|discriminate].
  destruct (Jj.stdout ps) as [out|]; [|discriminate].
  injection A as <-. unfold Jj.parse in Hin.
  apply in_map_iff in Hin as (change & <- & _).
  pose proof (split_nonempty Jj._COMMA change) as Hs.
  pose proof (@fields_nonempty _ Ht) as Hf.
  pose proof (fields_length templates) as Hl.
  rewrite record_of_combine by now apply fields_NoDup.
  rewrite combine_keys.
  exists (Nat.min (List.length (split Jj._COMMA change))
                  (List.length (Jj.fields_of templates))).
  split.
  - destruct (split Jj._COMMA change); [now elim Hs|].
    destruct (Jj.fields_of templates); [now elim Hf|].
    cbn [List.length] in *. lia.
  - destruct (Nat.le_ge_cases (List.length (split Jj._COMMA change))
                              (List.length (Jj.fields_of templates)))
      as [L|L].
    + now rewrite Nat.min_l.
    + rewrite Nat.min_r by exact L.
      now rewrite !firstn_all2.
Qed.

Lemma jj_log_record_keys_witness :
  let templates := [("parents", "parents"); ("change_id", "change_id")] in
  (exists n,
      (1 <= n <= 2)%nat
      /\ map fst [("change_id", "a")] = firstn n (Jj.fields_of templates))
  /\ (exists n,
         (1 <= n <= 2)%nat
         /\ map fst [("change_id", "b"); ("parents", "p")]
            = firstn n (Jj.fields_of templates)).
Proof.
  intros templates.
  pose (out := String "a" (String Jj._NEWLINE
                 (String "b" (String Jj._COMMA (String "p"
                    (String Jj._COMMA "q")))))).
  assert (D : NoDup (map fst templates))
    by (repeat constructor; cbn; intuition discriminate).
  pose proof (@jj_log_record_keys unit (Jj.sample_run out 0) templates "@"
                false tt _ D eq_refl) as H.
  split; apply H; cbn; auto.
Defined.

(** ** End-to-end scenarios in the sample environment *)

(** A clean compilation of [Foo.xcassets] writes [app.icns] and
    [Assets.car] beside the catalog. *)
Example scenario_clean_compile :
  let files := ["/tmp/car/partial.plist"; "/tmp/car/AppIcon.icns";
                "/tmp/car/Assets.car"] in
  let s := mkSample (clean_reply files) 0 [] EmptyString in
  let p := _process_path (of_string "chrome/app/Foo.xcassets") "11.0" false in
  outcome (sample_handle s) p tt = Ok tt
  /\ map (fun c => to_string (snd (fst c)))
         (copies (trace (sample_handle s) p tt))
     = ["chrome/app/Foo.xcassets/../app.icns";
        "chrome/app/Foo.xcassets/../Assets.car"].
Proof. split; reflexivity. Qed.

(** A single document warning of type ['Ambiguous Content'] is tolerated:
    the run succeeds and both destinations are written. *)
Example scenario_ambiguous_content :
  let files := ["/tmp/car/partial.plist"; "/tmp/car/AppIcon.icns";
                "/tmp/car/Assets.car"] in
  let reply :=
    VDict [(document_warnings_key,
            VList [VDict [("type", VStr "Ambiguous Content")]]);
           ("com.apple.actool.compilation-results",
            VDict [("output-files", VList (map VStr files))])] in
  let s := mkSample reply 0 [] EmptyString in
  let p := _process_path (of_string "chrome/app/Foo.xcassets") "11.0" false in
  outcome (sample_handle s) p tt = Ok tt
  /\ List.length (copies (trace (sample_handle s) p tt)) = 2%nat.
Proof. split; reflexivity. Qed.

(** A version of one component is smaller than a longer one it is a
    prefix of. *)
Example version_order_by_arity :
  tuple_lt [26] [26; 1] = true /\ tuple_lt [26; 0; 1] [26; 0] = false
  /\ tuple_lt [26; 0] [26; 0] = false.
Proof. repeat split. Qed.
